(** * doc-generator: structural analyzer, prompt assembler and LLM adapters

    A shallow embedding of the TypeScript sources of the document generator
    (code-parser, prompts, llm, doc-generator) and the properties of its
    specification that can be stated over it.

    JavaScript strings are sequences of UTF-16 code units; they are modelled
    as lists of code units ([N]).  Exceptions are modelled by an explicit
    outcome type, the network and the clock by explicit inputs and logs. *)

From Stdlib Require Import Ascii String.
From Stdlib Require Import List NArith ZArith Lia Bool Arith.
From Stdlib Require PrimFloat SpecFloat FloatOps.
Import ListNotations.

Set Implicit Arguments.

(* ================================================================= *)
(** * JavaScript strings *)

Module JS.

Definition codeunit := N.
Definition jsstring := list codeunit.

(** String literals of the sources are written as Rocq strings, which are
    UTF-8 byte sequences; [lit] decodes them into UTF-16 code units. *)
Fixpoint utf16_of_utf8 (bs : list N) : jsstring :=
  match bs with
  | [] => []
  | b0 :: r0 =>
      if (b0 <? 128)%N then b0 :: utf16_of_utf8 r0
      else if (b0 <? 224)%N then
        match r0 with
        | b1 :: r1 => ((b0 - 192) * 64 + (b1 - 128))%N :: utf16_of_utf8 r1
        | _ => []
        end
      else if (b0 <? 240)%N then
        match r0 with
        | b1 :: b2 :: r2 =>
            ((b0 - 224) * 4096 + (b1 - 128) * 64 + (b2 - 128))%N
              :: utf16_of_utf8 r2
        | _ => []
        end
      else
        match r0 with
        | b1 :: b2 :: b3 :: r3 =>
            let cp := ((b0 - 240) * 262144 + (b1 - 128) * 4096
                       + (b2 - 128) * 64 + (b3 - 128))%N in
            let v := (cp - 65536)%N in
            (55296 + v / 1024)%N :: (56320 + v mod 1024)%N :: utf16_of_utf8 r3
        | _ => []
        end
  end.

Definition lit (s : String.string) : jsstring :=
  utf16_of_utf8 (map N_of_ascii (String.list_ascii_of_string s)).

Arguments lit s%_string.

Definition LF : codeunit := 10%N.
Definition QUOTE : codeunit := 34%N.

(** Equality of strings ([===] on two strings). *)
Fixpoint eqb (a b : jsstring) : bool :=
  match a, b with
  | [], [] => true
  | x :: a', y :: b' => (x =? y)%N && eqb a' b'
  | _, _ => false
  end.

(** ECMAScript [WhiteSpace] and [LineTerminator] code units: what
    [String.prototype.trim] strips and what the regular expression class
    [\s] matches. *)
Definition isLineTerminator (c : codeunit) : bool :=
  ((c =? 10) || (c =? 13) || (c =? 8232) || (c =? 8233))%N.

Definition isWhiteSpace (c : codeunit) : bool :=
  ((c =? 9) || (c =? 11) || (c =? 12) || (c =? 32) || (c =? 160)
   || (c =? 5760) || ((8192 <=? c) && (c <=? 8202)) || (c =? 8239)
   || (c =? 8287) || (c =? 12288) || (c =? 65279))%N.

Definition isSpace (c : codeunit) : bool :=
  isWhiteSpace c || isLineTerminator c.

(** [\w] *)
Definition isWord (c : codeunit) : bool :=
  (((48 <=? c) && (c <=? 57)) || ((65 <=? c) && (c <=? 90))
   || ((97 <=? c) && (c <=? 122)) || (c =? 95))%N.

Fixpoint dropWhile (p : codeunit -> bool) (s : jsstring) : jsstring :=
  match s with
  | [] => []
  | c :: t => if p c then dropWhile p t else s
  end.

Fixpoint takeWhile (p : codeunit -> bool) (s : jsstring) : jsstring :=
  match s with
  | [] => []
  | c :: t => if p c then c :: takeWhile p t else []
  end.

(** [s.trim()] *)
Definition trim (s : jsstring) : jsstring :=
  rev (dropWhile isSpace (rev (dropWhile isSpace s))).

(** Truthiness of a string: non-empty. *)
Definition truthy (s : jsstring) : bool :=
  match s with [] => false | _ => true end.

(** [s.startsWith(p)] *)
Fixpoint startsWith (s p : jsstring) : bool :=
  match p, s with
  | [], _ => true
  | x :: p', y :: s' => (x =? y)%N && startsWith s' p'
  | _ :: _, [] => false
  end.

(** [s.endsWith(p)] *)
Definition endsWith (s p : jsstring) : bool :=
  startsWith (rev s) (rev p).

(** [s.indexOf(p)], [None] standing for [-1]. *)
Fixpoint indexOf_from (i : nat) (s p : jsstring) : option nat :=
  if startsWith s p then Some i
  else match s with
       | [] => None
       | _ :: t => indexOf_from (S i) t p
       end.

Definition indexOf (s p : jsstring) : option nat := indexOf_from 0 s p.

(** [s.includes(p)] *)
Definition includes (s p : jsstring) : bool :=
  match indexOf s p with Some _ => true | None => false end.

(** [s.lastIndexOf(c)] for a one-unit string [c], as an integer
    ([-1] when absent). *)
Fixpoint lastIndexOf_from (i : Z) (acc : Z) (s : jsstring) (c : codeunit) : Z :=
  match s with
  | [] => acc
  | x :: t => lastIndexOf_from (i + 1) (if (x =? c)%N then i else acc) t c
  end.

Definition lastIndexOf (s : jsstring) (c : codeunit) : Z :=
  lastIndexOf_from 0 (-1) s c.

(** [s.slice(a, b)] and [s.slice(a)] for integer arguments: negative
    indices count from the end, everything is clamped to the string. *)
Definition clampIndex (len i : Z) : Z :=
  if (i <? 0)%Z then Z.max (len + i) 0 else Z.min i len.

Definition slice (s : jsstring) (a b : Z) : jsstring :=
  let len := Z.of_nat (length s) in
  let from := clampIndex len a in
  let to := clampIndex len b in
  firstn (Z.to_nat (to - from)) (skipn (Z.to_nat from) s).

Definition sliceFrom (s : jsstring) (a : Z) : jsstring :=
  slice s a (Z.of_nat (length s)).

(** [s.split(c)] for a one-unit separator [c]. *)
Fixpoint split_aux (c : codeunit) (cur : jsstring) (s : jsstring)
  : list jsstring :=
  match s with
  | [] => [rev cur]
  | x :: t => if (x =? c)%N then rev cur :: split_aux c [] t
              else split_aux c (x :: cur) t
  end.

Definition split (s : jsstring) (c : codeunit) : list jsstring :=
  split_aux c [] s.

(** [s.split('')]: one string per code unit. *)
Definition splitUnits (s : jsstring) : list jsstring :=
  map (fun c => [c]) s.

(** [parts.join(sep)] *)
Fixpoint join (sep : jsstring) (parts : list jsstring) : jsstring :=
  match parts with
  | [] => []
  | [p] => p
  | p :: rest => p ++ sep ++ join sep rest
  end.

(** [s.toLowerCase()] on the Latin capitals.  The sources only compare the
    result against the keys of the extension table, which are spelled with
    the letters j, s, x, t, p and y: no code unit outside A-Z lower-cases to
    one of these. *)
Definition toLowerUnit (c : codeunit) : codeunit :=
  if ((65 <=? c) && (c <=? 90))%N then (c + 32)%N else c.

Definition toLowerCase (s : jsstring) : jsstring := map toLowerUnit s.

(** Decimal rendering of a non-negative integer (template literals). *)
Fixpoint digits (fuel : nat) (n : N) (acc : jsstring) : jsstring :=
  match fuel with
  | O => acc
  | S f =>
      let acc' := (48 + n mod 10)%N :: acc in
      if (n / 10 =? 0)%N then acc' else digits f (n / 10)%N acc'
  end.

Definition ofNat (n : nat) : jsstring := digits (S n) (N.of_nat n) [].

End JS.

Export JS.

(* ================================================================= *)
(** * Outcomes of a call *)

(** A call returns a value, throws, or does not terminate. *)
Inductive exn : Type :=
| TypeError (message : jsstring)
| SyntaxError (message : jsstring)
| Error (message : jsstring).

Definition exn_message (e : exn) : jsstring :=
  match e with
  | TypeError m | SyntaxError m | Error m => m
  end.

Inductive outcome (A : Type) : Type :=
| Ret (a : A)
| Throw (e : exn)
| Diverge.

Arguments Ret {A} a.
Arguments Throw {A} e.
Arguments Diverge {A}.

Definition bind {A B} (m : outcome A) (f : A -> outcome B) : outcome B :=
  match m with
  | Ret a => f a
  | Throw e => Throw e
  | Diverge => Diverge
  end.

Notation "x <- m ;; k" := (bind m (fun x => k))
  (at level 61, m at next level, right associativity).

Definition returns {A} (m : outcome A) : bool :=
  match m with Ret _ => true | _ => false end.

(** The [TypeError] of a property read or method call on [undefined]; its
    text is engine-defined and never inspected by the sources. *)
Definition undefinedAccess : exn := TypeError (lit "undefined").

(* ================================================================= *)
(** * Regular expressions *)

(** The sources recognise Python constructs with JavaScript regular
    expressions.  They are embedded as syntax trees and run by a
    backtracking matcher that follows the ECMAScript semantics: alternatives
    and quantifiers are tried in priority order, a quantifier iteration that
    consumes nothing is rejected, capture groups record the last text they
    matched.

    Where a comment quotes an expression of the sources, a space is written
    between a star and a closing parenthesis that follows it. *)

Module Regex.

Inductive re : Type :=
| Eps
| Chr (c : codeunit)
| Cls (p : codeunit -> bool)
| Seq (a b : re)
| Alt (a b : re)
| Star (greedy : bool) (a : re)
| Grp (i : nat) (a : re)
| Bos    (* [^] without the [m] flag *)
| Bol    (* [^] with the [m] flag *)
| Eol    (* [$] with the [m] flag *)
| Eos    (* [$] without the [m] flag *).

(** A position in the subject: the unit before it, what is left, and its
    index. *)
Record cursor : Type := Cursor {
  prev : option codeunit;
  rest : jsstring;
  pos : nat
}.

Definition start (s : jsstring) : cursor := Cursor None s 0.

Definition caps := list (nat * jsstring).

Definition K := cursor -> caps -> option (cursor * caps).
Definition matcher := cursor -> caps -> K -> option (cursor * caps).

Definition orElse {A} (x y : option A) : option A :=
  match x with Some _ => x | None => y end.

Fixpoint star_loop (atom : matcher) (greedy : bool) (k : K)
    (fuel : nat) (c : cursor) (cs : caps) : option (cursor * caps) :=
  match fuel with
  | O => k c cs
  | S n =>
      let more :=
        atom c cs (fun c' cs' =>
          if pos c' =? pos c then None
          else star_loop atom greedy k n c' cs') in
      if greedy then orElse more (k c cs) else orElse (k c cs) more
  end.

Definition atBol (c : cursor) : bool :=
  match prev c with
  | None => true
  | Some x => isLineTerminator x
  end.

Definition atEol (c : cursor) : bool :=
  match rest c with
  | [] => true
  | x :: _ => isLineTerminator x
  end.

Fixpoint run (r : re) (c : cursor) (cs : caps) (k : K)
  : option (cursor * caps) :=
  match r with
  | Eps => k c cs
  | Chr x =>
      match rest c with
      | y :: t => if (x =? y)%N then k (Cursor (Some y) t (S (pos c))) cs
                  else None
      | [] => None
      end
  | Cls p =>
      match rest c with
      | y :: t => if p y then k (Cursor (Some y) t (S (pos c))) cs else None
      | [] => None
      end
  | Seq a b => run a c cs (fun c' cs' => run b c' cs' k)
  | Alt a b => orElse (run a c cs k) (run b c cs k)
  | Star greedy a => star_loop (run a) greedy k (S (length (rest c))) c cs
  | Grp i a =>
      run a c cs (fun c' cs' =>
        k c' ((i, firstn (pos c' - pos c) (rest c)) :: cs'))
  | Bos => match prev c with None => k c cs | Some _ => None end
  | Bol => if atBol c then k c cs else None
  | Eol => if atEol c then k c cs else None
  | Eos => match rest c with [] => k c cs | _ :: _ => None end
  end.

(** Derived forms. *)
Definition plus (a : re) : re := Seq a (Star true a).          (* a+ *)
Definition opt (a : re) : re := Alt a Eps.                     (* a? *)
Definition many (a : re) : re := Star true a.                  (* a* *)
Definition few (a : re) : re := Star false a.                  (* a*? *)

Fixpoint text (s : jsstring) : re :=
  match s with
  | [] => Eps
  | c :: t => Seq (Chr c) (text t)
  end.

Fixpoint seq (rs : list re) : re :=
  match rs with
  | [] => Eps
  | r :: t => Seq r (seq t)
  end.

Definition s_ : re := Cls isSpace.                              (* \s *)
Definition S_ : re := Cls (fun c => negb (isSpace c)).          (* \S *)
Definition w_ : re := Cls isWord.                               (* \w *)
Definition any : re := Cls (fun _ => true).                     (* [\s\S] *)
Definition dot : re := Cls (fun c => negb (isLineTerminator c)). (* . *)
Definition notc (x : codeunit) : re := Cls (fun c => negb (c =? x)%N).
Definition ch (s : string) : re := text (lit s).

Arguments ch s%_string.

(** The result of a successful match: [index], the matched text, the
    capture groups, and the position after the match (the [lastIndex] of a
    global expression). *)
Record result : Type := Result {
  index : nat;
  matched : jsstring;
  groups : caps;
  after : cursor
}.

(** [m[i]]: [None] stands for [undefined], a group that did not take
    part in the match. *)
Fixpoint lookup (i : nat) (cs : caps) : option jsstring :=
  match cs with
  | [] => None
  | (j, s) :: t => if i =? j then Some s else lookup i t
  end.

Definition group (i : nat) (m : result) : option jsstring :=
  lookup i (groups m).

(** The first match at or after a position. *)
Fixpoint search (r : re) (p : option codeunit) (s : jsstring) (i : nat)
  : option result :=
  match run r (Cursor p s i) [] (fun c' cs => Some (c', cs)) with
  | Some (c', cs) => Some (Result i (firstn (pos c' - i) s) cs c')
  | None =>
      match s with
      | [] => None
      | x :: t => search r (Some x) t (S i)
      end
  end.

Definition exec (r : re) (c : cursor) : option result :=
  search r (prev c) (rest c) (pos c).

(** [s.match(r)] for an expression without the [g] flag. *)
Definition match_ (s : jsstring) (r : re) : option result :=
  exec r (start s).

(** [while ((m = r.exec(s)) !== null) ...] for an expression with the [g]
    flag: all matches, each search starting where the previous match ended.
    An empty match would leave [lastIndex] in place and the loop would not
    end: [None]. *)
Fixpoint exec_loop (r : re) (fuel : nat) (c : cursor)
  : option (list result) :=
  match fuel with
  | O => None
  | S n =>
      match exec r c with
      | None => Some []
      | Some m =>
          if pos (after m) <=? index m then None
          else option_map (cons m) (exec_loop r n (after m))
      end
  end.

Definition exec_all (r : re) (s : jsstring) : option (list result) :=
  exec_loop r (S (length s)) (start s).

(** [s.replace(r, '')] for an expression with the [g] flag: the text
    outside the matches.  After an empty match the search resumes one unit
    further. *)
Fixpoint remove_loop (r : re) (fuel : nat) (c : cursor) : jsstring :=
  match fuel with
  | O => rest c
  | S n =>
      match exec r c with
      | None => rest c
      | Some m =>
          let kept := firstn (index m - pos c) (rest c) in
          if pos (after m) <=? index m then
            match rest (after m) with
            | [] => kept
            | x :: t =>
                kept ++ x :: remove_loop r n
                               (Cursor (Some x) t (S (pos (after m))))
            end
          else kept ++ remove_loop r n (after m)
      end
  end.

Definition removeAll (r : re) (s : jsstring) : jsstring :=
  remove_loop r (S (length s)) (start s).

End Regex.

Import Regex.

(* ================================================================= *)
(** * Data model (types.ts) *)

Inductive Visibility : Type := public | private | protected.

Inductive CommentType : Type := LineComment | BlockComment | JsdocComment.

Inductive ExportType : Type :=
  ExClass | ExFunction | ExVariable | ExInterface | ExType.

Record ParamInfo : Type := {
  param_name : jsstring;
  param_type : option jsstring;
  param_isOptional : bool;
  param_defaultValue : option jsstring
}.

Record PropertyInfo : Type := {
  prop_name : jsstring;
  prop_type : option jsstring;
  prop_isOptional : bool;
  prop_isReadonly : bool
}.

Record MethodInfo : Type := {
  method_name : jsstring;
  method_params : list ParamInfo;
  method_returnType : option jsstring;
  method_isAsync : bool;
  method_isStatic : bool;
  visibility : Visibility
}.

Record MethodSignature : Type := {
  sig_name : jsstring;
  sig_params : list ParamInfo;
  sig_returnType : option jsstring
}.

Record ClassInfo : Type := {
  class_name : jsstring;
  superClass : option jsstring;
  implements : option (list jsstring);
  properties : list PropertyInfo;
  methods : list MethodInfo;
  class_comments : option (list jsstring);
  class_startLine : nat;
  class_endLine : nat
}.

Record FunctionInfo : Type := {
  fn_name : jsstring;
  fn_params : list ParamInfo;
  fn_returnType : option jsstring;
  fn_isAsync : bool;
  fn_isExported : bool;
  fn_comments : option (list jsstring);
  fn_startLine : nat;
  fn_endLine : nat
}.

Record InterfaceInfo : Type := {
  iface_name : jsstring;
  iface_extends : option (list jsstring);
  iface_properties : list PropertyInfo;
  iface_methods : list MethodSignature;
  iface_comments : option (list jsstring);
  iface_startLine : nat;
  iface_endLine : nat
}.

Record ImportInfo : Type := {
  source : jsstring;
  specifiers : list jsstring;
  isDefault : bool
}.

Record ExportInfo : Type := {
  export_name : jsstring;
  export_isDefault : bool;
  export_type : ExportType
}.

Record CommentInfo : Type := {
  comment_type : CommentType;
  content : jsstring;
  comment_startLine : nat;
  comment_endLine : nat
}.

Record CodeMetadata : Type := {
  fileName : jsstring;
  language : jsstring;
  classes : list ClassInfo;
  functions : list FunctionInfo;
  interfaces : list InterfaceInfo;
  imports : list ImportInfo;
  exports : list ExportInfo;
  comments : list CommentInfo;
  rawCode : jsstring
}.

(** [a || b] on possibly-undefined strings: [a] when it is a non-empty
    string, else [b]. *)
Definition orStr (a b : option jsstring) : option jsstring :=
  match a with
  | Some (_ :: _) => a
  | _ => b
  end.

(** Truthiness of a possibly-undefined string. *)
Definition truthyOpt (a : option jsstring) : bool :=
  match a with
  | Some (_ :: _) => true
  | _ => false
  end.

(** A capture group that takes part in every match of its expression. *)
Definition must (a : option jsstring) : jsstring :=
  match a with Some s => s | None => [] end.

(* ================================================================= *)
(** * The indentation analyzer (code-parser/python-parser.ts) *)

Module PythonParser.

(** Three double quotes and three single quotes. *)
Definition dq3 : jsstring := [QUOTE; QUOTE; QUOTE].
Definition sq3 : jsstring := lit "'''".

(** [code.slice(0, i).split('\n').length]: the 1-based line of index [i]. *)
Definition lineOf (code : jsstring) (i : nat) : nat :=
  length (split (slice code 0 (Z.of_nat i)) LF).

(** ** Block extraction *)

(** [/^(\s* )/] *)
Definition indentRegex : re := seq [Bos; Grp 1 (many s_)].

(** [line.match(/^(\s* )/)] always matches; the indent is the length of
    group 1, and 0 in the source's fallback branch. *)
Definition indentOf (line : jsstring) : nat :=
  match match_ line indentRegex with
  | Some m => length (must (group 1 m))
  | None => 0
  end.

(** [!line.trim()] *)
Definition isBlank (line : jsstring) : bool := negb (truthy (trim line)).

(** The [for] loop of [extractPythonBlock] over the lines after the
    header. *)
Fixpoint scanBlock (startIndent : nat) (ls : list jsstring)
  : list jsstring :=
  match ls with
  | [] => []
  | line :: ls' =>
      if isBlank line then line :: scanBlock startIndent ls'
      else if indentOf line <=? startIndent then []
      else line :: scanBlock startIndent ls'
  end.

(** [lines[startIndex]] is [undefined] past the end of the array and
    [startLine.match] then throws. *)
Definition extractPythonBlock (lines : list jsstring) (startIndex : nat)
  : outcome (list jsstring) :=
  match nth_error lines startIndex with
  | None => Throw undefinedAccess
  | Some startLine =>
      let startIndent := indentOf startLine in
      Ret (startLine :: scanBlock startIndent (skipn (S startIndex) lines))
  end.

(** ** Imports *)

(** [/^import\s+(\S+)(?:\s+as\s+(\S+))?/gm] *)
Definition simpleImportRegex : re :=
  seq [Bol; ch "import"; plus s_; Grp 1 (plus S_);
       opt (seq [plus s_; ch "as"; plus s_; Grp 2 (plus S_)])].

(** [/^from\s+(\S+)\s+import\s+(.+)$/gm] *)
Definition fromImportRegex : re :=
  seq [Bol; ch "from"; plus s_; Grp 1 (plus S_); plus s_; ch "import";
       plus s_; Grp 2 (plus dot); Eol].

(** [/(\S+)\s+as\s+(\S+)/] *)
Definition asRegex : re :=
  seq [Grp 1 (plus S_); plus s_; ch "as"; plus s_; Grp 2 (plus S_)].

Definition COMMA : codeunit := 44%N.
Definition HASH : jsstring := lit "#".

Definition fromSpecifiers (specifiersStr : jsstring) : list jsstring :=
  map (fun s =>
         match match_ s asRegex with
         | Some asMatch => must (group 2 asMatch)
         | None => s
         end)
      (filter (fun s => truthy s && negb (startsWith s HASH))
              (map trim (split specifiersStr COMMA))).

Definition loop {A} (o : option A) : outcome A :=
  match o with Some a => Ret a | None => Diverge end.

Definition extractPythonImports (code : jsstring) : outcome (list ImportInfo) :=
  simple <- loop (exec_all simpleImportRegex code) ;;
  from <- loop (exec_all fromImportRegex code) ;;
  Ret (map (fun m =>
              {| source := must (group 1 m);
                 specifiers := [must (orStr (group 2 m) (group 1 m))];
                 isDefault := true |}) simple
       ++ map (fun m =>
              {| source := must (group 1 m);
                 specifiers := fromSpecifiers (must (group 2 m));
                 isDefault := false |}) from).

(** ** Comments *)

(** The global expression for triple-quoted regions: three double quotes,
    group 1 [([\s\S]*?)], three double quotes; or three single quotes,
    group 2 [([\s\S]*?)], three single quotes. *)
Definition docstringRegex : re :=
  Alt (seq [text dq3; Grp 1 (few any); text dq3])
      (seq [text sq3; Grp 2 (few any); text sq3]).

(** The [forEach] over the lines; [index] is the 0-based index of the head
    of [ls]. *)
Fixpoint lineComments (index : nat) (ls : list jsstring) : list CommentInfo :=
  match ls with
  | [] => []
  | l :: ls' =>
      let trimmed := trim l in
      if startsWith trimmed HASH then
        {| comment_type := LineComment;
           content := trim (sliceFrom trimmed 1);
           comment_startLine := index + 1;
           comment_endLine := index + 1 |} :: lineComments (S index) ls'
      else lineComments (S index) ls'
  end.

(** One iteration of the docstring loop: [(match[1] || match[2]).trim()]
    throws when the operand is [undefined]. *)
Definition blockComment (code : jsstring) (m : result) : outcome CommentInfo :=
  match orStr (group 1 m) (group 2 m) with
  | None => Throw undefinedAccess
  | Some c =>
      Ret {| comment_type := BlockComment;
             content := trim c;
             comment_startLine := lineOf code (index m);
             comment_endLine := lineOf code (index m + length (matched m)) |}
  end.

Fixpoint mapM {A B} (f : A -> outcome B) (l : list A) : outcome (list B) :=
  match l with
  | [] => Ret []
  | a :: t => b <- f a ;; bs <- mapM f t ;; Ret (b :: bs)
  end.

Definition extractPythonComments (code : jsstring) (lines : list jsstring)
  : outcome (list CommentInfo) :=
  let singles := lineComments 0 lines in
  ms <- loop (exec_all docstringRegex code) ;;
  blocks <- mapM (blockComment code) ms ;;
  Ret (singles ++ blocks).

(** ** Parameters *)

Definition STAR : codeunit := 42%N.
Definition EQUALS : codeunit := 61%N.

(** [/^(\*{0,2}\w+)(?:\s*:\s*([^=]+))?(?:\s*=\s*(.+))?$/] *)
Definition paramRegex : re :=
  seq [Bos;
       Grp 1 (seq [opt (seq [Chr STAR; opt (Chr STAR)]); plus w_]);
       opt (seq [many s_; ch ":"; many s_; Grp 2 (plus (notc EQUALS))]);
       opt (seq [many s_; ch "="; many s_; Grp 3 (plus dot)]);
       Eos].

(** The body of the [for ... of parts] loop: the parameter pushed for one
    part, if any. *)
Definition parsePythonParam (part : jsstring) : option ParamInfo :=
  let trimmed := trim part in
  if negb (truthy trimmed) || eqb trimmed (lit "self")
     || eqb trimmed (lit "cls")
  then None
  else
    match match_ trimmed paramRegex with
    | Some paramMatch =>
        Some {| param_name := must (group 1 paramMatch);
                param_type := option_map trim (group 2 paramMatch);
                param_isOptional := truthyOpt (group 3 paramMatch);
                param_defaultValue := option_map trim (group 3 paramMatch) |}
    | None => None
    end.

Fixpoint somes {A} (l : list (option A)) : list A :=
  match l with
  | [] => []
  | Some a :: t => a :: somes t
  | None :: t => somes t
  end.

Definition parsePythonParams (paramsStr : jsstring) : list ParamInfo :=
  if negb (truthy (trim paramsStr)) then []
  else somes (map parsePythonParam (split paramsStr COMMA)).

(** ** Docstrings *)

(** The inner loop of [extractDocstring]: the lines after an opening line,
    up to the first that includes the quote. *)
Fixpoint closeDocstring (quote docstring : jsstring) (ls : list jsstring)
  : option jsstring :=
  match ls with
  | [] => None
  | nextLine :: ls' =>
      match indexOf nextLine quote with
      | Some k =>
          Some (trim (docstring ++ [LF] ++ slice nextLine 0 (Z.of_nat k)))
      | None => closeDocstring quote (docstring ++ [LF] ++ trim nextLine) ls'
      end
  end.

(** The outer loop, [n] iterations left, [ls] the block from index [i]. *)
Fixpoint scanDocstring (n : nat) (ls : list jsstring) : option jsstring :=
  match n, ls with
  | S n', raw :: ls' =>
      let l := trim raw in
      if startsWith l dq3 || startsWith l sq3 then
        let quote := slice l 0 3 in
        if endsWith l quote && (6 <? length l) then
          Some (trim (slice l 3 (-3)))
        else
          match closeDocstring quote (sliceFrom l 3) ls' with
          | Some d => Some d
          | None => scanDocstring n' ls'
          end
      else scanDocstring n' ls'
  | _, _ => None
  end.

(** [for (let i = 1; i < Math.min(block.length, 5); i++)]: at most four
    iterations, over the block without its header. *)
Definition extractDocstring (block : list jsstring) : option jsstring :=
  scanDocstring 4 (skipn 1 block).

(** [if (docstring) info.comments = [docstring]] *)
Definition docComments (docstring : option jsstring)
  : option (list jsstring) :=
  if truthyOpt docstring then Some [must docstring] else None.

(** ** Methods of a class *)

(** The tail shared by the function and the method expressions:
    [def\s+(\w+)\s*\(([^)]* )\)(?:\s*->\s*(\S+))?:] after the optional
    [(async\s+)?]. *)
Definition RPAREN : codeunit := 41%N.

Definition defTail : list re :=
  [opt (Grp 1 (seq [ch "async"; plus s_]));
   ch "def"; plus s_; Grp 2 (plus w_); many s_; ch "(";
   Grp 3 (many (notc RPAREN)); ch ")";
   opt (seq [many s_; ch "->"; many s_; Grp 4 (plus S_)]);
   ch ":"].

(** [/^\s+(async\s+)?def\s+(\w+)\s*\(([^)]* )\)(?:\s*->\s*(\S+))?:/] *)
Definition methodRegex : re := seq (Bos :: plus s_ :: defTail).

Definition methodVisibility (methodName : jsstring) : Visibility :=
  if startsWith methodName (lit "__") && negb (endsWith methodName (lit "__"))
  then private
  else if startsWith methodName (lit "_") then protected
  else public.

Definition classMethod (l : jsstring) : option MethodInfo :=
  match match_ l methodRegex with
  | Some methodMatch =>
      let methodName := must (group 2 methodMatch) in
      let paramsStr := must (group 3 methodMatch) in
      Some {| method_name := methodName;
              method_params := parsePythonParams paramsStr;
              method_returnType := orStr (group 4 methodMatch) None;
              method_isAsync := truthyOpt (group 1 methodMatch);
              method_isStatic :=
                startsWith (trim paramsStr) (lit "cls")
                || includes l (lit "@staticmethod");
              visibility := methodVisibility methodName |}
  | None => None
  end.

Definition extractClassMethods (classBody : list jsstring) : list MethodInfo :=
  somes (map classMethod classBody).

(** ** Properties of a class *)

(** [/^\s+def\s+__init__\s*\(/] *)
Definition initRegex : re :=
  seq [Bos; plus s_; ch "def"; plus s_; ch "__init__"; many s_; ch "("].

(** [/^(\s+)/] *)
Definition leadRegex : re := seq [Bos; Grp 1 (plus s_)].

(** [/^\s/] *)
Definition spaceRegex : re := seq [Bos; s_].

(** [/^\s+def\s+/] *)
Definition defRegex : re := seq [Bos; plus s_; ch "def"; plus s_].

(** [/self\.(\w+)\s*(?::\s*(\S+))?\s*=/] *)
Definition selfPropRegex : re :=
  seq [ch "self."; Grp 1 (plus w_); many s_;
       opt (seq [ch ":"; many s_; Grp 2 (plus S_)]); many s_; ch "="].

(** [/^\s{4}(\w+)\s*(?::\s*(\S+))?\s*=/] *)
Definition classPropRegex : re :=
  seq [Bos; s_; s_; s_; s_; Grp 1 (plus w_); many s_;
       opt (seq [ch ":"; many s_; Grp 2 (plus S_)]); many s_; ch "="].

Definition matches (s : jsstring) (r : re) : bool :=
  match match_ s r with Some _ => true | None => false end.

(** [seenProperties.has(name)] *)
Definition has (seen : list jsstring) (name : jsstring) : bool :=
  existsb (eqb name) seen.

Definition property (m : result) : PropertyInfo :=
  {| prop_name := must (group 1 m);
     prop_type := orStr (group 2 m) None;
     prop_isOptional := false;
     prop_isReadonly := false |}.

(** The mutable state of [extractClassProperties]. *)
Record PropState : Type := {
  inInit : bool;
  initIndent : nat;
  seenProperties : list jsstring;
  found : list PropertyInfo
}.

(** [line.match(/^(\s+)/)] and the length of its group 1. *)
Definition leadLength (l : jsstring) : option nat :=
  option_map (fun m => length (must (group 1 m))) (match_ l leadRegex).

Definition push (st : PropState) (m : result) : PropState :=
  {| inInit := inInit st;
     initIndent := initIndent st;
     seenProperties := must (group 1 m) :: seenProperties st;
     found := found st ++ [property m] |}.

(** One iteration of the first loop. *)
Definition initStep (st : PropState) (l : jsstring) : PropState :=
  if matches l initRegex then
    {| inInit := true;
       initIndent := match leadLength l with Some n => n | None => 0 end;
       seenProperties := seenProperties st;
       found := found st |}
  else if inInit st then
    if (truthy (trim l) && negb (matches l spaceRegex))
       || (match leadLength l with
           | Some n => (n <=? initIndent st) && matches l defRegex
           | None => false
           end)
    then {| inInit := false;
            initIndent := initIndent st;
            seenProperties := seenProperties st;
            found := found st |}
    else
      match match_ l selfPropRegex with
      | Some propMatch =>
          if has (seenProperties st) (must (group 1 propMatch)) then st
          else push st propMatch
      | None => st
      end
  else st.

(** One iteration of the second loop. *)
Definition classLevelStep (st : PropState) (l : jsstring) : PropState :=
  match match_ l classPropRegex with
  | Some classPropMatch =>
      if negb (has (seenProperties st) (must (group 1 classPropMatch)))
         && negb (includes l (lit "def "))
      then push st classPropMatch
      else st
  | None => st
  end.

Definition extractClassProperties (classBody : list jsstring)
  : list PropertyInfo :=
  let st0 := {| inInit := false; initIndent := 0;
                seenProperties := []; found := [] |} in
  let st1 := fold_left initStep classBody st0 in
  found (fold_left classLevelStep classBody st1).

(** ** Classes *)

(** [/^class\s+(\w+)(?:\(([^)]* )\))?:/gm] *)
Definition classRegex : re :=
  seq [Bol; ch "class"; plus s_; Grp 1 (plus w_);
       opt (seq [ch "("; Grp 2 (many (notc RPAREN)); ch ")"]); ch ":"].

(** The body of the class loop for one match. *)
Definition pythonClass (code : jsstring) (lines : list jsstring) (m : result)
  : outcome ClassInfo :=
  let className := must (group 1 m) in
  let inheritance := group 2 m in
  let startLine := lineOf code (index m) in
  let bases :=
    if truthyOpt inheritance
    then filter truthy (map trim (split (must inheritance) COMMA))
    else [] in
  classBody <- extractPythonBlock lines (startLine - 1) ;;
  Ret {| class_name := className;
         superClass := hd_error bases;
         implements := if 1 <? length bases then Some (tl bases) else None;
         properties := extractClassProperties classBody;
         methods := extractClassMethods classBody;
         class_comments := docComments (extractDocstring classBody);
         class_startLine := startLine;
         class_endLine := startLine + length classBody - 1 |}.

Definition extractPythonClasses (code : jsstring) (lines : list jsstring)
  : outcome (list ClassInfo) :=
  ms <- loop (exec_all classRegex code) ;;
  mapM (pythonClass code lines) ms.

(** ** Top-level functions *)

(** [/^(async\s+)?def\s+(\w+)\s*\(([^)]* )\)(?:\s*->\s*(\S+))?:/gm] *)
Definition funcRegex : re := seq (Bol :: defTail).

(** [/^\s+/] *)
Definition indentedRegex : re := seq [Bos; plus s_].

(** The body of the function loop for one match; [None] when the loop
    [continue]s past an indented header. *)
Definition pythonFunction (code : jsstring) (lines : list jsstring)
    (m : result) : outcome (option FunctionInfo) :=
  let startLine := lineOf code (index m) in
  let lineContent := nth_error lines (startLine - 1) in
  if truthyOpt lineContent && matches (must lineContent) indentedRegex
  then Ret None
  else
    funcBody <- extractPythonBlock lines (startLine - 1) ;;
    Ret (Some {| fn_name := must (group 2 m);
                 fn_params := parsePythonParams (must (group 3 m));
                 fn_returnType := orStr (group 4 m) None;
                 fn_isAsync := truthyOpt (group 1 m);
                 fn_isExported := true;
                 fn_comments := docComments (extractDocstring funcBody);
                 fn_startLine := startLine;
                 fn_endLine := startLine + length funcBody - 1 |}).

Definition extractPythonFunctions (code : jsstring) (lines : list jsstring)
  : outcome (list FunctionInfo) :=
  ms <- loop (exec_all funcRegex code) ;;
  fs <- mapM (pythonFunction code lines) ms ;;
  Ret (somes fs).

(** ** Entry point *)

Definition parsePython (code fileName : jsstring) : outcome CodeMetadata :=
  let lines := split code LF in
  imports_ <- extractPythonImports code ;;
  comments_ <- extractPythonComments code lines ;;
  classes_ <- extractPythonClasses code lines ;;
  functions_ <- extractPythonFunctions code lines ;;
  Ret {| fileName := fileName;
         language := lit "python";
         classes := classes_;
         functions := functions_;
         interfaces := [];
         imports := imports_;
         exports := [];
         comments := comments_;
         rawCode := code |}.

End PythonParser.

(* ================================================================= *)
(** * The syntax-tree analyzer (code-parser/js-parser.ts) *)

(** The parser and the traversal are Babel's.  What the analyzer reads of
    a syntax tree is modelled here: the node kinds its visitors are
    registered for, with the fields they read. *)

Module Babel.

Record SourceLocation : Type := {
  loc_start_line : nat;
  loc_end_line : nat
}.

Inductive BabelCommentType : Type := CommentLine | CommentBlock.

Record Comment : Type := {
  bc_type : BabelCommentType;
  bc_value : jsstring;
  bc_loc : option SourceLocation
}.

(** An expression or key position: an [Identifier], a [PrivateName], or
    something else. *)
Inductive Name : Type :=
| Identifier (name : jsstring)
| PrivateName (id_name : jsstring)
| OtherNode.

(** The imported or exported name of a specifier: an [Identifier] or a
    [StringLiteral]. *)
Inductive ModuleExportName : Type :=
| NameIdentifier (name : jsstring)
| NameStringLiteral (value : jsstring).

Unset Elimination Schemes.

Inductive TSType : Type :=
| TSStringKeyword | TSNumberKeyword | TSBooleanKeyword | TSAnyKeyword
| TSVoidKeyword | TSNullKeyword | TSUndefinedKeyword | TSUnknownKeyword
| TSNeverKeyword
| TSTypeReference (typeName : Name) (typeParameters : option (list TSType))
| TSArrayType (elementType : TSType)
| TSUnionType (types : list TSType)
| TSFunctionType (parameters : list Name) (typeAnnotation : option TSType)
| TSTypeLiteral
| TSOtherType.

Set Elimination Schemes.

(** A [typeAnnotation] or [returnType] field, when present. *)
Inductive Annotation : Type :=
| TSTypeAnnotation (typeAnnotation : TSType)
| OtherAnnotation.

Inductive Param : Type :=
| ParamIdentifier (name : jsstring) (optional : option bool)
    (typeAnnotation : option Annotation)
| AssignmentPattern (left : Name)
| RestElement (argument : Name)
| OtherParam.

Inductive ImportSpec : Type :=
| ImportDefaultSpecifier (local_name : jsstring)
| ImportSpecifier (imported : ModuleExportName)
| ImportNamespaceSpecifier (local_name : jsstring).

Record ImportDeclaration : Type := {
  import_source_value : jsstring;
  import_specifiers : list ImportSpec
}.

Inductive ClassMember : Type :=
| ClassProperty (key : Name) (readonly : option bool)
    (typeAnnotation : option Annotation)
| ClassPrivateProperty (key : Name) (readonly : option bool)
    (typeAnnotation : option Annotation)
| ClassMethod (key : Name) (params : list Param) (async static : bool)
    (accessibility : option Visibility) (returnType : option Annotation)
| ClassPrivateMethod (key : Name) (params : list Param) (async static : bool)
    (accessibility : option Visibility) (returnType : option Annotation)
| OtherMember.

(** An entry of [implements] or [extends]: a
    [TSExpressionWithTypeArguments] with its expression, or another node. *)
Inductive Heritage : Type :=
| TSExpressionWithTypeArguments (expression : Name)
| OtherHeritage.

Record ClassDeclaration : Type := {
  cd_id : option jsstring;
  cd_superClass : option Name;
  cd_implements : option (list Heritage);
  cd_body : list ClassMember;
  cd_loc : option SourceLocation
}.

(** [FunctionDeclaration], [ArrowFunctionExpression] and
    [FunctionExpression]. *)
Record Function_ : Type := {
  f_id : option jsstring;
  f_params : list Param;
  f_async : bool;
  f_returnType : option Annotation;
  f_loc : option SourceLocation
}.

Inductive Init : Type :=
| ArrowFunctionExpression (f : Function_)
| FunctionExpression (f : Function_)
| OtherInit.

Record VariableDeclarator : Type := {
  vd_id : Name;
  vd_init : option Init
}.

Inductive InterfaceMember : Type :=
| TSPropertySignature (key : Name) (optional readonly : option bool)
    (typeAnnotation : option Annotation)
| TSMethodSignature (key : Name) (parameters : option (list Param))
    (typeAnnotation : option Annotation)
| OtherSignature.

Record TSInterfaceDeclaration : Type := {
  id_name : jsstring;
  id_extends : option (list Heritage);
  id_body : list InterfaceMember;
  id_loc : option SourceLocation
}.

Inductive ExportSpec : Type :=
| ExportSpecifier (exported : ModuleExportName)
| OtherExportSpecifier.

(** The kind of [path.parent], as far as the visitors test it. *)
Inductive Parent : Type :=
| Program | ExportDefaultDeclaration | ExportNamedDeclaration | OtherParent.

(** One call of a visitor: the node entered and its parent. *)
Inductive Visit : Type :=
| VisitImportDeclaration (node : ImportDeclaration)
| VisitClassDeclaration (node : ClassDeclaration) (parent : Parent)
| VisitFunctionDeclaration (node : Function_) (parent : Parent)
| VisitVariableDeclaration (declarations : list VariableDeclarator)
    (parent : Parent)
| VisitTSInterfaceDeclaration (node : TSInterfaceDeclaration)
    (parent : Parent)
| VisitExportDefaultDeclaration (declaration : Name)
| VisitExportNamedDeclaration (specifiers : list ExportSpec).

End Babel.

Module JsParser.

Import Babel.

(** [x || false] on an optional flag. *)
Definition flag (b : option bool) : bool :=
  match b with Some true => true | _ => false end.

(** [loc?.start.line || 0] and [loc?.end.line || 0] *)
Definition startLineOf (loc : option SourceLocation) : nat :=
  match loc with Some l => loc_start_line l | None => 0 end.

Definition endLineOf (loc : option SourceLocation) : nat :=
  match loc with Some l => loc_end_line l | None => 0 end.

Definition unknown : jsstring := lit "unknown".

Fixpoint extractTypeString (type : TSType) : jsstring :=
  match type with
  | TSStringKeyword => lit "string"
  | TSNumberKeyword => lit "number"
  | TSBooleanKeyword => lit "boolean"
  | TSAnyKeyword => lit "any"
  | TSVoidKeyword => lit "void"
  | TSNullKeyword => lit "null"
  | TSUndefinedKeyword => lit "undefined"
  | TSUnknownKeyword => lit "unknown"
  | TSNeverKeyword => lit "never"
  | TSTypeReference (Identifier typeName) typeParameters =>
      match typeParameters with
      | Some (p :: ps) =>
          typeName ++ lit "<"
            ++ join (lit ", ") (map extractTypeString (p :: ps)) ++ lit ">"
      | _ => typeName
      end
  | TSTypeReference _ _ => unknown
  | TSArrayType elementType => extractTypeString elementType ++ lit "[]"
  | TSUnionType types => join (lit " | ") (map extractTypeString types)
  | TSFunctionType parameters typeAnnotation =>
      let params :=
        join (lit ", ")
             (map (fun p => match p with
                            | Identifier name => name
                            | _ => lit "arg"
                            end) parameters) in
      let returnType :=
        match typeAnnotation with
        | Some ty => extractTypeString ty
        | None => lit "void"
        end in
      lit "(" ++ params ++ lit ") => " ++ returnType
  | TSTypeLiteral => lit "object"
  | TSOtherType => unknown
  end.

(** [if (x.typeAnnotation && t.isTSTypeAnnotation(x.typeAnnotation))] *)
Definition annotationString (a : option Annotation) : option jsstring :=
  match a with
  | Some (TSTypeAnnotation ty) => Some (extractTypeString ty)
  | _ => None
  end.

Definition extractParam (param : Param) : ParamInfo :=
  match param with
  | ParamIdentifier name optional typeAnnotation =>
      {| param_name := name;
         param_type := annotationString typeAnnotation;
         param_isOptional := flag optional;
         param_defaultValue := None |}
  | AssignmentPattern (Identifier name) =>
      {| param_name := name;
         param_type := None;
         param_isOptional := true;
         param_defaultValue := Some (lit "has default") |}
  | RestElement (Identifier name) =>
      {| param_name := lit "..." ++ name;
         param_type := None;
         param_isOptional := false;
         param_defaultValue := None |}
  | _ =>
      {| param_name := unknown;
         param_type := None;
         param_isOptional := false;
         param_defaultValue := None |}
  end.

Definition extractParams (params : list Param) : list ParamInfo :=
  map extractParam params.

(** [/^\*+\s*/gm] *)
Definition leadingStars : re := seq [Bol; plus (Chr 42%N); many s_].

Definition findAssociatedComments (l : nat) (comments : list CommentInfo)
  : list jsstring :=
  map (fun comment => trim (removeAll leadingStars (content comment)))
      (filter (fun comment =>
                 (Z.of_nat (comment_endLine comment) =? Z.of_nat l - 1)%Z
                 || (Z.of_nat (comment_endLine comment) =? Z.of_nat l - 2)%Z)
              comments).

(** The name of a class member: an identifier, a private name with its
    hash, or unknown. *)
Definition memberName (key : Name) : jsstring :=
  match key with
  | Identifier name => name
  | PrivateName name => lit "#" ++ name
  | _ => unknown
  end.

Definition memberProperty (key : Name) (readonly : option bool)
    (typeAnnotation : option Annotation) : PropertyInfo :=
  {| prop_name := memberName key;
     prop_type := annotationString typeAnnotation;
     prop_isOptional := false;
     prop_isReadonly := flag readonly |}.

Definition classProperties (body : list ClassMember) : list PropertyInfo :=
  flat_map (fun member =>
              match member with
              | ClassProperty key readonly ty
              | ClassPrivateProperty key readonly ty =>
                  [memberProperty key readonly ty]
              | _ => []
              end) body.

Definition orPublic (a : option Visibility) : Visibility :=
  match a with Some v => v | None => public end.

Definition classMethods (body : list ClassMember) : list MethodInfo :=
  flat_map (fun member =>
              match member with
              | ClassMethod key params async static accessibility returnType =>
                  [{| method_name := memberName key;
                      method_params := extractParams params;
                      method_returnType := annotationString returnType;
                      method_isAsync := async;
                      method_isStatic := static;
                      visibility := orPublic accessibility |}]
              | ClassPrivateMethod key params async static _ returnType =>
                  [{| method_name := memberName key;
                      method_params := extractParams params;
                      method_returnType := annotationString returnType;
                      method_isAsync := async;
                      method_isStatic := static;
                      visibility := private |}]
              | _ => []
              end) body.

Definition heritageName (h : Heritage) : jsstring :=
  match h with
  | TSExpressionWithTypeArguments (Identifier name) => name
  | _ => unknown
  end.

Definition extractClassInfo (node : ClassDeclaration)
    (comments : list CommentInfo) : ClassInfo :=
  let startLine := startLineOf (cd_loc node) in
  {| class_name := must (orStr (cd_id node) (Some (lit "Anonymous")));
     superClass := match cd_superClass node with
                   | Some (Identifier name) => Some name
                   | _ => None
                   end;
     implements := option_map (map heritageName) (cd_implements node);
     properties := classProperties (cd_body node);
     methods := classMethods (cd_body node);
     class_comments := Some (findAssociatedComments startLine comments);
     class_startLine := startLine;
     class_endLine := endLineOf (cd_loc node) |}.

(** [extractFunctionInfo] for a declaration and [extractArrowFunctionInfo]
    for a bound function differ in where the name comes from. *)
Definition functionInfo (name : jsstring) (node : Function_)
    (comments : list CommentInfo) : FunctionInfo :=
  let startLine := startLineOf (f_loc node) in
  {| fn_name := name;
     fn_params := extractParams (f_params node);
     fn_returnType := annotationString (f_returnType node);
     fn_isAsync := f_async node;
     fn_isExported := false;
     fn_comments := Some (findAssociatedComments startLine comments);
     fn_startLine := startLine;
     fn_endLine := endLineOf (f_loc node) |}.

Definition extractFunctionInfo (node : Function_)
    (comments : list CommentInfo) : FunctionInfo :=
  functionInfo (must (orStr (f_id node) (Some (lit "anonymous")))) node
    comments.

Definition extractArrowFunctionInfo (name : jsstring) (node : Function_)
    (comments : list CommentInfo) : FunctionInfo :=
  functionInfo name node comments.

Definition signatureName (key : Name) : jsstring :=
  match key with
  | Identifier name => name
  | _ => unknown
  end.

Definition interfaceProperties (body : list InterfaceMember)
  : list PropertyInfo :=
  flat_map (fun member =>
              match member with
              | TSPropertySignature key optional readonly ty =>
                  [{| prop_name := signatureName key;
                      prop_type := annotationString ty;
                      prop_isOptional := flag optional;
                      prop_isReadonly := flag readonly |}]
              | _ => []
              end) body.

Definition interfaceMethods (body : list InterfaceMember)
  : list MethodSignature :=
  flat_map (fun member =>
              match member with
              | TSMethodSignature key parameters ty =>
                  [{| sig_name := signatureName key;
                      sig_params := match parameters with
                                    | Some ps => extractParams ps
                                    | None => []
                                    end;
                      sig_returnType := annotationString ty |}]
              | _ => []
              end) body.

Definition extendsName (h : Heritage) : jsstring :=
  match h with
  | TSExpressionWithTypeArguments (Identifier name) => name
  | _ => unknown
  end.

Definition extractInterfaceInfo (node : TSInterfaceDeclaration)
    (comments : list CommentInfo) : InterfaceInfo :=
  let startLine := startLineOf (id_loc node) in
  {| iface_name := id_name node;
     iface_extends := option_map (map extendsName) (id_extends node);
     iface_properties := interfaceProperties (id_body node);
     iface_methods := interfaceMethods (id_body node);
     iface_comments := Some (findAssociatedComments startLine comments);
     iface_startLine := startLine;
     iface_endLine := endLineOf (id_loc node) |}.

(** ** The visitors *)

Definition emptyMetadata (fileName language code : jsstring) : CodeMetadata :=
  {| fileName := fileName;
     language := language;
     classes := [];
     functions := [];
     interfaces := [];
     imports := [];
     exports := [];
     comments := [];
     rawCode := code |}.

Definition withComments (md : CodeMetadata) (cs : list CommentInfo)
  : CodeMetadata :=
  {| fileName := fileName md; language := language md;
     classes := classes md; functions := functions md;
     interfaces := interfaces md; imports := imports md;
     exports := exports md; comments := cs; rawCode := rawCode md |}.

Definition pushClass (md : CodeMetadata) (c : ClassInfo) : CodeMetadata :=
  {| fileName := fileName md; language := language md;
     classes := classes md ++ [c]; functions := functions md;
     interfaces := interfaces md; imports := imports md;
     exports := exports md; comments := comments md; rawCode := rawCode md |}.

Definition pushFunction (md : CodeMetadata) (f : FunctionInfo)
  : CodeMetadata :=
  {| fileName := fileName md; language := language md;
     classes := classes md; functions := functions md ++ [f];
     interfaces := interfaces md; imports := imports md;
     exports := exports md; comments := comments md; rawCode := rawCode md |}.

Definition pushInterface (md : CodeMetadata) (i : InterfaceInfo)
  : CodeMetadata :=
  {| fileName := fileName md; language := language md;
     classes := classes md; functions := functions md;
     interfaces := interfaces md ++ [i]; imports := imports md;
     exports := exports md; comments := comments md; rawCode := rawCode md |}.

Definition pushImport (md : CodeMetadata) (i : ImportInfo) : CodeMetadata :=
  {| fileName := fileName md; language := language md;
     classes := classes md; functions := functions md;
     interfaces := interfaces md; imports := imports md ++ [i];
     exports := exports md; comments := comments md; rawCode := rawCode md |}.

Definition pushExports (md : CodeMetadata) (es : list ExportInfo)
  : CodeMetadata :=
  {| fileName := fileName md; language := language md;
     classes := classes md; functions := functions md;
     interfaces := interfaces md; imports := imports md;
     exports := exports md ++ es; comments := comments md;
     rawCode := rawCode md |}.

Definition export (name : jsstring) (isDefault : bool) (type : ExportType)
  : ExportInfo :=
  {| export_name := name; export_isDefault := isDefault;
     export_type := type |}.

(** The export recorded for a declaration under an export wrapper. *)
Definition exportOf (parent : Parent) (name : jsstring) (type : ExportType)
  : list ExportInfo :=
  match parent with
  | ExportDefaultDeclaration => [export name true type]
  | ExportNamedDeclaration => [export name false type]
  | _ => []
  end.

Definition namedExportOf (parent : Parent) (name : jsstring)
    (type : ExportType) : list ExportInfo :=
  match parent with
  | ExportNamedDeclaration => [export name false type]
  | _ => []
  end.

Definition importInfo (node : ImportDeclaration) : ImportInfo :=
  {| source := import_source_value node;
     specifiers :=
       map (fun spec =>
              match spec with
              | ImportDefaultSpecifier local_name => local_name
              | ImportSpecifier (NameIdentifier name) => name
              | ImportSpecifier (NameStringLiteral value) => value
              | ImportNamespaceSpecifier local_name => lit "* as " ++ local_name
              end) (import_specifiers node);
     isDefault :=
       existsb (fun spec => match spec with
                            | ImportDefaultSpecifier _ => true
                            | _ => false
                            end) (import_specifiers node) |}.

(** The [forEach] over the declarators of a top-level variable
    declaration. *)
Definition visitDeclarator (parent : Parent) (md : CodeMetadata)
    (decl : VariableDeclarator) : CodeMetadata :=
  match vd_id decl, vd_init decl with
  | Identifier name, Some (ArrowFunctionExpression f)
  | Identifier name, Some (FunctionExpression f) =>
      let funcInfo := extractArrowFunctionInfo name f (comments md) in
      pushExports (pushFunction md funcInfo)
        (namedExportOf parent (fn_name funcInfo) ExFunction)
  | _, _ => md
  end.

Definition visit (md : CodeMetadata) (v : Visit) : CodeMetadata :=
  match v with
  | VisitImportDeclaration node => pushImport md (importInfo node)
  | VisitClassDeclaration node parent =>
      let classInfo := extractClassInfo node (comments md) in
      pushExports (pushClass md classInfo)
        (exportOf parent (class_name classInfo) ExClass)
  | VisitFunctionDeclaration node parent =>
      match f_id node with
      | Some _ =>
          let funcInfo := extractFunctionInfo node (comments md) in
          pushExports (pushFunction md funcInfo)
            (exportOf parent (fn_name funcInfo) ExFunction)
      | None => md
      end
  | VisitVariableDeclaration declarations parent =>
      match parent with
      | Program | ExportNamedDeclaration =>
          fold_left (visitDeclarator parent) declarations md
      | _ => md
      end
  | VisitTSInterfaceDeclaration node parent =>
      let interfaceInfo := extractInterfaceInfo node (comments md) in
      pushExports (pushInterface md interfaceInfo)
        (namedExportOf parent (iface_name interfaceInfo) ExInterface)
  | VisitExportDefaultDeclaration (Identifier name) =>
      pushExports md [export name true ExVariable]
  | VisitExportDefaultDeclaration _ => md
  | VisitExportNamedDeclaration specifiers =>
      pushExports md
        (flat_map (fun spec =>
                     match spec with
                     | ExportSpecifier (NameIdentifier name) =>
                         [export name false ExVariable]
                     | ExportSpecifier (NameStringLiteral value) =>
                         [export value false ExVariable]
                     | OtherExportSpecifier => []
                     end) specifiers)
  end.

Definition commentInfo (comment : Comment) : CommentInfo :=
  {| comment_type :=
       match bc_type comment with
       | CommentLine => LineComment
       | CommentBlock =>
           if startsWith (bc_value comment) (lit "*") then JsdocComment
           else BlockComment
       end;
     content := trim (bc_value comment);
     comment_startLine := startLineOf (bc_loc comment);
     comment_endLine := endLineOf (bc_loc comment) |}.

(** What the analyzer sees of a parsed file: [ast.comments], and the
    visitor calls that [traverse] makes, in order, until it returns or
    throws. *)
Record File : Type := {
  ast_comments : option (list Comment);
  traversal : list Visit
}.

Section WithBabel.

(** [parser.parse(code, options)], with or without the typescript plugin;
    it throws on syntax it cannot recover from. *)
Variable parse : jsstring -> bool -> exn + File.

(** Whatever is thrown inside the [try] is caught and logged; the metadata
    built so far is returned. *)
Definition parseJavaScript (code fileName language : jsstring)
  : CodeMetadata :=
  let isTypeScript :=
    eqb language (lit "typescript") || endsWith fileName (lit ".ts")
    || endsWith fileName (lit ".tsx") in
  let metadata := emptyMetadata fileName language code in
  match parse code isTypeScript with
  | inl _ => metadata
  | inr ast =>
      let metadata :=
        match ast_comments ast with
        | Some cs => withComments metadata (map commentInfo cs)
        | None => metadata
        end in
      fold_left visit (traversal ast) metadata
  end.

End WithBabel.

End JsParser.

(* ================================================================= *)
(** * The analyzer entry point (code-parser/index.ts) *)

Module CodeParser.

Definition SUPPORTED_LANGUAGES : list jsstring :=
  [lit "javascript"; lit "typescript"; lit "python"].

Definition EXTENSION_MAP : list (jsstring * jsstring) :=
  [(lit ".js", lit "javascript");
   (lit ".jsx", lit "javascript");
   (lit ".ts", lit "typescript");
   (lit ".tsx", lit "typescript");
   (lit ".py", lit "python")].

Fixpoint assoc (k : jsstring) (m : list (jsstring * jsstring))
  : option jsstring :=
  match m with
  | [] => None
  | (k', v) :: t => if eqb k k' then Some v else assoc k t
  end.

Definition DOT : codeunit := 46%N.

(** [fileName.slice(fileName.lastIndexOf('.')).toLowerCase()], looked up
    in the table.  Without a dot the slice starts at [-1] and is the last
    unit of the name. *)
Definition getLanguageFromFileName (fileName : jsstring) : option jsstring :=
  let ext := toLowerCase (sliceFrom fileName (lastIndexOf fileName DOT)) in
  orStr (assoc ext EXTENSION_MAP) None.

Definition isLanguageSupported (language : jsstring) : bool :=
  existsb (eqb language) SUPPORTED_LANGUAGES.

Section WithBabel.

Variable parse : jsstring -> bool -> exn + JsParser.File.

Definition parseCode (code fileName : jsstring) (language : option jsstring)
  : outcome CodeMetadata :=
  let detectedLanguage := orStr language (getLanguageFromFileName fileName) in
  if negb (truthyOpt detectedLanguage)
     || negb (isLanguageSupported (must detectedLanguage))
  then
    Ret (JsParser.emptyMetadata fileName
           (must (orStr detectedLanguage (Some (lit "unknown")))) code)
  else
    let l := must detectedLanguage in
    if eqb l (lit "javascript") || eqb l (lit "typescript") then
      Ret (JsParser.parseJavaScript parse code fileName l)
    else if eqb l (lit "python") then
      PythonParser.parsePython code fileName
    else Ret (JsParser.emptyMetadata fileName l code).

End WithBabel.

(** ** The readable summary *)

(** The lines of [generateCodeSummary] for one class, one parameter, one
    function, one interface and one import. *)
Definition summaryOfClass (cls : ClassInfo) : list jsstring :=
  [lit "- **" ++ class_name cls ++ lit "**"
     ++ (if truthyOpt (superClass cls)
         then lit " extends " ++ must (superClass cls) else [])]
  ++ (if 0 <? length (properties cls)
      then [lit "  - 属性: "
              ++ join (lit ", ") (map prop_name (properties cls))]
      else [])
  ++ (if 0 <? length (methods cls)
      then [lit "  - 方法: "
              ++ join (lit ", ") (map method_name (methods cls))]
      else []).

Definition summaryOfParam (p : ParamInfo) : jsstring :=
  param_name p
    ++ (if truthyOpt (param_type p)
        then lit ": " ++ must (param_type p) else []).

Definition summaryOfFunction (fn : FunctionInfo) : list jsstring :=
  [lit "- **" ++ fn_name fn ++ lit "**("
     ++ join (lit ", ") (map summaryOfParam (fn_params fn)) ++ lit ")"
     ++ (if truthyOpt (fn_returnType fn)
         then lit " → " ++ must (fn_returnType fn) else [])]
  ++ match fn_comments fn with
     | Some (c :: _) => [lit "  - " ++ c]
     | _ => []
     end.

Definition summaryOfInterface (iface : InterfaceInfo) : list jsstring :=
  [lit "- **" ++ iface_name iface ++ lit "**"]
  ++ (if 0 <? length (iface_properties iface)
      then [lit "  - 属性: "
              ++ join (lit ", ") (map prop_name (iface_properties iface))]
      else []).

Definition summaryOfImport (imp : ImportInfo) : jsstring :=
  lit "- from " ++ [QUOTE] ++ source imp ++ [QUOTE] ++ lit ": "
    ++ join (lit ", ") (specifiers imp).

(** The three lines that open every summary. *)
Definition summaryHeader (metadata : CodeMetadata) : list jsstring :=
  [lit "## 代码分析摘要";
   lit "**文件**: " ++ fileName metadata;
   lit "**语言**: " ++ language metadata].

(** The sections of the non-empty collections, each closed by an empty
    line. *)
Definition summarySections (metadata : CodeMetadata) : list jsstring :=
  (if 0 <? length (classes metadata)
   then (lit "### 类 (" ++ ofNat (length (classes metadata)) ++ lit "个)")
        :: flat_map summaryOfClass (classes metadata) ++ [[]]
   else [])
  ++ (if 0 <? length (functions metadata)
      then (lit "### 函数 (" ++ ofNat (length (functions metadata))
              ++ lit "个)")
           :: flat_map summaryOfFunction (functions metadata) ++ [[]]
      else [])
  ++ (if 0 <? length (interfaces metadata)
      then (lit "### 接口 (" ++ ofNat (length (interfaces metadata))
              ++ lit "个)")
           :: flat_map summaryOfInterface (interfaces metadata) ++ [[]]
      else [])
  ++ (if 0 <? length (imports metadata)
      then (lit "### 导入 (" ++ ofNat (length (imports metadata))
              ++ lit "个)")
           :: map summaryOfImport (imports metadata) ++ [[]]
      else []).

Definition generateCodeSummary (metadata : CodeMetadata) : jsstring :=
  join [LF] (summaryHeader metadata ++ [[]] ++ summarySections metadata).

End CodeParser.

(* ================================================================= *)
(** * Prompt templates (prompts/templates.ts) *)

Inductive DocumentType : Type := requirements | design | api | test.

Inductive InputType : Type := InputCode | InputText.

Module Templates.

Definition SYSTEM_PROMPTS (docType : DocumentType) : jsstring :=
  match docType with
  | requirements => lit "你是一个专业的软件需求分析师。你的任务是根据提供的代码或描述，生成清晰、完整的软件需求文档。

文档应包含：
1. 项目概述
2. 功能需求列表
3. 用户故事
4. 非功能需求（如有）
5. 业务规则

请使用 Markdown 格式，确保文档专业、易读。"
  | design => lit "你是一个资深的软件架构师。你的任务是根据提供的代码或描述，生成专业的软件设计文档。

文档应包含：
1. 系统概述
2. 架构设计
3. 模块设计
4. 类/组件设计
5. 数据流程
6. 接口设计

如果适用，请使用 Mermaid 语法添加架构图或流程图。请使用 Markdown 格式。"
  | api => lit "你是一个API文档专家。你的任务是根据提供的代码或描述，生成详细的API接口文档。

文档应包含：
1. API 概述
2. 接口列表
3. 每个接口的详细说明：
   - 接口路径
   - 请求方法
   - 请求参数
   - 响应格式
   - 示例代码
4. 错误码说明

请使用 Markdown 格式，必要时使用表格展示参数信息。"
  | test => lit "你是一个软件测试专家。你的任务是根据提供的代码或描述，生成完整的测试文档。

文档应包含：
1. 测试概述
2. 测试范围
3. 测试用例列表：
   - 用例ID
   - 测试场景
   - 前置条件
   - 测试步骤
   - 预期结果
4. 边界条件测试
5. 异常情况测试

请使用 Markdown 格式，使用表格展示测试用例。"
  end.

Definition getTaskDescription (docType : DocumentType) : jsstring :=
  match docType with
  | requirements => lit "请根据以下内容生成一份专业的**软件需求文档**。"
  | design => lit "请根据以下内容生成一份专业的**软件设计文档**。"
  | api => lit "请根据以下内容生成一份详细的**API接口文档**。"
  | test => lit "请根据以下内容生成一份完整的**软件测试文档**。"
  end.

Definition getOutputRequirements (docType : DocumentType) : jsstring :=
  match docType with
  | requirements => lit "
1. 使用 Markdown 格式
2. 包含项目概述、功能需求、用户故事
3. 需求描述清晰、可测量
4. 为每个功能需求分配优先级（高/中/低）
5. 使用编号便于追踪"
  | design => lit "
1. 使用 Markdown 格式
2. 包含系统架构、模块设计、类设计
3. 使用 Mermaid 语法添加架构图或类图
4. 说明各模块之间的依赖关系
5. 包含设计决策和理由说明"
  | api => lit "
1. 使用 Markdown 格式
2. 每个接口包含完整的参数说明
3. 使用表格展示参数信息
4. 提供请求和响应的示例
5. 包含错误处理说明"
  | test => lit "
1. 使用 Markdown 格式
2. 测试用例使用表格形式
3. 包含正常流程和异常流程测试
4. 覆盖边界条件
5. 每个用例有明确的预期结果"
  end.

Definition getDocTypeName (docType : DocumentType) : jsstring :=
  match docType with
  | requirements => lit "需求文档"
  | design => lit "设计文档"
  | api => lit "API文档"
  | test => lit "测试文档"
  end.

Definition classSummary (cls : ClassInfo) : list jsstring :=
  (lit "  - `" ++ class_name cls ++ lit "`"
     ++ (if truthyOpt (superClass cls)
         then lit " (继承自 " ++ must (superClass cls) ++ lit ")" else []))
  :: (if 0 <? length (methods cls)
      then [lit "    - 方法: "
              ++ join (lit ", ") (map method_name (methods cls))]
      else []).

Definition functionSummary (fn : FunctionInfo) : jsstring :=
  let params := join (lit ", ") (map param_name (fn_params fn)) in
  lit "  - `" ++ fn_name fn ++ lit "(" ++ params ++ lit ")`"
    ++ (if truthyOpt (fn_returnType fn)
        then lit " → " ++ must (fn_returnType fn) else []).

Definition generateMetadataSummary (metadata : CodeMetadata) : jsstring :=
  join [LF]
    ([lit "- **文件名**: " ++ fileName metadata;
      lit "- **编程语言**: " ++ language metadata]
     ++ (if 0 <? length (classes metadata)
         then (lit "- **类定义**: " ++ ofNat (length (classes metadata))
                 ++ lit " 个")
              :: flat_map classSummary (classes metadata)
         else [])
     ++ (if 0 <? length (functions metadata)
         then (lit "- **函数定义**: " ++ ofNat (length (functions metadata))
                 ++ lit " 个")
              :: map functionSummary (functions metadata)
         else [])
     ++ (if 0 <? length (interfaces metadata)
         then (lit "- **接口定义**: " ++ ofNat (length (interfaces metadata))
                 ++ lit " 个")
              :: map (fun iface => lit "  - `" ++ iface_name iface ++ lit "`")
                     (interfaces metadata)
         else [])
     ++ (if 0 <? length (imports metadata)
         then [lit "- **模块导入**: " ++ ofNat (length (imports metadata))
                 ++ lit " 个"]
         else [])).

(** The section of the user prompt that carries the code-structure
    summary. *)
Definition structureSection (metadata : option CodeMetadata)
  : list jsstring :=
  match metadata with
  | Some md => [lit "## 代码结构分析"; generateMetadataSummary md; []]
  | None => []
  end.

Definition generateUserPrompt (docType : DocumentType) (inputType : InputType)
    (content : jsstring) (metadata : option CodeMetadata)
    (additionalContext : option jsstring) : jsstring :=
  join [LF]
    ([getTaskDescription docType; []]
     ++ match inputType with
        | InputCode =>
            [lit "## 代码内容";
             lit "```" ++ match metadata with
                          | Some md => language md
                          | None => []
                          end;
             content;
             lit "```";
             []]
            ++ structureSection metadata
        | InputText => [lit "## 需求描述"; content; []]
        end
     ++ (if truthyOpt additionalContext
         then [lit "## 补充说明"; must additionalContext; []]
         else [])
     ++ [lit "## 输出要求"; getOutputRequirements docType]).

End Templates.

(* ================================================================= *)
(** * The prompt assembler (prompts/builder.ts) *)

Record GenerateRequest : Type := {
  req_type : InputType;
  req_docType : DocumentType;
  req_content : jsstring;
  req_fileName : option jsstring;
  req_language : option jsstring;
  req_additionalContext : option jsstring
}.

Record BuiltPrompt : Type := {
  systemPrompt : jsstring;
  userPrompt : jsstring;
  metadata : option CodeMetadata
}.

Module PromptBuilder.

(** The configuration of a builder after its constructor has merged the
    defaults: [maxCodeLength] is a number of code units. *)
Record PromptBuilderConfig : Type := {
  includeCodeSummary : bool;
  maxCodeLength : Z;
  config_language : option jsstring
}.

(** [new PromptBuilder()] *)
Definition defaultConfig : PromptBuilderConfig :=
  {| includeCodeSummary := true;
     maxCodeLength := 50000;
     config_language := None |}.

(** The marker appended to truncated code: two line feeds and a comment
    line. *)
Definition truncationMarker : jsstring :=
  [LF; LF] ++ lit "// ... 代码过长，已截断 ...".

Definition truncateCode (config : PromptBuilderConfig) (code : jsstring)
  : jsstring :=
  if (Z.of_nat (length code) <=? maxCodeLength config)%Z then code
  else
    let truncated := slice code 0 (maxCodeLength config) in
    let lastNewline := lastIndexOf truncated LF in
    (if (0 <? lastNewline)%Z then slice truncated 0 lastNewline
     else truncated) ++ truncationMarker.

Section WithBabel.

Variable parse : jsstring -> bool -> exn + JsParser.File.

Definition buildFromRequest (config : PromptBuilderConfig)
    (request : GenerateRequest) : outcome BuiltPrompt :=
  let content := req_content request in
  metadata_ <-
    match req_type request, req_fileName request with
    | InputCode, Some (c :: fileName') =>
        let truncatedCode := truncateCode config content in
        md <- CodeParser.parseCode parse truncatedCode (c :: fileName')
                (req_language request) ;;
        Ret (Some md)
    | _, _ => Ret None
    end ;;
  Ret {| systemPrompt := Templates.SYSTEM_PROMPTS (req_docType request);
         userPrompt :=
           Templates.generateUserPrompt (req_docType request)
             (req_type request)
             (match req_type request with
              | InputCode => truncateCode config content
              | InputText => content
              end)
             metadata_ (req_additionalContext request);
         metadata := metadata_ |}.

Definition buildFromCode (config : PromptBuilderConfig)
    (code fileName : jsstring) (docType : DocumentType)
    (additionalContext : option jsstring) : outcome BuiltPrompt :=
  buildFromRequest config
    {| req_type := InputCode; req_docType := docType; req_content := code;
       req_fileName := Some fileName; req_language := None;
       req_additionalContext := additionalContext |}.

Definition buildFromText (config : PromptBuilderConfig)
    (text : jsstring) (docType : DocumentType)
    (additionalContext : option jsstring) : outcome BuiltPrompt :=
  buildFromRequest config
    {| req_type := InputText; req_docType := docType; req_content := text;
       req_fileName := None; req_language := None;
       req_additionalContext := additionalContext |}.

(** [getCodeSummary]: the summary of the code as it is, analyzed in the
    language of the configuration. *)
Definition getCodeSummary (config : PromptBuilderConfig)
    (code fileName : jsstring) : outcome jsstring :=
  metadata_ <- CodeParser.parseCode parse code fileName
                 (config_language config) ;;
  Ret (CodeParser.generateCodeSummary metadata_).

End WithBabel.

End PromptBuilder.

(* ================================================================= *)
(** * JavaScript values read from JSON *)

Module Value.

(** What [JSON.parse] returns.  The numbers the adapters test, subtract or
    print are status codes, token counts and lifetimes: the documents of
    the model hold integers.  The arithmetic on them is that of doubles
    (module [Double] below). *)
Unset Elimination Schemes.

Inductive Json : Type :=
| JNull
| JBool (b : bool)
| JNum (n : Z)
| JStr (s : jsstring)
| JArr (items : list Json)
| JObj (fields : list (jsstring * Json)).

Set Elimination Schemes.

(** A value: [None] is [undefined]. *)
Definition value := option Json.

Definition truthyV (v : value) : bool :=
  match v with
  | None | Some JNull => false
  | Some (JBool b) => b
  | Some (JNum n) => negb (n =? 0)%Z
  | Some (JStr s) => truthy s
  | Some (JArr _) | Some (JObj _) => true
  end.

Fixpoint field (k : jsstring) (fields : list (jsstring * Json)) : value :=
  match fields with
  | [] => None
  | (k', v) :: t => if eqb k k' then Some v else field k t
  end.

(** [v.k] for a value that is neither [null] nor [undefined], and a name
    [k] that no prototype defines: an own field of an object, nothing on
    anything else. *)
Definition prop (v : Json) (k : jsstring) : value :=
  match v with
  | JObj fs => field k fs
  | _ => None
  end.

(** [v[0]] *)
Definition first (v : Json) : value :=
  match v with
  | JArr (x :: _) => Some x
  | JStr (c :: _) => Some (JStr [c])
  | JObj fs => field (lit "0") fs
  | _ => None
  end.

(** [v.length] *)
Definition lengthOf (v : Json) : value :=
  match v with
  | JArr l => Some (JNum (Z.of_nat (length l)))
  | JStr s => Some (JNum (Z.of_nat (length s)))
  | JObj fs => field (lit "length") fs
  | _ => None
  end.

(** [v?.k] and [v?.[0]] *)
Definition optProp (v : value) (k : jsstring) : value :=
  match v with
  | None | Some JNull => None
  | Some j => prop j k
  end.

Definition optFirst (v : value) : value :=
  match v with
  | None | Some JNull => None
  | Some j => first j
  end.

(** [a || b] *)
Definition orV (a b : value) : value := if truthyV a then a else b.

(** A property of a value that is not [undefined]. *)
Definition optBind (v : value) (f : Json -> value) : value :=
  match v with
  | Some j => f j
  | None => None
  end.

Definition ofInt (n : Z) : jsstring :=
  if (n <? 0)%Z then lit "-" ++ ofNat (Z.to_nat (- n)) else ofNat (Z.to_nat n).

(** [String(v)], the conversion of template literals and of [+=] on a
    string. *)
Fixpoint toStringJ (j : Json) : jsstring :=
  match j with
  | JNull => lit "null"
  | JBool true => lit "true"
  | JBool false => lit "false"
  | JNum n => ofInt n
  | JStr s => s
  | JArr l =>
      join (lit ",")
           (map (fun x => match x with JNull => [] | _ => toStringJ x end) l)
  | JObj _ => lit "[object Object]"
  end.

Definition toString (v : value) : jsstring :=
  match v with
  | None => lit "undefined"
  | Some j => toStringJ j
  end.

(** The [TypeError] of calling what is not a function; its text is
    engine-defined and never inspected by the sources. *)
Definition notAFunction : exn := TypeError (lit "not a function").

(** What the sources take from the JavaScript engine: the JSON parser with
    the [SyntaxError] it throws, the [TypeError] of reading a property of
    [null] or [undefined], and the conversion of a string to a number
    ([None] for [NaN]). *)
Record Engine : Type := {
  JSON_parse : jsstring -> exn + Json;
  nullAccess : jsstring -> exn;
  StringToNumber : jsstring -> option Z
}.

Section WithEngine.

Variable E : Engine.

(** [v.k]: throws on [null] and [undefined]. *)
Definition get (v : value) (k : jsstring) : outcome value :=
  match v with
  | None | Some JNull => Throw (nullAccess E k)
  | Some j => Ret (prop j k)
  end.

(** [v[0]]: throws on [null] and [undefined]. *)
Definition getFirst (v : value) : outcome value :=
  match v with
  | None | Some JNull => Throw (nullAccess E (lit "0"))
  | Some j => Ret (first j)
  end.

(** [v.includes(s)] for a string [s]: strings and arrays have the method
    (an array includes [s] when one of its elements is that string);
    calling it on anything else throws. *)
Definition includesV (v : value) (s : jsstring) : outcome bool :=
  match v with
  | Some (JStr x) => Ret (includes x s)
  | Some (JArr l) =>
      Ret (existsb (fun j => match j with
                             | JStr y => eqb y s
                             | _ => false
                             end) l)
  | None | Some JNull => Throw (nullAccess E (lit "includes"))
  | Some _ => Throw notAFunction
  end.

(** [Number(v)] *)
Definition toNumber (v : value) : option Z :=
  match v with
  | None => None
  | Some JNull => Some 0%Z
  | Some (JBool b) => Some (if b then 1 else 0)%Z
  | Some (JNum n) => Some n
  | Some (JStr s) => StringToNumber E s
  | Some (JArr l) => StringToNumber E (toStringJ (JArr l))
  | Some (JObj _) => None
  end.

(** [v > 0] *)
Definition positive (v : value) : bool :=
  match toNumber v with
  | Some n => (0 <? n)%Z
  | None => false
  end.

End WithEngine.

End Value.

Import Value.

(* ================================================================= *)
(** * Numbers *)

Module Double.

(** JavaScript numbers are IEEE 754 binary64 values, and the arithmetic of
    the sources is theirs: the exact result, rounded to the nearest double,
    ties to the even significand, and to an infinity from [2 ^ 1024] on.
    The numbers of the modelled documents and the readings of the clock are
    integers, and a sum, difference or product of integer-valued doubles is
    integer-valued, infinite or [NaN]; these are the values kept.  The sign
    of zero, which no comparison sees, is not. *)
Inductive number : Type :=
| Fin (z : Z)
| PosInf
| NegInf
| NaN.

(** The double nearest to a non-negative integer: integers of at most 53
    bits are doubles; of a longer one the leading 53 bits are kept and
    rounded by what is cut off, half-way cases to the even side. *)
Definition nearest (a : Z) : Z :=
  let s := (Z.log2 a - 52)%Z in
  if (s <=? 0)%Z then a
  else
    let q := Z.shiftr a s in
    let r := Z.land a (Z.ones s) in
    let half := Z.shiftl 1 (s - 1) in
    let up := (half <? r)%Z || ((r =? half)%Z && Z.odd q) in
    Z.shiftl (if up then q + 1 else q)%Z s.

(** The double that an integer denotes: what [JSON.parse] makes of an
    integer literal, and what an exact integer result is rounded to. *)
Definition round (z : Z) : number :=
  let a := nearest (Z.abs z) in
  if (2 ^ 1024 <=? a)%Z then (if (z <? 0)%Z then NegInf else PosInf)
  else Fin (Z.sgn z * a).

Definition opp (x : number) : number :=
  match x with
  | Fin a => Fin (- a)
  | PosInf => NegInf
  | NegInf => PosInf
  | NaN => NaN
  end.

(** [x + y] *)
Definition add (x y : number) : number :=
  match x, y with
  | NaN, _ | _, NaN => NaN
  | PosInf, NegInf | NegInf, PosInf => NaN
  | PosInf, _ | _, PosInf => PosInf
  | NegInf, _ | _, NegInf => NegInf
  | Fin a, Fin b => round (a + b)
  end.

(** [x - y] *)
Definition sub (x y : number) : number := add x (opp y).

(** The infinity of the sign of [x * y], one of them being infinite. *)
Definition negative (x : number) : bool :=
  match x with
  | Fin a => (a <? 0)%Z
  | NegInf => true
  | PosInf | NaN => false
  end.

Definition isZero (x : number) : bool :=
  match x with
  | Fin a => (a =? 0)%Z
  | _ => false
  end.

(** [x * y] *)
Definition mul (x y : number) : number :=
  match x, y with
  | NaN, _ | _, NaN => NaN
  | Fin a, Fin b => round (a * b)
  | _, _ =>
      if isZero x || isZero y then NaN
      else if xorb (negative x) (negative y) then NegInf else PosInf
  end.

(** [x < y] *)
Definition lt (x y : number) : bool :=
  match x, y with
  | NaN, _ | _, NaN => false
  | Fin a, Fin b => (a <? b)%Z
  | NegInf, NegInf => false
  | NegInf, _ => true
  | _, NegInf => false
  | PosInf, _ => false
  | Fin _, PosInf => true
  end.

(** The number of a conversion that yields an integer or [NaN]. *)
Definition ofOption (o : option Z) : number :=
  match o with
  | Some n => round n
  | None => NaN
  end.

End Double.

(* ================================================================= *)
(** * Effects: network, clock and callbacks *)

Module IO.

Record Message : Type := {
  role : jsstring;
  message_content : jsstring
}.

(** What an adapter sends: a [fetch] call, the opening of a WebSocket, a
    message on it.  The sampling parameters of the request bodies
    (temperature, top_p, max_tokens) are the same constants in every call
    and are left out, and so are the signed query parameters of the
    WebSocket URL. *)
Inductive Request : Type :=
| ChatRequest (url : jsstring) (bearer : option jsstring)
    (model : option jsstring) (messages : list Message)
    (system : option jsstring) (stream : bool)
| TokenRequest (client_id client_secret : jsstring)
| SocketConnect (url : jsstring)
| SocketSend (app_id domain : jsstring) (messages : list Message).

(** The body of a streamed response: the texts that the decoder yields for
    the successive reads, and the error that ends the stream when a read
    fails. *)
Record BodyStream : Type := {
  reads : list jsstring;
  failure : option exn
}.

Record Response : Type := {
  ok : bool;
  status : nat;
  bodyText : jsstring;
  body : option BodyStream
}.

(** The environment of a run: what each request is answered with, given
    the requests made before it, and what the successive readings of the
    clock ([Date.now()], in milliseconds) are. *)
Record Env : Type := {
  net : list Request -> Request -> exn + Response;
  clock : nat -> Z
}.

(** The mutable fields of a Backend B adapter instance: [accessToken]
    ([null] at first) and [tokenExpiry] (a number, 0 at first). *)
Record TokenCache : Type := {
  accessToken : value;
  tokenExpiry : Double.number
}.

(** What a run leaves behind: the requests made, the number of clock
    readings, the arguments of the calls of [onChunk], and the fields of
    the adapter instance. *)
Record World : Type := {
  requests : list Request;
  clockReads : nat;
  emitted : list value;
  cache : TokenCache
}.

Definition world0 : World :=
  {| requests := []; clockReads := 0; emitted := [];
     cache := {| accessToken := Some JNull;
                 tokenExpiry := Double.Fin 0 |} |}.

Definition IO (A : Type) : Type := World -> World * outcome A.

Definition ret {A} (a : A) : IO A := fun w => (w, Ret a).

Definition throw {A} (e : exn) : IO A := fun w => (w, Throw e).

Definition hang {A} : IO A := fun w => (w, Diverge).

Definition bindIO {A B} (m : IO A) (f : A -> IO B) : IO B :=
  fun w =>
    match m w with
    | (w', Ret a) => f a w'
    | (w', Throw e) => (w', Throw e)
    | (w', Diverge) => (w', Diverge)
    end.

(** [try { m } catch (e) { h e }] *)
Definition tryCatch {A} (m : IO A) (h : exn -> IO A) : IO A :=
  fun w =>
    match m w with
    | (w', Throw e) => h e w'
    | r => r
    end.

Definition lift {A} (o : outcome A) : IO A := fun w => (w, o).

Notation "x <~ m ;; k" := (bindIO m (fun x => k))
  (at level 61, m at next level, right associativity).

Notation "m ;;; k" := (bindIO m (fun _ => k))
  (at level 61, right associativity).

Fixpoint foldIO {A S} (f : S -> A -> IO S) (l : list A) (s : S) : IO S :=
  match l with
  | [] => ret s
  | a :: t => s' <~ f s a ;; foldIO f t s'
  end.

Section WithEnv.

Variable env : Env.

(** [await fetch(...)] *)
Definition fetch (r : Request) : IO Response :=
  fun w =>
    let w' := {| requests := requests w ++ [r];
                 clockReads := clockReads w;
                 emitted := emitted w;
                 cache := cache w |} in
    match net env (requests w) r with
    | inl e => (w', Throw e)
    | inr resp => (w', Ret resp)
    end.

(** Any other outgoing traffic. *)
Definition send (r : Request) : IO unit :=
  fun w =>
    ({| requests := requests w ++ [r];
        clockReads := clockReads w;
        emitted := emitted w;
        cache := cache w |},
     Ret tt).

(** [Date.now()] *)
Definition now : IO Z :=
  fun w =>
    ({| requests := requests w;
        clockReads := S (clockReads w);
        emitted := emitted w;
        cache := cache w |},
     Ret (clock env (clockReads w))).

End WithEnv.

(** [onChunk?.(chunk)]: the call is recorded when a callback was passed. *)
Definition callOnChunk (onChunk : bool) (chunk : value) : IO unit :=
  fun w =>
    (if onChunk
     then {| requests := requests w;
             clockReads := clockReads w;
             emitted := emitted w ++ [chunk];
             cache := cache w |}
     else w,
     Ret tt).

(** Running [m] with a callback of the caller's own making: the chunks
    that [m] passes are handed to the caller and stay out of the record of
    the callback of the call around it. *)
Definition collecting {A} (m : IO A) : IO (A * list value) :=
  fun w =>
    let (w', o) := m {| requests := requests w;
                        clockReads := clockReads w;
                        emitted := [];
                        cache := cache w |} in
    ({| requests := requests w';
        clockReads := clockReads w';
        emitted := emitted w;
        cache := cache w' |},
     match o with
     | Ret a => Ret (a, emitted w')
     | Throw e => Throw e
     | Diverge => Diverge
     end).

(** Reading and assigning the fields of the adapter instance. *)
Definition readCache : IO TokenCache := fun w => (w, Ret (cache w)).

Definition writeCache (c : TokenCache) : IO unit :=
  fun w =>
    ({| requests := requests w;
        clockReads := clockReads w;
        emitted := emitted w;
        cache := c |},
     Ret tt).

(** [chunk.split('\n').filter(line => line.trim())] *)
Definition nonBlankLines (chunk : jsstring) : list jsstring :=
  filter (fun l => truthy (trim l)) (split chunk LF).

End IO.

Import IO.

(* ================================================================= *)
(** * Results of the adapters *)

Record Usage : Type := {
  promptTokens : value;
  completionTokens : value;
  totalTokens : value
}.

Record LLMResponse : Type := {
  response_content : value;
  usage : option Usage
}.

Record LLMConfig : Type := {
  provider : jsstring;
  apiKey : jsstring;
  model : option jsstring;
  secretKey : option jsstring;
  appId : option jsstring;
  apiSecret : option jsstring
}.

(* ================================================================= *)
(** * Backend A: static bearer key, HTTP and SSE (llm/zhipu-glm.ts) *)

(** The local variables of a streaming call. *)
Record StreamState : Type := {
  fullContent : jsstring;
  streamUsage : option Usage
}.

Definition streamStart : StreamState :=
  {| fullContent := []; streamUsage := None |}.

Definition DATA_PREFIX : jsstring := lit "data: ".
Definition DONE : jsstring := lit "[DONE]".

(** [messages]: an optional system message, then the user message. *)
Definition chatMessages (prompt : jsstring) (systemPrompt : option jsstring)
  : list Message :=
  (if truthyOpt systemPrompt
   then [{| role := lit "system"; message_content := must systemPrompt |}]
   else [])
  ++ [{| role := lit "user"; message_content := prompt |}].

(** [fullContent += content; onChunk?.(content)] *)
Definition deliver (onChunk : bool) (st : StreamState) (chunk : value)
  : IO StreamState :=
  callOnChunk onChunk chunk ;;;
  ret {| fullContent := fullContent st ++ toString chunk;
         streamUsage := streamUsage st |}.

Definition setUsage (st : StreamState) (u : Usage) : StreamState :=
  {| fullContent := fullContent st; streamUsage := Some u |}.

(** The read loop shared by the SSE backends: every read is split into its
    non-blank lines, every line goes through [onLine]; a failing read ends
    the call with its error. *)
Definition readLoop (onLine : StreamState -> jsstring -> IO StreamState)
    (stream : BodyStream) : IO LLMResponse :=
  st <~ foldIO (fun st chunk => foldIO onLine (nonBlankLines chunk) st)
         (reads stream) streamStart ;;
  match failure stream with
  | Some e => throw e
  | None =>
      ret {| response_content := Some (JStr (fullContent st));
             usage := streamUsage st |}
  end.

Module ZhipuGLM.

Section Adapter.

Variable E : Engine.
Variable env : Env.
Variable config : LLMConfig.

Definition baseUrl : jsstring := lit "https://open.bigmodel.cn/api/paas/v4".

Definition usageOf (u : value) : Usage :=
  {| promptTokens := optProp u (lit "prompt_tokens");
     completionTokens := optProp u (lit "completion_tokens");
     totalTokens := optProp u (lit "total_tokens") |}.

Definition callFailed (response : Response) : exn :=
  Error (lit "智谱API调用失败: " ++ ofNat (status response)
           ++ lit " - " ++ bodyText response).

Definition chatRequest (prompt : jsstring) (systemPrompt : option jsstring)
    (stream : bool) : Request :=
  ChatRequest (baseUrl ++ lit "/chat/completions") (Some (apiKey config))
    (Some (must (orStr (model config) (Some (lit "glm-4-flash")))))
    (chatMessages prompt systemPrompt) None stream.

(** [generateDoc]: one request; the answer is read as JSON. *)
Definition generateDoc (prompt : jsstring) (systemPrompt : option jsstring)
  : IO LLMResponse :=
  response <~ fetch env (chatRequest prompt systemPrompt false) ;;
  if negb (ok response) then throw (callFailed response)
  else
    data <~ lift (match JSON_parse E (bodyText response) with
                  | inl e => Throw e
                  | inr j => Ret (Some j)
                  end) ;;
    choices <~ lift (get E data (lit "choices")) ;;
    choice <~ lift (getFirst E choices) ;;
    let u := optProp data (lit "usage") in
    ret {| response_content :=
             orV (optProp (optProp choice (lit "message")) (lit "content"))
                 (Some (JStr []));
           usage := if truthyV u then Some (usageOf u) else None |}.

(** The body of the [try] for one frame.  What can throw in it, the parser
    and the first property read, does so before [fullContent] or [usage]
    is assigned; after the first read [parsed] is known not to be [null]. *)
Definition frame (onChunk : bool) (st : StreamState) (data : jsstring)
  : IO StreamState :=
  parsed <~ lift (match JSON_parse E data with
                  | inl e => Throw e
                  | inr j => Ret (Some j)
                  end) ;;
  choices <~ lift (get E parsed (lit "choices")) ;;
  let content :=
    orV (optProp (optProp (optFirst choices) (lit "delta")) (lit "content"))
        (Some (JStr [])) in
  st1 <~ (if truthyV content then deliver onChunk st content else ret st) ;;
  let u := optProp parsed (lit "usage") in
  ret (if truthyV u then setUsage st1 (usageOf u) else st1).

(** The body of [for (const line of lines)]. *)
Definition onLine (onChunk : bool) (st : StreamState) (l : jsstring)
  : IO StreamState :=
  if startsWith l DATA_PREFIX then
    let data := sliceFrom l 6 in
    if eqb data DONE then ret st
    else tryCatch (frame onChunk st data) (fun _ => ret st)
  else ret st.

Definition generateDocStream (prompt : jsstring)
    (systemPrompt : option jsstring) (onChunk : bool) : IO LLMResponse :=
  let model_ := must (orStr (model config) (Some (lit "glm-4-flash"))) in
  response <~ fetch env
    (ChatRequest (baseUrl ++ lit "/chat/completions") (Some (apiKey config))
       (Some model_) (chatMessages prompt systemPrompt) None true) ;;
  if negb (ok response) then
    throw (Error (lit "智谱API调用失败: " ++ ofNat (status response)
                    ++ lit " - " ++ bodyText response))
  else
    match body response with
    | None => throw (Error (lit "无法获取响应流"))
    | Some stream => readLoop (onLine onChunk) stream
    end.

End Adapter.

End ZhipuGLM.

(* ================================================================= *)
(** * Backend B: the ERNIE adapters *)

(** The text by which the adapters recognise their own errors in the
    [catch] of the streaming loop. *)
Definition ERNIE_API_ERROR : jsstring := lit "文心一言API错误".

(** [catch (e) { if (e instanceof Error && e.message.includes(...)) throw e }]:
    every exception of the model is an [Error]. *)
Definition rethrowOwn (st : StreamState) (e : exn) : IO StreamState :=
  if includes (exn_message e) ERNIE_API_ERROR then throw e else ret st.

Definition parseJson (E : Engine) (s : jsstring) : outcome value :=
  match JSON_parse E s with
  | inl e => Throw e
  | inr j => Ret (Some j)
  end.

(** ** The OAuth2 variant: an access token obtained by a credential
    exchange and cached on the instance. *)

Module ErnieOAuth.

Section Adapter.

Variable E : Engine.
Variable env : Env.
Variable config : LLMConfig.

Definition baseUrl : jsstring :=
  lit "https://aip.baidubce.com/rpc/2.0/ai_custom/v1/wenxinworkshop/chat".

Definition COLON : codeunit := 58%N.

Definition keyFormatError : exn :=
  Error (lit "文心一言需要 API Key 和 Secret Key，格式为 " ++ [QUOTE]
           ++ lit "apiKey:secretKey" ++ [QUOTE]).

(** [Date.now() + (data.expires_in - 300) * 1000], in the arithmetic of
    doubles: [expires_in] is converted to a number, and each of the three
    operations rounds. *)
Definition expiryOf (t : Z) (expires_in : value) : Double.number :=
  Double.add (Double.round t)
    (Double.mul
       (Double.sub (Double.ofOption (toNumber E expires_in))
                   (Double.Fin 300))
       (Double.Fin 1000)).

(** [Date.now() < this.tokenExpiry] *)
Definition before (t : Z) (expiry : Double.number) : bool :=
  Double.lt (Double.round t) expiry.

Definition getAccessToken : IO value :=
  c <~ readCache ;;
  valid <~ (if truthyV (accessToken c)
            then t <~ now env ;; ret (before t (tokenExpiry c))
            else ret false) ;;
  if valid then ret (accessToken c)
  else
    let parts := split (apiKey config) COLON in
    let apiKey_ := nth_error parts 0 in
    let secretKey_ := nth_error parts 1 in
    if negb (truthyOpt apiKey_) || negb (truthyOpt secretKey_)
    then throw keyFormatError
    else
      response <~ fetch env (TokenRequest (must apiKey_) (must secretKey_)) ;;
      if negb (ok response)
      then throw (Error (lit "获取文心一言访问令牌失败"))
      else
        data <~ lift (parseJson E (bodyText response)) ;;
        token <~ lift (get E data (lit "access_token")) ;;
        writeCache {| accessToken := token; tokenExpiry := tokenExpiry c |} ;;;
        t <~ now env ;;
        expires_in <~ lift (get E data (lit "expires_in")) ;;
        writeCache {| accessToken := token;
                      tokenExpiry := expiryOf t expires_in |} ;;;
        ret token.

Definition modelEndpoints : list (jsstring * jsstring) :=
  [(lit "ernie-4.0-8k", lit "completions_pro");
   (lit "ernie-4.0-turbo-8k", lit "ernie-4.0-turbo-8k");
   (lit "ernie-3.5-8k", lit "completions");
   (lit "ernie-speed-8k", lit "ernie_speed");
   (lit "ernie-lite-8k", lit "ernie-lite-8k")].

(** The lookup of a model name that no prototype defines. *)
Definition getModelEndpoint : jsstring :=
  let model_ := must (orStr (model config) (Some (lit "ernie-4.0-8k"))) in
  must (orStr (CodeParser.assoc model_ modelEndpoints)
              (Some (lit "completions_pro"))).

Definition chatRequest (token : value) (prompt : jsstring)
    (systemPrompt : option jsstring) (stream : bool) : Request :=
  ChatRequest (baseUrl ++ lit "/" ++ getModelEndpoint
                 ++ lit "?access_token=" ++ toString token)
    None None [{| role := lit "user"; message_content := prompt |}]
    systemPrompt stream.

Definition callFailed (response : Response) : exn :=
  Error (lit "文心一言API调用失败: " ++ ofNat (status response)
           ++ lit " - " ++ bodyText response).

Definition apiError (error_code error_msg : value) : exn :=
  Error (ERNIE_API_ERROR ++ lit ": " ++ toString error_code ++ lit " - "
           ++ toString error_msg).

Definition usageOf (u : value) : Usage :=
  {| promptTokens := optProp u (lit "prompt_tokens");
     completionTokens := optProp u (lit "completion_tokens");
     totalTokens := optProp u (lit "total_tokens") |}.

Definition generateDoc (prompt : jsstring) (systemPrompt : option jsstring)
  : IO LLMResponse :=
  token <~ getAccessToken ;;
  response <~ fetch env (chatRequest token prompt systemPrompt false) ;;
  if negb (ok response) then throw (callFailed response)
  else
    data <~ lift (parseJson E (bodyText response)) ;;
    error_code <~ lift (get E data (lit "error_code")) ;;
    if truthyV error_code
    then throw (apiError error_code (optProp data (lit "error_msg")))
    else
      let u := optProp data (lit "usage") in
      ret {| response_content :=
               orV (optProp data (lit "result")) (Some (JStr []));
             usage := if truthyV u then Some (usageOf u) else None |}.

(** The body of the [try] for one frame; it throws before it assigns. *)
Definition frame (onChunk : bool) (st : StreamState) (data : jsstring)
  : IO StreamState :=
  parsed <~ lift (parseJson E data) ;;
  error_code <~ lift (get E parsed (lit "error_code")) ;;
  if truthyV error_code
  then throw (apiError error_code (optProp parsed (lit "error_msg")))
  else
    let content := orV (optProp parsed (lit "result")) (Some (JStr [])) in
    st1 <~ (if truthyV content then deliver onChunk st content else ret st) ;;
    let u := optProp parsed (lit "usage") in
    ret (if truthyV (optProp parsed (lit "is_end")) && truthyV u
         then setUsage st1 (usageOf u) else st1).

Definition onLine (onChunk : bool) (st : StreamState) (l : jsstring)
  : IO StreamState :=
  if startsWith l DATA_PREFIX then
    tryCatch (frame onChunk st (sliceFrom l 6)) (rethrowOwn st)
  else ret st.

Definition generateDocStream (prompt : jsstring)
    (systemPrompt : option jsstring) (onChunk : bool) : IO LLMResponse :=
  token <~ getAccessToken ;;
  response <~ fetch env (chatRequest token prompt systemPrompt true) ;;
  if negb (ok response) then throw (callFailed response)
  else
    match body response with
    | None => throw (Error (lit "无法获取响应流"))
    | Some stream => readLoop (onLine onChunk) stream
    end.

End Adapter.

End ErnieOAuth.

(** ** The Qianfan variant (llm/ernie.ts): a bearer key, no exchange. *)

Module ErnieQianfan.

Section Adapter.

Variable E : Engine.
Variable env : Env.
Variable config : LLMConfig.

Definition baseUrl : jsstring :=
  lit "https://qianfan.baidubce.com/v2/chat/completions".

(** The constructor. *)
Definition construct : outcome LLMConfig :=
  if negb (truthy (apiKey config))
  then Throw (Error (lit "文心一言需要 API Key"))
  else Ret config.

Definition modelMap : list (jsstring * jsstring) :=
  [(lit "ernie-4.0-8k", lit "ernie-4.0-8k");
   (lit "ernie-4.0-turbo-8k", lit "ernie-4.0-turbo-8k");
   (lit "ernie-3.5-8k", lit "ernie-3.5-8k");
   (lit "ernie-speed-8k", lit "ernie-speed-8k");
   (lit "ernie-lite-8k", lit "ernie-lite-8k")].

(** The lookup of a model name that no prototype defines. *)
Definition getModelName : jsstring :=
  let model_ := must (orStr (model config) (Some (lit "ernie-3.5-8k"))) in
  must (orStr (CodeParser.assoc model_ modelMap) (Some (lit "ernie-3.5-8k"))).

Definition apiError (error : value) : exn :=
  Error (ERNIE_API_ERROR ++ lit ": "
           ++ toString (orV (optProp error (lit "code"))
                            (Some (JStr (lit "unknown"))))
           ++ lit " - "
           ++ toString (orV (optProp error (lit "message"))
                            (Some (JStr (lit "未知错误"))))).

Definition orZero (v : value) : value := orV v (Some (JNum 0)).

Definition usageOf (u : value) : Usage :=
  {| promptTokens := orZero (optProp u (lit "prompt_tokens"));
     completionTokens := orZero (optProp u (lit "completion_tokens"));
     totalTokens := orZero (optProp u (lit "total_tokens")) |}.

Definition callFailed (response : Response) : exn :=
  Error (lit "文心一言API调用失败: " ++ ofNat (status response)
           ++ lit " - " ++ bodyText response).

Definition chatRequest (prompt : jsstring) (systemPrompt : option jsstring)
    (stream : bool) : Request :=
  ChatRequest baseUrl (Some (apiKey config)) (Some getModelName)
    (chatMessages prompt systemPrompt) None stream.

(** [generateDoc]: one request; the answer is read as JSON. *)
Definition generateDoc (prompt : jsstring) (systemPrompt : option jsstring)
  : IO LLMResponse :=
  response <~ fetch env (chatRequest prompt systemPrompt false) ;;
  if negb (ok response) then throw (callFailed response)
  else
    data <~ lift (parseJson E (bodyText response)) ;;
    error <~ lift (get E data (lit "error")) ;;
    if truthyV error then throw (apiError error)
    else
      let u := optProp data (lit "usage") in
      ret {| response_content :=
               orV (optProp (optProp (optFirst (optProp data (lit "choices")))
                                     (lit "message")) (lit "content"))
                   (Some (JStr []));
             usage := if truthyV u then Some (usageOf u) else None |}.

(** The body of the [try] for one frame; it throws before it assigns. *)
Definition frame (onChunk : bool) (st : StreamState) (data : jsstring)
  : IO StreamState :=
  parsed <~ lift (parseJson E data) ;;
  error <~ lift (get E parsed (lit "error")) ;;
  if truthyV error then throw (apiError error)
  else
    let content :=
      orV (optProp (optProp (optFirst (optProp parsed (lit "choices")))
                            (lit "delta")) (lit "content"))
          (Some (JStr [])) in
    st1 <~ (if truthyV content then deliver onChunk st content else ret st) ;;
    let u := optProp parsed (lit "usage") in
    ret (if truthyV u then setUsage st1 (usageOf u) else st1).

Definition onLine (onChunk : bool) (st : StreamState) (l : jsstring)
  : IO StreamState :=
  if startsWith l DATA_PREFIX then
    let data := sliceFrom l 6 in
    if eqb data DONE then ret st
    else tryCatch (frame onChunk st data) (rethrowOwn st)
  else ret st.

Definition generateDocStream (prompt : jsstring)
    (systemPrompt : option jsstring) (onChunk : bool) : IO LLMResponse :=
  response <~ fetch env
    (ChatRequest baseUrl (Some (apiKey config)) (Some getModelName)
       (chatMessages prompt systemPrompt) None true) ;;
  if negb (ok response) then
    throw (Error (lit "文心一言API调用失败: " ++ ofNat (status response)
                    ++ lit " - " ++ bodyText response))
  else
    match body response with
    | None => throw (Error (lit "无法获取响应流"))
    | Some stream => readLoop (onLine onChunk) stream
    end.

End Adapter.

End ErnieQianfan.

(* ================================================================= *)
(** * Backend C: signed URL and WebSocket (llm/xfyun-spark.ts) *)

Module XfyunSpark.

(** The private fields that [parseConfig] sets. *)
Record Credentials : Type := {
  cred_appId : jsstring;
  cred_apiKey : jsstring;
  cred_apiSecret : jsstring
}.

Definition COLON : codeunit := 58%N.

Definition EXPECTED_FORMAT : jsstring := lit "APPID:APIKey:APISecret".

Definition formatError : exn :=
  Error (lit "讯飞星火 API Key 格式错误，正确格式: " ++ EXPECTED_FORMAT).

Definition missingError : exn :=
  Error (lit "讯飞星火需要 APPID、APIKey 和 APISecret，请提供分离字段或使用格式 "
           ++ [QUOTE] ++ EXPECTED_FORMAT ++ [QUOTE]).

Definition parseConfig (config : LLMConfig) : outcome Credentials :=
  if truthyOpt (appId config) && truthy (apiKey config)
     && truthyOpt (apiSecret config)
  then Ret {| cred_appId := must (appId config);
              cred_apiKey := apiKey config;
              cred_apiSecret := must (apiSecret config) |}
  else if truthy (apiKey config) && includes (apiKey config) [COLON] then
    let parts := split (apiKey config) COLON in
    if negb (length parts =? 3) then Throw formatError
    else Ret {| cred_appId := must (nth_error parts 0);
                cred_apiKey := must (nth_error parts 1);
                cred_apiSecret := must (nth_error parts 2) |}
  else Throw missingError.

(** [new XfyunSparkAdapter(config)]: the base constructor stores the
    configuration, [parseConfig] resolves the credentials. *)
Definition construct (config : LLMConfig) : IO (LLMConfig * Credentials) :=
  creds <~ lift (parseConfig config) ;;
  ret (config, creds).

(** What happens on the socket of one call, in order: the events that the
    handlers are registered for, and the firing of the 60-second timer. *)
Inductive SocketEvent : Type :=
| SocketOpen
| SocketMessage (data : jsstring)
| SocketError (message : jsstring)
| SocketClose
| TimerFires.

(** The socket of one call: whether the [ws] module loads (else the
    message of the failure), and its events. *)
Record Socket : Type := {
  moduleError : option jsstring;
  events : list SocketEvent
}.

Inductive ReadyState : Type := CONNECTING | OPEN | CLOSING | CLOSED.

Record SocketState : Type := {
  readyState : ReadyState;
  locals : StreamState
}.

(** What a handler does to the promise of the call. *)
Inductive Step : Type :=
| Continue (st : SocketState)
| Resolve (r : LLMResponse)
| Reject (e : exn).

Section Adapter.

Variable E : Engine.
Variable env : Env.
Variable config : LLMConfig.
Variable creds : Credentials.

Definition domainMap : list (jsstring * jsstring) :=
  [(lit "spark-lite", lit "lite");
   (lit "spark-pro", lit "generalv3");
   (lit "spark-max", lit "generalv3.5");
   (lit "spark-ultra", lit "max-32k")].

Definition urlMap : list (jsstring * jsstring) :=
  [(lit "spark-lite", lit "wss://spark-api.xf-yun.com/v1.1/chat");
   (lit "spark-pro", lit "wss://spark-api.xf-yun.com/v3.1/chat");
   (lit "spark-max", lit "wss://spark-api.xf-yun.com/v3.5/chat");
   (lit "spark-ultra", lit "wss://spark-api.xf-yun.com/v4.0/chat")].

Definition modelName : jsstring :=
  must (orStr (model config) (Some (lit "spark-lite"))).

(** The lookups of a model name that no prototype defines. *)
Definition getDomain : jsstring :=
  must (orStr (CodeParser.assoc modelName domainMap) (Some (lit "lite"))).

Definition getWsUrl : jsstring :=
  must (orStr (CodeParser.assoc modelName urlMap)
              (CodeParser.assoc (lit "spark-lite") urlMap)).

Definition orZero (v : value) : value := orV v (Some (JNum 0)).

Definition usageOf (u : value) : Usage :=
  {| promptTokens := orZero (optProp u (lit "prompt_tokens"));
     completionTokens := orZero (optProp u (lit "completion_tokens"));
     totalTokens := orZero (optProp u (lit "total_tokens")) |}.

(** [v !== 0] and [v === 2] *)
Definition isNot0 (v : value) : bool :=
  match v with Some (JNum 0) => false | _ => true end.

Definition is2 (v : value) : bool :=
  match v with Some (JNum 2) => true | _ => false end.

Definition withLocals (st : SocketState) (s : StreamState) : SocketState :=
  {| readyState := readyState st; locals := s |}.

(** The body of the [try] of the message handler; it throws before it
    assigns. *)
Definition message (onChunk : bool) (st : SocketState) (data : jsstring)
  : IO Step :=
  response <~ lift (parseJson E data) ;;
  header <~ lift (get E response (lit "header")) ;;
  code_ <~ lift (get E header (lit "code")) ;;
  if isNot0 code_ then
    ret (Reject (Error (lit "讯飞API错误: " ++ toString code_ ++ lit " - "
                          ++ toString (optProp header (lit "message")))))
  else
    let payload := optProp response (lit "payload") in
    let text := optProp (optProp payload (lit "choices")) (lit "text") in
    s1 <~ (if truthyV text && positive E (optBind text lengthOf) then
             c <~ lift (get E (optFirst text) (lit "content")) ;;
             deliver onChunk (locals st) (orV c (Some (JStr [])))
           else ret (locals st)) ;;
    let u := optProp (optProp payload (lit "usage")) (lit "text") in
    let s2 := if truthyV u then setUsage s1 (usageOf u) else s1 in
    if is2 (optProp header (lit "status")) then
      ret (Resolve {| response_content := Some (JStr (fullContent s2));
                      usage := streamUsage s2 |})
    else ret (Continue (withLocals st s2)).

Definition handle (onChunk : bool) (prompt : jsstring)
    (systemPrompt : option jsstring) (st : SocketState) (ev : SocketEvent)
  : IO Step :=
  match ev with
  | SocketOpen =>
      send (SocketSend (cred_appId creds) getDomain
              (chatMessages prompt systemPrompt)) ;;;
      ret (Continue {| readyState := OPEN; locals := locals st |})
  | SocketMessage data =>
      tryCatch (message onChunk st data) (fun _ => ret (Continue st))
  | SocketError msg =>
      ret (Reject (Error (lit "讯飞WebSocket错误: " ++ msg)))
  | SocketClose =>
      if negb (truthy (fullContent (locals st)))
      then ret (Reject (Error (lit "连接关闭但未收到响应")))
      else ret (Continue {| readyState := CLOSED; locals := locals st |})
  | TimerFires =>
      match readyState st with
      | OPEN => ret (Reject (Error (lit "请求超时")))
      | _ => ret (Continue st)
      end
  end.

(** The promise settles at the first handler that resolves or rejects it;
    it stays pending when the events end before. *)
Fixpoint run (onChunk : bool) (prompt : jsstring)
    (systemPrompt : option jsstring) (evs : list SocketEvent)
    (st : SocketState) : IO LLMResponse :=
  match evs with
  | [] => hang
  | ev :: rest =>
      step <~ handle onChunk prompt systemPrompt st ev ;;
      match step with
      | Continue st' => run onChunk prompt systemPrompt rest st'
      | Resolve r => ret r
      | Reject e => throw e
      end
  end.

Definition generateDocStream (socket : Socket) (prompt : jsstring)
    (systemPrompt : option jsstring) (onChunk : bool) : IO LLMResponse :=
  match moduleError socket with
  | Some msg => throw (Error (lit "无法加载WebSocket模块: " ++ msg))
  | None =>
      send (SocketConnect getWsUrl) ;;;
      run onChunk prompt systemPrompt (events socket)
        {| readyState := CONNECTING; locals := streamStart |}
  end.

(** [generateDoc] streams with a callback of its own that accumulates the
    chunks, and returns what it accumulated, without usage. *)
Definition generateDoc (socket : Socket) (prompt : jsstring)
    (systemPrompt : option jsstring) : IO LLMResponse :=
  r <~ collecting (generateDocStream socket prompt systemPrompt true) ;;
  ret {| response_content := Some (JStr (concat (map toString (snd r))));
         usage := None |}.

(** The greeting that the connection tests send. *)
Definition TEST_PROMPT : jsstring :=
  lit "你好，请回复" ++ [QUOTE] ++ lit "连接成功" ++ [QUOTE].

(** The adapter's own [testConnection]. *)
Definition testConnection (socket : Socket) : IO bool :=
  tryCatch
    (response <~ generateDoc socket TEST_PROMPT None ;;
     ret (positive E (optBind (response_content response) lengthOf)))
    (fun _ => ret false).

End Adapter.

End XfyunSpark.

(* ================================================================= *)
(** * The adapter interface and factory (llm/adapter.ts) *)

Module Adapter.

(** [BaseLLMAdapter.testConnection], inherited by Backends A and B: a
    greeting is sent through [generateDoc]; anything thrown means no
    connection. *)
Definition testConnection (E : Engine)
    (generateDoc : jsstring -> option jsstring -> IO LLMResponse) : IO bool :=
  tryCatch
    (response <~ generateDoc XfyunSpark.TEST_PROMPT None ;;
     hasWord <~ lift (includesV E (response_content response) (lit "成功")) ;;
     ret (hasWord
          || positive E (optBind (response_content response) lengthOf)))
    (fun _ => ret false).

(** The interface [LLMProvider]. *)
Record LLMProvider : Type := {
  name : jsstring;
  generateDoc : jsstring -> option jsstring -> IO LLMResponse;
  generateDocStream : jsstring -> option jsstring -> bool -> IO LLMResponse;
  provider_testConnection : IO bool
}.

Section Factory.

Variable E : Engine.
Variable env : Env.

(** What the WebSocket of a call does, given the traffic before it. *)
Variable socket : list Request -> XfyunSpark.Socket.

Definition zhipu (config : LLMConfig) : LLMProvider :=
  {| name := lit "智谱GLM";
     generateDoc := ZhipuGLM.generateDoc E env config;
     generateDocStream := ZhipuGLM.generateDocStream E env config;
     provider_testConnection :=
       testConnection E (ZhipuGLM.generateDoc E env config) |}.

Definition ernie (config : LLMConfig) : LLMProvider :=
  {| name := lit "文心一言";
     generateDoc := ErnieQianfan.generateDoc E env config;
     generateDocStream := ErnieQianfan.generateDocStream E env config;
     provider_testConnection :=
       testConnection E (ErnieQianfan.generateDoc E env config) |}.

Definition xfyun (config : LLMConfig) (creds : XfyunSpark.Credentials)
  : LLMProvider :=
  {| name := lit "讯飞星火";
     generateDoc := fun prompt systemPrompt w =>
       XfyunSpark.generateDoc E config creds (socket (requests w))
         prompt systemPrompt w;
     generateDocStream := fun prompt systemPrompt onChunk w =>
       XfyunSpark.generateDocStream E config creds (socket (requests w))
         prompt systemPrompt onChunk w;
     provider_testConnection := fun w =>
       XfyunSpark.testConnection E config creds (socket (requests w)) w |}.

Definition unsupportedProvider (config : LLMConfig) : exn :=
  Error (lit "不支持的 LLM 提供商: " ++ provider config).

(** [createLLMAdapter]: the constructor of the adapter that the provider
    names.  [./ernie] is the Qianfan adapter of llm/ernie.ts. *)
Definition createLLMAdapter (config : LLMConfig) : IO LLMProvider :=
  if eqb (provider config) (lit "zhipu") then ret (zhipu config)
  else if eqb (provider config) (lit "ernie") then
    lift (ErnieQianfan.construct config) ;;; ret (ernie config)
  else if eqb (provider config) (lit "xfyun") then
    r <~ XfyunSpark.construct config ;; ret (xfyun config (snd r))
  else throw (unsupportedProvider config).

End Factory.

End Adapter.

(* ================================================================= *)
(** * Default configurations from the environment (llm/config.ts) *)

Module LLMDefaults.

Section WithEnvironment.

(** [process.env]: the value of a variable, when it is set. *)
Variable processEnv : jsstring -> option jsstring.

Definition COLON : codeunit := 58%N.

Definition zhipuFromEnv : option LLMConfig :=
  let apiKey_ := processEnv (lit "ZHIPU_API_KEY") in
  if negb (truthyOpt apiKey_) then None
  else
    Some {| provider := lit "zhipu";
            apiKey := must apiKey_;
            model := orStr (processEnv (lit "ZHIPU_MODEL"))
                           (Some (lit "glm-4-flash"));
            secretKey := None; appId := None; apiSecret := None |}.

(** Of a key in the old format, two keys joined by a colon, the part
    before the first colon is kept. *)
Definition ernieFromEnv : option LLMConfig :=
  let apiKey_ := processEnv (lit "ERNIE_API_KEY") in
  if negb (truthyOpt apiKey_) then None
  else
    let cleanApiKey :=
      if includes (must apiKey_) [COLON]
      then must (nth_error (split (must apiKey_) COLON) 0)
      else must apiKey_ in
    Some {| provider := lit "ernie";
            apiKey := cleanApiKey;
            model := orStr (processEnv (lit "ERNIE_MODEL"))
                           (Some (lit "ernie-3.5-8k"));
            secretKey := None; appId := None; apiSecret := None |}.

Definition xfyunFromEnv : option LLMConfig :=
  let appId_ := processEnv (lit "XFYUN_APP_ID") in
  let apiKey_ := processEnv (lit "XFYUN_API_KEY") in
  let apiSecret_ := processEnv (lit "XFYUN_API_SECRET") in
  let model_ := orStr (processEnv (lit "XFYUN_MODEL"))
                      (Some (lit "spark-lite")) in
  if truthyOpt appId_ && truthyOpt apiKey_ && truthyOpt apiSecret_ then
    Some {| provider := lit "xfyun";
            apiKey := must apiKey_;
            model := model_;
            secretKey := None; appId := appId_; apiSecret := apiSecret_ |}
  else if truthyOpt apiKey_ && includes (must apiKey_) [COLON] then
    Some {| provider := lit "xfyun";
            apiKey := must apiKey_;
            model := model_;
            secretKey := None; appId := None; apiSecret := None |}
  else None.

(** [a || b] on configurations that may be [null]. *)
Definition orConfig (a b : option LLMConfig) : option LLMConfig :=
  match a with Some _ => a | None => b end.

(** [getDefaultLLMConfigFromEnv]: the configuration of the provider asked
    for; without one, the first that is configured of zhipu, ernie and
    xfyun. *)
Definition getDefaultLLMConfigFromEnv (provider_ : option jsstring)
  : option LLMConfig :=
  let asked p :=
    match provider_ with Some x => eqb x p | None => false end in
  if asked (lit "zhipu") then zhipuFromEnv
  else if asked (lit "ernie") then ernieFromEnv
  else if asked (lit "xfyun") then xfyunFromEnv
  else orConfig zhipuFromEnv (orConfig ernieFromEnv xfyunFromEnv).

End WithEnvironment.

End LLMDefaults.

(* ================================================================= *)
(** * The mock generator (doc-generator/index.ts) *)

Record GenerateResult : Type := {
  id : jsstring;
  docType : DocumentType;
  title : jsstring;
  result_content : value;
  result_metadata : option CodeMetadata;
  createdAt : jsstring;
  inputType : InputType
}.

Module MockDocGenerator.

Section Mock.

(** The table [contents] of [getMockContent]: one canned document per
    document type. *)
Variable getMockContent : DocumentType -> jsstring.

(** [uuid] and [date] are what [uuidv4()] and [new Date().toISOString()]
    yield when the result is built.  The 10 ms pauses between the chunks
    have no other effect. *)
Definition generateStream (request : GenerateRequest) (uuid date : jsstring)
  : IO GenerateResult :=
  let content := getMockContent (req_docType request) in
  let words := splitUnits content in
  foldIO (fun _ word => callOnChunk true (Some (JStr word))) words tt ;;;
  ret {| id := uuid;
         docType := req_docType request;
         title := lit "示例" ++ Templates.getDocTypeName (req_docType request);
         result_content := Some (JStr content);
         result_metadata := None;
         createdAt := date;
         inputType := req_type request |}.

End Mock.

End MockDocGenerator.

(* ================================================================= *)
(** * The document generator (doc-generator/index.ts) *)

Module DocGenerator.

Definition SLASH : codeunit := 47%N.

(** [/\.[^/.]+$/]: a dot and what follows it to the end, when that holds
    neither a slash nor a dot. *)
Definition extensionRegex : re :=
  seq [Chr CodeParser.DOT;
       plus (Cls (fun c => negb ((c =? SLASH) || (c =? CodeParser.DOT))%N));
       Eos].

(** [s.replace(r, '')] for an expression without the [g] flag: the first
    match is taken out. *)
Definition removeFirst (r : re) (s : jsstring) : jsstring :=
  match match_ s r with
  | Some m => firstn (index m) s ++ rest (after m)
  | None => s
  end.

(** [generateTitle]; [today] is what
    [new Date().toLocaleDateString('zh-CN')] yields. *)
Definition generateTitle (docType : DocumentType)
    (fileName : option jsstring) (today : jsstring) : jsstring :=
  let docTypeName := Templates.getDocTypeName docType in
  if truthyOpt fileName
  then removeFirst extensionRegex (must fileName) ++ lit " - " ++ docTypeName
  else docTypeName ++ lit " - " ++ today.

(** The fields of a generator. *)
Record Generator : Type := {
  llmAdapter : Adapter.LLMProvider;
  promptBuilder : PromptBuilder.PromptBuilderConfig
}.

Section WithBabel.

Variable parse : jsstring -> bool -> exn + JsParser.File.

(** The constructor: the adapter of the configuration, and the prompt
    builder given or a default one. *)
Definition construct (E : Engine) (env : Env)
    (socket : list Request -> XfyunSpark.Socket) (llmConfig : LLMConfig)
    (promptBuilder_ : option PromptBuilder.PromptBuilderConfig)
  : IO Generator :=
  adapter <~ Adapter.createLLMAdapter E env socket llmConfig ;;
  ret {| llmAdapter := adapter;
         promptBuilder := match promptBuilder_ with
                          | Some b => b
                          | None => PromptBuilder.defaultConfig
                          end |}.

(** The result built from the answer of the adapter; [uuid], [today] and
    [date] are what [uuidv4()], [toLocaleDateString] and [toISOString]
    yield when it is built. *)
Definition resultOf (request : GenerateRequest) (built : BuiltPrompt)
    (response : LLMResponse) (uuid today date : jsstring) : GenerateResult :=
  {| id := uuid;
     docType := req_docType request;
     title := generateTitle (req_docType request) (req_fileName request)
                today;
     result_content := response_content response;
     result_metadata := metadata built;
     createdAt := date;
     inputType := req_type request |}.

Definition generate (g : Generator) (request : GenerateRequest)
    (uuid today date : jsstring) : IO GenerateResult :=
  built <~ lift (PromptBuilder.buildFromRequest parse (promptBuilder g)
                   request) ;;
  response <~ Adapter.generateDoc (llmAdapter g) (userPrompt built)
                (Some (systemPrompt built)) ;;
  ret (resultOf request built response uuid today date).

Definition generateStream (g : Generator) (request : GenerateRequest)
    (onChunk : bool) (uuid today date : jsstring) : IO GenerateResult :=
  built <~ lift (PromptBuilder.buildFromRequest parse (promptBuilder g)
                   request) ;;
  response <~ Adapter.generateDocStream (llmAdapter g) (userPrompt built)
                (Some (systemPrompt built)) onChunk ;;
  ret (resultOf request built response uuid today date).

Definition testConnection (g : Generator) : IO bool :=
  Adapter.provider_testConnection (llmAdapter g).

(** [analyzeCode]: the metadata of the prompt built for an API document;
    [None] is the [undefined] that [metadata!] lets through. *)
Definition analyzeCode (g : Generator) (code fileName : jsstring)
  : outcome (option CodeMetadata) :=
  built <- PromptBuilder.buildFromCode parse (promptBuilder g) code fileName
             api None ;;
  Ret (metadata built).

End WithBabel.

End DocGenerator.

(* ================================================================= *)
(** * The vocabulary of the properties *)

(** What the theorems below are stated with: the notions of the
    specification, the invariants of the proofs, and the concrete inputs of
    the examples. *)

(** ** Text *)

(** The number of occurrences of a unit in a string. *)
Fixpoint count (c : codeunit) (s : jsstring) : nat :=
  match s with
  | [] => 0
  | x :: t => (if (x =? c)%N then 1 else 0) + count c t
  end.

(** The position reached by skipping the longest run of units that
    satisfy [p]. *)
Fixpoint skipWhile (p : codeunit -> bool) (pv : option codeunit)
    (s : jsstring) (i : nat) : cursor :=
  match s with
  | [] => Cursor pv [] i
  | x :: t => if p x then skipWhile p (Some x) t (S i) else Cursor pv s i
  end.

(** The notions of the specification: a blank line has only white space,
    the indent of a line is the length of its leading white space. *)
Definition blank (l : jsstring) : bool := forallb isSpace l.

Definition leadingWhitespace (l : jsstring) : nat :=
  length (takeWhile isSpace l).

(** ** Matches *)

(** The least number of units that a match of an expression consumes. *)
Fixpoint minLen (r : re) : nat :=
  match r with
  | Eps | Bos | Bol | Eol | Eos => 0
  | Chr _ | Cls _ => 1
  | Seq a b => minLen a + minLen b
  | Alt a b => Nat.min (minLen a) (minLen b)
  | Star _ _ => 0
  | Grp _ a => minLen a
  end.

(** The cursor [n] units further. *)
Fixpoint advance (n : nat) (c : cursor) : cursor :=
  match n, rest c with
  | S n', y :: t => advance n' (Cursor (Some y) t (S (pos c)))
  | _, _ => c
  end.

Definition reaches (c c' : cursor) : Prop :=
  exists n, n <= length (rest c) /\ c' = advance n c.

(** The continuation of a whole match. *)
Definition accept : K := fun c cs => Some (c, cs).

Definition suffixOf (t s : jsstring) : Prop := exists pre, s = pre ++ t.

(** A match of [r] somewhere in [code]. *)
Definition matchIn (r : re) (code : jsstring) (m : result) : Prop :=
  exists pv t,
    suffixOf t code
    /\ run r (Cursor pv t (index m)) [] accept = Some (after m, groups m).

(** Six double quotes in a row: an empty triple-double-quoted string. *)
Definition sixQuotes : jsstring := PythonParser.dq3 ++ PythonParser.dq3.

(** ** Metadata *)

(** Degraded metadata: every structural collection is empty. *)
Definition emptyCollections (md : CodeMetadata) : Prop :=
  classes md = [] /\ functions md = [] /\ interfaces md = []
  /\ imports md = [] /\ exports md = [] /\ comments md = [].

(** Every line-spanned entity of a metadata value starts no later than it
    ends. *)
Definition spansOrdered (md : CodeMetadata) : Prop :=
  Forall (fun c => class_startLine c <= class_endLine c) (classes md)
  /\ Forall (fun f => fn_startLine f <= fn_endLine f) (functions md)
  /\ Forall (fun i => iface_startLine i <= iface_endLine i) (interfaces md)
  /\ Forall (fun c => comment_startLine c <= comment_endLine c) (comments md).

(** The language that the entry point settles on: the one passed, else
    the one of the file extension. *)
Definition detectedLanguage (fileName : jsstring) (language : option jsstring)
  : option jsstring :=
  orStr language (CodeParser.getLanguageFromFileName fileName).

(** What the visitors leave alone. *)
Definition sameHeader (md md' : CodeMetadata) : Prop :=
  fileName md' = fileName md /\ language md' = language md
  /\ rawCode md' = rawCode md /\ comments md' = comments md.

(** What a traversal visits, by kind. *)
Definition visitedClasses (vs : list Babel.Visit)
  : list Babel.ClassDeclaration :=
  flat_map (fun v => match v with
                     | Babel.VisitClassDeclaration node _ => [node]
                     | _ => []
                     end) vs.

Definition visitedInterfaces (vs : list Babel.Visit)
  : list Babel.TSInterfaceDeclaration :=
  flat_map (fun v => match v with
                     | Babel.VisitTSInterfaceDeclaration node _ => [node]
                     | _ => []
                     end) vs.

Definition visitedImports (vs : list Babel.Visit)
  : list Babel.ImportDeclaration :=
  flat_map (fun v => match v with
                     | Babel.VisitImportDeclaration node => [node]
                     | _ => []
                     end) vs.

(** [ast.comments], converted. *)
Definition fileComments (ast : JsParser.File) : list CommentInfo :=
  match JsParser.ast_comments ast with
  | Some cs => map JsParser.commentInfo cs
  | None => []
  end.

Section Locations.

Import Babel JsParser.

(** Babel's locations: a node starts no later than it ends. *)
Definition locOrdered (loc : option SourceLocation) : Prop :=
  match loc with
  | Some l => loc_start_line l <= loc_end_line l
  | None => True
  end.

Definition initLocated (d : VariableDeclarator) : Prop :=
  match vd_init d with
  | Some (ArrowFunctionExpression f) | Some (FunctionExpression f) =>
      locOrdered (f_loc f)
  | _ => True
  end.

Definition visitLocated (v : Visit) : Prop :=
  match v with
  | VisitClassDeclaration node _ => locOrdered (cd_loc node)
  | VisitFunctionDeclaration node _ => locOrdered (f_loc node)
  | VisitVariableDeclaration declarations _ => Forall initLocated declarations
  | VisitTSInterfaceDeclaration node _ => locOrdered (id_loc node)
  | _ => True
  end.

Definition wellLocated (ast : File) : Prop :=
  match ast_comments ast with
  | Some cs => Forall (fun c => locOrdered (bc_loc c)) cs
  | None => True
  end
  /\ Forall visitLocated (traversal ast).

End Locations.

(** ** Sources and requests of the examples *)

(** The scenario of the specification: a class with a base and an
    initialiser that assigns one attribute. *)
Definition fooSource : jsstring :=
  lit "class Foo(Bar):" ++ [LF]
  ++ lit "    def __init__(self):" ++ [LF]
  ++ lit "        self.x = 1" ++ [LF].

(** A source that is nothing but an empty docstring: six double quotes. *)
Definition emptyDocstring : jsstring := PythonParser.dq3 ++ PythonParser.dq3.

(** A function whose docstring is empty. *)
Definition stubSource : jsstring :=
  lit "def f():" ++ [LF]
  ++ lit "    " ++ PythonParser.dq3 ++ PythonParser.dq3 ++ [LF]
  ++ lit "    return 1" ++ [LF].

(** A parser that recovers from nothing. *)
Definition noParser : jsstring -> bool -> exn + JsParser.File :=
  fun _ _ => inl (SyntaxError []).



(** ** Credentials *)

(** The key is a colon-joined triple: three parts without a colon, joined
    by two colons. *)
Definition joinedTriple (key a b c : jsstring) : Prop :=
  key = a ++ [XfyunSpark.COLON] ++ b ++ [XfyunSpark.COLON] ++ c
  /\ count XfyunSpark.COLON a = 0
  /\ count XfyunSpark.COLON b = 0
  /\ count XfyunSpark.COLON c = 0.

(** The credentials arrive as three separate fields. *)
Definition separateFields (config : LLMConfig) : Prop :=
  truthyOpt (appId config) = true /\ truthy (apiKey config) = true
  /\ truthyOpt (apiSecret config) = true.

(** ** Effects *)

(** A program keeps a relation between the world before and the world
    after. *)
Definition keeps {A} (R : World -> World -> Prop) (m : IO A) : Prop :=
  forall w, R w (fst (m w)).

(** Steps that call no callback. *)
Definition silent (w w' : World) : Prop := emitted w' = emitted w.




(** ** Streaming *)

(** Since the call started in [w0], the chunks passed to the callback
    spell out the accumulated content. *)
Definition synced (w0 w : World) (fullContent_ : jsstring) : Prop :=
  exists chunks,
    emitted w = emitted w0 ++ chunks
    /\ fullContent_ = concat (map toString chunks).

(** What one iteration of a read loop does when a callback is passed: it
    returns in sync, or it throws and has passed no chunk. *)
Definition stepsInSync (onLine : StreamState -> jsstring -> IO StreamState)
  : Prop :=
  forall w0 w st l,
    synced w0 w (fullContent st) ->
    match onLine st l w with
    | (w', Ret st') => synced w0 w' (fullContent st')
    | (w', _) => True
    end.

(** A frame handler returns in sync, or throws having passed no chunk. *)
Definition frameInSync (frame : StreamState -> jsstring -> IO StreamState)
  : Prop :=
  forall w0 w st data,
    synced w0 w (fullContent st) ->
    match frame st data w with
    | (w', Ret st') => synced w0 w' (fullContent st')
    | (w', Throw _) => w' = w
    | (w', Diverge) => True
    end.

(** The result of a call is the concatenation of the chunks it passed. *)
Definition contentIsChunks (m : IO LLMResponse) : Prop :=
  forall w w' r,
    m w = (w', Ret r) ->
    exists chunks,
      emitted w' = emitted w ++ chunks
      /\ response_content r = Some (JStr (concat (map toString chunks))).

(** What a handler leaves: a state in sync, a resolution with the content
    in sync, or a rejection. *)
Definition stepInSync (w0 w' : World) (step : XfyunSpark.Step) : Prop :=
  match step with
  | XfyunSpark.Continue st' =>
      synced w0 w' (fullContent (XfyunSpark.locals st'))
  | XfyunSpark.Resolve r =>
      exists chunks,
        emitted w' = emitted w0 ++ chunks
        /\ response_content r = Some (JStr (concat (map toString chunks)))
  | XfyunSpark.Reject _ => True
  end.

(** ** The token cache *)

(** A generation call of the OAuth2 adapter: either method, with any
    arguments. *)
Inductive generation (E : Engine) (env : Env) (config : LLMConfig)
  : IO LLMResponse -> Prop :=
| generation_doc prompt systemPrompt :
    generation E env config
      (ErnieOAuth.generateDoc E env config prompt systemPrompt)
| generation_stream prompt systemPrompt onChunk :
    generation E env config
      (ErnieOAuth.generateDocStream E env config prompt systemPrompt
         onChunk).

(** ** A concrete engine and concrete runs *)

(** [JSON.stringify] of a value without characters to escape. *)
Fixpoint stringify (j : Json) : jsstring :=
  match j with
  | JNull => lit "null"
  | JBool true => lit "true"
  | JBool false => lit "false"
  | JNum n => ofInt n
  | JStr s => [QUOTE] ++ s ++ [QUOTE]
  | JArr l => lit "[" ++ join (lit ",") (map stringify l) ++ lit "]"
  | JObj fs =>
      lit "{"
        ++ join (lit ",")
             (map (fun kv => [QUOTE] ++ fst kv ++ [QUOTE] ++ lit ":"
                             ++ stringify (snd kv)) fs)
        ++ lit "}"
  end.

(** The message of V8 (Node 20 and later) for a short text whose first
    unit cannot start a JSON value: it names that unit and quotes the
    text.  (For longer texts V8 quotes a part only, and for a text that
    ends too early or fails further on it has other messages.) *)
Definition notJsonMessage (s : jsstring) : jsstring :=
  lit "Unexpected token '" ++ firstn 1 s ++ lit "', " ++ [QUOTE] ++ s
    ++ [QUOTE] ++ lit " is not valid JSON".

Fixpoint digitsValue (acc : Z) (s : jsstring) : option Z :=
  match s with
  | [] => Some acc
  | c :: t =>
      if ((48 <=? c) && (c <=? 57))%N
      then digitsValue (acc * 10 + Z.of_N (c - 48)) t
      else None
  end.

(** An engine for the examples: it parses the documents of [known], by
    their text, and rejects every other text with the message above, which
    is that of V8 for the texts of the examples. *)
Definition engineOf (known : list Json) : Engine :=
  {| JSON_parse := fun s =>
       match find (fun j => eqb s (stringify j)) known with
       | Some j => inr j
       | None => inl (SyntaxError (notJsonMessage s))
       end;
     nullAccess := fun k =>
       TypeError (lit "Cannot read properties of null (reading '" ++ k
                    ++ lit "')");
     StringToNumber := fun s =>
       match s with
       | [] => Some 0%Z
       | _ => digitsValue 0 s
       end |}.

(** Two delta frames of Backend A, carrying Hel and lo. *)
Definition deltaFrame (s : jsstring) : Json :=
  JObj [(lit "choices",
         JArr [JObj [(lit "delta", JObj [(lit "content", JStr s)])]])].

Definition helloFrames : list Json :=
  [deltaFrame (lit "Hel"); deltaFrame (lit "lo")].

Definition helloBody : BodyStream :=
  {| reads := [DATA_PREFIX ++ stringify (deltaFrame (lit "Hel")) ++ [LF; LF]
               ++ DATA_PREFIX ++ stringify (deltaFrame (lit "lo")) ++ [LF; LF];
               DATA_PREFIX ++ DONE ++ [LF; LF]];
     failure := None |}.

Definition helloEnv : Env :=
  {| net := fun _ _ =>
       inr {| ok := true; status := 200; bodyText := [];
              body := Some helloBody |};
     clock := fun _ => 0%Z |}.

(** A stream of one frame, whose payload is the text by which Backend B
    recognises its own errors. *)
Definition rejectedEnv : Env :=
  {| net := fun _ _ =>
       inr {| ok := true; status := 200; bodyText := [];
              body := Some {| reads := [DATA_PREFIX ++ ERNIE_API_ERROR
                                          ++ [LF; LF]];
                              failure := None |} |};
     clock := fun _ => 0%Z |}.

Definition zhipuConfig : LLMConfig :=
  {| provider := lit "zhipu"; apiKey := lit "key"; model := None;
     secretKey := None; appId := None; apiSecret := None |}.

(** A run of the OAuth2 adapter: the provider grants a token for thirty
    days, the clock advances by one second per reading. *)
Definition tokenDoc : Json :=
  JObj [(lit "access_token", JStr (lit "tok"));
        (lit "expires_in", JNum 2592000)].

Definition answerDoc : Json := JObj [(lit "result", JStr (lit "done"))].

Definition ernieEnv : Env :=
  {| net := fun _ r =>
       match r with
       | TokenRequest _ _ =>
           inr {| ok := true; status := 200;
                  bodyText := stringify tokenDoc; body := None |}
       | _ =>
           inr {| ok := true; status := 200;
                  bodyText := stringify answerDoc; body := None |}
       end;
     clock := fun n => (1000 * Z.of_nat n)%Z |}.

Definition ernieConfig : LLMConfig :=
  {| provider := lit "ernie"; apiKey := lit "id:secret"; model := None;
     secretKey := None; appId := None; apiSecret := None |}.


(** ** The doubles of the machine *)

(** The primitive float nearest to an integer, by the rounding of the
    Standard Library's specification of binary64. *)
Definition toFloat (z : Z) : PrimFloat.float :=
  FloatOps.SF2Prim
    (SpecFloat.binary_normalize FloatOps.prec FloatOps.emax z 0 false).

(** The number that an integer-valued primitive float is. *)
Definition ofFloat (f : PrimFloat.float) : Double.number :=
  match FloatOps.Prim2SF f with
  | SpecFloat.S754_zero _ => Double.Fin 0
  | SpecFloat.S754_infinity s => if s then Double.NegInf else Double.PosInf
  | SpecFloat.S754_nan => Double.NaN
  | SpecFloat.S754_finite s m e =>
      Double.Fin ((if s then -1 else 1) * Z.shiftl (Z.pos m) e)
  end.

(** [t + (lifetime - 300) * 1000] on primitive floats. *)
Definition machineExpiry (t lifetime : Z) : Double.number :=
  ofFloat
    (PrimFloat.add (toFloat t)
       (PrimFloat.mul (PrimFloat.sub (toFloat lifetime) (toFloat 300))
                      (toFloat 1000))).

(** The same in the arithmetic of [Double]. *)
Definition modelExpiry (t lifetime : Z) : Double.number :=
  Double.add (Double.round t)
    (Double.mul (Double.sub (Double.round lifetime) (Double.Fin 300))
                (Double.Fin 1000)).

(** Clock readings and lifetimes: everyday ones, ones past 53 bits, ties
    between two doubles, and ones at the end of the range. *)
Definition expirySamples : list (Z * Z) :=
  [(1000, 2 ^ 53); (0, 2 ^ 53); (1700000000000, 2592000);
   (1700000000000, 2 ^ 60 + 12345); (12345678901234567890, 2 ^ 70 + 3);
   (0, 0); (5, 100); (-5, - 2 ^ 80 - 7); (2 ^ 53 + 1, 3);
   (2 ^ 53 + 3, 2 ^ 54 + 2); (2 ^ 62 + 2 ^ 9, 2 ^ 62 + 2 ^ 9 + 2 ^ 10);
   (2 ^ 55 + 2, 2 ^ 55 + 6); (7, 2 ^ 52); (2 ^ 1023, 2 ^ 1015);
   (1, 2 ^ 1020); (3, 2 ^ 1013 * 9); (2 ^ 1023 + 2 ^ 1022, 2 ^ 1014);
   (0, 2 ^ 1024); (0, - 2 ^ 1024); (2 ^ 1024, - 2 ^ 1024)]%Z.





(** ** Runs of a class *)

(** A run of a class stops at [b]. *)
Definition stops (p : codeunit -> bool) (b : jsstring) : Prop :=
  match b with
  | [] => True
  | x :: _ => p x = false
  end.

(** The unit before a position that lies [a] after one whose previous
    unit is [pv]. *)
Definition lastOf (pv : option codeunit) (a : jsstring) : option codeunit :=
  fold_left (fun _ x => Some x) a pv.

Definition nonSpace (c : codeunit) : bool := negb (isSpace c).

(** A unit that may stand in an extension: neither a slash nor a dot. *)
Definition inExtension (c : codeunit) : bool :=
  negb ((c =? DocGenerator.SLASH) || (c =? CodeParser.DOT))%N.

(** A unit of a type annotation: neither white space nor an equals
    sign. *)
Definition inAnnotation (c : codeunit) : bool :=
  nonSpace c && negb (c =? PythonParser.EQUALS)%N.

(** ** Headers and spans *)

Definition LPAREN : codeunit := 40%N.

(** A method header: an indent, [def], a name, the parameters in
    parentheses, and a colon. *)
Definition methodHeader (indent name params tail_ : jsstring) : jsstring :=
  indent ++ lit "def " ++ name ++ [LPAREN] ++ params ++ [PythonParser.RPAREN]
    ++ lit ":" ++ tail_.

(** A span of lines lies within a file of [n] lines. *)
Definition within (n first last : nat) : Prop :=
  1 <= first /\ first <= last /\ last <= n.

(** The names seen are the names found, and none is seen twice. *)
Definition distinctSoFar (st : PythonParser.PropState) : Prop :=
  map prop_name (PythonParser.found st) = rev (PythonParser.seenProperties st)
  /\ NoDup (PythonParser.seenProperties st).

(** ** Further examples *)

(** A module of two lines: a line comment, and a class that extends an
    imported one. *)
Definition shapeSource : jsstring :=
  lit "// shapes" ++ [LF]
  ++ lit "import Base from './base'; class Shape extends Base {}".

Definition shapeAst : JsParser.File :=
  {| JsParser.ast_comments :=
       Some [{| Babel.bc_type := Babel.CommentLine;
                Babel.bc_value := lit " shapes";
                Babel.bc_loc :=
                  Some {| Babel.loc_start_line := 1;
                          Babel.loc_end_line := 1 |} |}];
     JsParser.traversal :=
       [Babel.VisitImportDeclaration
          {| Babel.import_source_value := lit "./base";
             Babel.import_specifiers :=
               [Babel.ImportDefaultSpecifier (lit "Base")] |};
        Babel.VisitClassDeclaration
          {| Babel.cd_id := Some (lit "Shape");
             Babel.cd_superClass := Some (Babel.Identifier (lit "Base"));
             Babel.cd_implements := None;
             Babel.cd_body := [];
             Babel.cd_loc :=
               Some {| Babel.loc_start_line := 2;
                       Babel.loc_end_line := 2 |} |}
          Babel.Program] |}.

(** A parser that knows that module and nothing else. *)
Definition shapeParser : jsstring -> bool -> exn + JsParser.File :=
  fun code _ =>
    if eqb code shapeSource then inr shapeAst else inl (SyntaxError []).

(** A socket on which nothing happens. *)
Definition idleSocket : list Request -> XfyunSpark.Socket :=
  fun _ => {| XfyunSpark.moduleError := None; XfyunSpark.events := [] |}.

(** A text request. *)
Definition shopRequest : GenerateRequest :=
  {| req_type := InputText; req_docType := requirements;
     req_content := lit "a shop"; req_fileName := Some (lit "shop.py");
     req_language := None; req_additionalContext := None |}.

(** A code request whose content is an empty docstring. *)
Definition docstringRequest : GenerateRequest :=
  {| req_type := InputCode; req_docType := api;
     req_content := emptyDocstring; req_fileName := Some (lit "a.py");
     req_language := None; req_additionalContext := None |}.

(** A world in which the adapter holds a token whose time has passed. *)
Definition staleWorld : World :=
  {| requests := []; clockReads := 0; emitted := [];
     cache := {| accessToken := Some (JStr (lit "old"));
                 tokenExpiry := Double.Fin 0 |} |}.

(** Environments that set the key of Backend B, in the old two-part
    format, and the three variables of Backend C. *)
Definition ernieVars : jsstring -> option jsstring :=
  fun k =>
    if eqb k (lit "ERNIE_API_KEY") then Some (lit "id:secret") else None.

Definition xfyunVars : jsstring -> option jsstring :=
  fun k =>
    if eqb k (lit "XFYUN_APP_ID") then Some (lit "app")
    else if eqb k (lit "XFYUN_API_KEY") then Some (lit "key")
    else if eqb k (lit "XFYUN_API_SECRET") then Some (lit "secret")
    else None.

(** The world in which a call with a callback of its own runs. *)
Definition aside (w : World) : World :=
  {| requests := requests w; clockReads := clockReads w; emitted := [];
     cache := cache w |}.

(* ================================================================= *)
(** * Properties of the regular-expression matcher *)

Section MatcherFacts.

Lemma pos_skipWhile p pv s i :
  pos (skipWhile p pv s i) = i + length (takeWhile p s).
Proof.
  revert pv i; induction s as [|x t IH]; intros pv i; simpl.
  - lia.
  - destruct (p x); simpl; [rewrite IH|]; lia.
Qed.

Lemma firstn_takeWhile p s :
  firstn (length (takeWhile p s)) s = takeWhile p s.
Proof.
  induction s as [|x t IH]; simpl; [reflexivity|].
  destruct (p x); simpl; [now rewrite IH|reflexivity].
Qed.

(** A greedy star over a character class, followed by something that
    cannot fail, takes the longest run. *)
Lemma star_class_greedy p (k : K) :
  (forall c cs, k c cs <> None) ->
  forall fuel pv s i cs,
    length s < fuel ->
    star_loop (run (Cls p)) true k fuel (Cursor pv s i) cs
    = k (skipWhile p pv s i) cs.
Proof.
  intros Hk fuel; induction fuel as [|n IH]; intros pv s i cs Hlen; [lia|].
  destruct s as [|x t]; cbn [star_loop run rest pos skipWhile].
  - reflexivity.
  - destruct (p x) eqn:Hp.
    + rewrite (proj2 (Nat.eqb_neq (S i) i)) by lia.
      rewrite IH by (simpl in Hlen; lia).
      destruct (k (skipWhile p (Some x) t (S i)) cs) eqn:Hr; [reflexivity|].
      now apply Hk in Hr.
    + reflexivity.
Qed.

Lemma search_unfold r p s i :
  search r p s i
  = match run r (Cursor p s i) [] (fun c' cs => Some (c', cs)) with
    | Some (c', cs) => Some (Result i (firstn (pos c' - i) s) cs c')
    | None =>
        match s with
        | [] => None
        | x :: t => search r (Some x) t (S i)
        end
    end.
Proof. destruct s; reflexivity. Qed.

Lemma run_Seq a b c cs k :
  run (Seq a b) c cs k = run a c cs (fun c' cs' => run b c' cs' k).
Proof. reflexivity. Qed.

Lemma run_Grp i a c cs k :
  run (Grp i a) c cs k
  = run a c cs (fun c' cs' =>
      k c' ((i, firstn (pos c' - pos c) (rest c)) :: cs')).
Proof. reflexivity. Qed.

Lemma run_Star g a c cs k :
  run (Star g a) c cs k = star_loop (run a) g k (S (length (rest c))) c cs.
Proof. reflexivity. Qed.

End MatcherFacts.

(* ================================================================= *)
(** * Block extraction *)

Section BlockFacts.

Import PythonParser.

Lemma indentOf_leadingWhitespace l : indentOf l = leadingWhitespace l.
Proof.
  unfold indentOf, match_, exec, start, indentRegex, leadingWhitespace.
  cbn [prev rest pos seq].
  rewrite search_unfold, run_Seq.
  change (run Bos (Cursor None l 0) [] ?k) with (k (Cursor None l 0) []).
  cbv beta. rewrite run_Seq, run_Grp.
  unfold many, s_. rewrite run_Star. cbn [rest pos].
  rewrite star_class_greedy by (try discriminate; simpl; lia).
  cbn [run group groups lookup Nat.eqb must].
  rewrite pos_skipWhile. cbn [Nat.add]. rewrite Nat.sub_0_r.
  now rewrite firstn_takeWhile.
Qed.

Lemma dropWhile_app_stop p l x :
  p x = false -> dropWhile p (l ++ [x]) <> [].
Proof.
  intros Hx; induction l as [|y t IH]; simpl.
  - now rewrite Hx.
  - destruct (p y); [exact IH|discriminate].
Qed.

Lemma dropWhile_nil p l : dropWhile p l = [] <-> forallb p l = true.
Proof.
  induction l as [|x t IH]; simpl; [tauto|].
  destruct (p x); simpl; [exact IH|split; discriminate].
Qed.

Lemma dropWhile_head p l x t : dropWhile p l = x :: t -> p x = false.
Proof.
  induction l as [|y u IH]; simpl; [discriminate|].
  destruct (p y) eqn:Hy; [exact IH|].
  intros H; injection H as -> _; exact Hy.
Qed.

Lemma isBlank_blank l : isBlank l = blank l.
Proof.
  unfold isBlank, blank, trim.
  destruct (dropWhile isSpace l) as [|x t] eqn:Hd.
  - simpl. symmetry. now apply dropWhile_nil.
  - assert (Hx : isSpace x = false) by (eapply dropWhile_head; eauto).
    assert (Hnb : forallb isSpace l = false).
    { destruct (forallb isSpace l) eqn:Hf; [|reflexivity].
      apply dropWhile_nil in Hf. congruence. }
    rewrite Hnb.
    destruct (rev t) as [|z u] eqn:Hr.
    + assert (t = []) by (apply (f_equal (@rev _)) in Hr;
                          now rewrite rev_involutive in Hr).
      subst t. simpl. now rewrite Hx.
    + simpl rev at 2. rewrite Hr.
      assert (Hne : dropWhile isSpace ((z :: u) ++ [x]) <> [])
        by now apply dropWhile_app_stop.
      destruct (dropWhile isSpace ((z :: u) ++ [x])) as [|a b] eqn:Hq;
        [congruence|].
      destruct (rev (a :: b)) eqn:Hrv; [|reflexivity].
      apply (f_equal (@length _)) in Hrv. rewrite length_rev in Hrv.
      discriminate.
Qed.

Lemma scanBlock_prefix k ls :
  scanBlock k ls = firstn (length (scanBlock k ls)) ls.
Proof.
  induction ls as [|l ls IH]; simpl; [reflexivity|].
  destruct (isBlank l); simpl; [now rewrite <- IH|].
  destruct (indentOf l <=? k); simpl; [reflexivity|now rewrite <- IH].
Qed.

Lemma scanBlock_inside k ls :
  Forall (fun l => blank l = true \/ k < leadingWhitespace l)
         (scanBlock k ls).
Proof.
  induction ls as [|l ls IH]; simpl; [constructor|].
  destruct (isBlank l) eqn:Hb.
  - constructor; [left; now rewrite <- isBlank_blank|exact IH].
  - destruct (indentOf l <=? k) eqn:Hi; [constructor|].
    constructor; [right|exact IH].
    apply Nat.leb_gt in Hi. now rewrite <- indentOf_leadingWhitespace.
Qed.

Lemma scanBlock_stop k ls l :
  nth_error ls (length (scanBlock k ls)) = Some l ->
  blank l = false /\ leadingWhitespace l <= k.
Proof.
  induction ls as [|l0 ls IH]; simpl; [discriminate|].
  destruct (isBlank l0) eqn:Hb; simpl; [exact IH|].
  destruct (indentOf l0 <=? k) eqn:Hi; simpl; [|exact IH].
  intros H; injection H as <-.
  rewrite <- isBlank_blank, <- indentOf_leadingWhitespace.
  split; [exact Hb|now apply Nat.leb_le].
Qed.

Lemma skipn_nth_error_cons {A} (l : list A) n x :
  nth_error l n = Some x -> skipn n l = x :: skipn (S n) l.
Proof.
  revert n; induction l as [|y t IH]; intros [|n]; simpl; try discriminate.
  - now intros [= ->].
  - intros H. now apply IH.
Qed.

(** C3.  For every list of lines and every valid header index, the block
    is a contiguous range of the lines that starts with the header; every
    line after the header in it is blank or indented deeper than the
    header; and the line right after the range, if there is one, is
    non-blank and indented at most like the header: blank lines that are
    scanned are kept, and the first shallow non-blank line ends the block
    and stays outside. *)
Theorem extractPythonBlock_range lines startIndex header :
  nth_error lines startIndex = Some header ->
  exists n,
    extractPythonBlock lines startIndex
      = Ret (firstn (S n) (skipn startIndex lines))
    /\ startIndex + S n <= length lines
    /\ nth_error (firstn (S n) (skipn startIndex lines)) 0 = Some header
    /\ (forall j l,
          1 <= j <= n -> nth_error lines (startIndex + j) = Some l ->
          blank l = true \/ leadingWhitespace header < leadingWhitespace l)
    /\ (forall l,
          nth_error lines (startIndex + S n) = Some l ->
          blank l = false /\ leadingWhitespace l <= leadingWhitespace header).
Proof.
  intros Hh.
  set (k := indentOf header).
  set (tail := skipn (S startIndex) lines).
  exists (length (scanBlock k tail)).
  assert (Hsk : skipn startIndex lines = header :: tail)
    by now apply skipn_nth_error_cons.
  assert (Hpre := scanBlock_prefix k tail).
  assert (Hlen : length (scanBlock k tail) <= length tail).
  { rewrite Hpre at 1. rewrite length_firstn. lia. }
  assert (Htl : length tail = length lines - S startIndex)
    by (unfold tail; now rewrite length_skipn).
  assert (Hlt : startIndex < length lines)
    by (apply nth_error_Some; congruence).
  split; [|split; [|split; [|split]]].
  - unfold extractPythonBlock. rewrite Hh, Hsk. fold k tail.
    simpl firstn. now rewrite <- Hpre.
  - lia.
  - now rewrite Hsk.
  - intros j l [Hj1 Hjn] Hl.
    assert (Hin : nth_error (scanBlock k tail) (j - 1) = Some l).
    { rewrite Hpre, nth_error_firstn.
      replace (j - 1 <? length (scanBlock k tail)) with true
        by (symmetry; apply Nat.ltb_lt; lia).
      unfold tail. rewrite nth_error_skipn.
      now replace (S startIndex + (j - 1)) with (startIndex + j) by lia. }
    apply nth_error_In in Hin.
    pose proof (scanBlock_inside k tail) as Hall.
    rewrite Forall_forall in Hall. specialize (Hall _ Hin).
    unfold k in Hall. now rewrite indentOf_leadingWhitespace in Hall.
  - intros l Hl.
    assert (Hst : nth_error tail (length (scanBlock k tail)) = Some l).
    { unfold tail at 1. rewrite nth_error_skipn.
      now replace (S startIndex + length (scanBlock k tail))
        with (startIndex + S (length (scanBlock k tail))) by lia. }
    apply scanBlock_stop in Hst. unfold k in Hst.
    now rewrite indentOf_leadingWhitespace in Hst.
Qed.

(** A header on the first of three lines, a blank line, a deeper line: the
    block is the three lines. *)
Lemma extractPythonBlock_range_witness :
  exists n,
    extractPythonBlock [lit "def f():"; []; lit "  pass"] 0
      = Ret (firstn (S n) [lit "def f():"; []; lit "  pass"])
    /\ 0 + S n <= 3.
Proof.
  destruct (@extractPythonBlock_range
              [lit "def f():"; []; lit "  pass"] 0 (lit "def f():")
              eq_refl) as (n & H1 & H2 & _).
  exists n. split; [exact H1|exact H2].
Defined.

End BlockFacts.

(* ================================================================= *)
(** * The analyzer on concrete sources *)

Section AnalyzerScenarios.

Import PythonParser CodeParser.

Variable parse : jsstring -> bool -> exn + JsParser.File.

(** C1.  Analyzing the scenario under a [.py] file name yields exactly one
    class, named Foo, with superclass Bar, exactly one property, named x,
    and exactly one method, named __init__ -- whose visibility is
    [protected]: the name starts with an underscore, and only names that
    start with two underscores and do not end with two are taken out of
    that case. *)
Theorem parseCode_foo :
  exists md cls p m,
    parseCode parse fooSource (lit "foo.py") None = Ret md
    /\ classes md = [cls]
    /\ class_name cls = lit "Foo"
    /\ superClass cls = Some (lit "Bar")
    /\ properties cls = [p]
    /\ prop_name p = lit "x"
    /\ methods cls = [m]
    /\ method_name m = lit "__init__"
    /\ visibility m = protected.
Proof.
  eexists. eexists. eexists. eexists.
  split; [vm_compute; reflexivity|].
  repeat split.
Qed.

(** C2.  The analyzer throws on a Python source that holds an empty
    triple-double-quoted string: the docstring loop reads
    [(match[1] || match[2]).trim()], group 1 is the empty string, group 2
    is undefined, and [trim] is called on [undefined]. *)
Theorem parseCode_emptyDocstring_throws :
  parseCode parse emptyDocstring (lit "a.py") None = Throw undefinedAccess.
Proof. vm_compute. reflexivity. Qed.

(** C4.  With the supported language python, the analysis of a function
    whose docstring is empty does not return a CodeMetadata: it throws. *)
Theorem parseCode_stub_throws :
  parseCode parse stubSource (lit "stub.py") (Some (lit "python"))
  = Throw undefinedAccess.
Proof. vm_compute. reflexivity. Qed.

(** The same source with single quotes is analyzed: the operand of
    [trim] is then the empty string of group 2. *)
Example parseCode_singleQuotes_returns :
  returns (parseCode parse (sq3 ++ sq3) (lit "a.py") None) = true.
Proof. vm_compute. reflexivity. Qed.

(** ** Degraded metadata *)

(** An unsupported language yields empty collections and the raw text. *)
Lemma parseCode_unsupported code fileName language :
  let detected := orStr language (getLanguageFromFileName fileName) in
  truthyOpt detected = false \/ isLanguageSupported (must detected) = false ->
  exists md,
    parseCode parse code fileName language = Ret md
    /\ emptyCollections md /\ rawCode md = code.
Proof.
  intros detected H. unfold parseCode. fold detected.
  replace (negb (truthyOpt detected)
           || negb (isLanguageSupported (must detected))) with true.
  - eexists. split; [reflexivity|]. now repeat split.
  - destruct H as [-> | ->]; simpl; [reflexivity|now rewrite orb_true_r].
Qed.

(** Syntax that Babel cannot recover from yields empty collections and the
    raw text. *)
Lemma parseJavaScript_unrecoverable code fileName language isTS e :
  parse code isTS = inl e ->
  isTS = (eqb language (lit "typescript") || endsWith fileName (lit ".ts")
          || endsWith fileName (lit ".tsx")) ->
  let md := JsParser.parseJavaScript parse code fileName language in
  emptyCollections md /\ rawCode md = code.
Proof.
  intros Hp -> md. unfold md, JsParser.parseJavaScript. rewrite Hp.
  now repeat split.
Qed.

(** The syntax-tree analyzer never throws. *)
Lemma parseCode_javascript_returns code fileName l :
  l = lit "javascript" \/ l = lit "typescript" ->
  parseCode parse code fileName (Some l)
  = Ret (JsParser.parseJavaScript parse code fileName l).
Proof. intros [-> | ->]; reflexivity. Qed.

End AnalyzerScenarios.

(* ================================================================= *)
(** * Line spans *)

Section PythonSpans.

Import PythonParser.

Lemma length_split_aux c cur s :
  length (split_aux c cur s) = S (count c s).
Proof.
  revert cur; induction s as [|x t IH]; intros cur; simpl; [reflexivity|].
  destruct (x =? c)%N; simpl; now rewrite IH.
Qed.

Lemma count_app c a b : count c (a ++ b) = count c a + count c b.
Proof. induction a as [|x t IH]; simpl; [reflexivity|rewrite IH; lia]. Qed.

Lemma slice_prefix (s : jsstring) i :
  slice s 0 (Z.of_nat i) = firstn i s.
Proof.
  unfold slice, clampIndex.
  replace (0 <? 0)%Z with false by reflexivity.
  replace (Z.of_nat i <? 0)%Z with false by (symmetry; apply Z.ltb_ge; lia).
  rewrite (Z.min_l 0) by lia. simpl skipn. rewrite Z.sub_0_r.
  destruct (Nat.le_gt_cases i (length s)) as [Hle|Hgt].
  - rewrite Z.min_l by lia. now rewrite Nat2Z.id.
  - rewrite Z.min_r by lia. rewrite Nat2Z.id.
    rewrite firstn_all. symmetry. apply firstn_all2. lia.
Qed.

Lemma lineOf_mono code i j : i <= j -> lineOf code i <= lineOf code j.
Proof.
  intros Hij. unfold lineOf, split. rewrite !slice_prefix, !length_split_aux.
  apply le_n_S.
  rewrite <- (firstn_skipn i (firstn j code)), firstn_firstn.
  rewrite Nat.min_l by lia. rewrite count_app. lia.
Qed.

Lemma mapM_Forall {A B} (f : A -> outcome B) (P : B -> Prop) l bs :
  (forall a b, f a = Ret b -> P b) ->
  mapM f l = Ret bs -> Forall P bs.
Proof.
  intros Hf; revert bs; induction l as [|a t IH]; intros bs; simpl.
  - intros [= <-]. constructor.
  - destruct (f a) as [b| |] eqn:Hb; simpl; try discriminate.
    destruct (mapM f t) as [bs'| |]; simpl; try discriminate.
    intros [= <-]. constructor; [eapply Hf; eauto|now apply IH].
Qed.

Lemma Forall_somes {A} (P : A -> Prop) l :
  Forall (fun o => match o with Some a => P a | None => True end) l ->
  Forall P (somes l).
Proof.
  induction 1 as [|[a|] t Ha _ IH]; simpl; [constructor| |exact IH].
  now constructor.
Qed.

Lemma extractPythonBlock_nonempty lines i b :
  extractPythonBlock lines i = Ret b -> 1 <= length b.
Proof.
  unfold extractPythonBlock. destruct (nth_error lines i); [|discriminate].
  intros [= <-]. simpl. lia.
Qed.

Lemma lineComments_spans i ls :
  Forall (fun c => comment_startLine c <= comment_endLine c)
         (lineComments i ls).
Proof.
  revert i; induction ls as [|l t IH]; intros i; simpl; [constructor|].
  destruct (startsWith (trim l) HASH); [constructor; [simpl; lia|]|]; apply IH.
Qed.

(** Whenever the indentation analyzer returns, the spans of what it
    returns are ordered. *)
Lemma parsePython_spans code fileName md :
  parsePython code fileName = Ret md -> spansOrdered md.
Proof.
  unfold parsePython.
  destruct (extractPythonImports code) as [im| |]; simpl; try discriminate.
  destruct (extractPythonComments code (split code LF)) as [cm| |] eqn:Hcm;
    simpl; try discriminate.
  destruct (extractPythonClasses code (split code LF)) as [cl| |] eqn:Hcl;
    simpl; try discriminate.
  destruct (extractPythonFunctions code (split code LF)) as [fn| |] eqn:Hfn;
    simpl; try discriminate.
  intros [= <-]. unfold spansOrdered; simpl.
  split; [|split; [|split; [constructor|]]].
  - unfold extractPythonClasses in Hcl.
    destruct (loop (exec_all classRegex code)) as [ms| |];
      simpl in Hcl; try discriminate.
    eapply mapM_Forall; [|exact Hcl].
    intros m c. unfold pythonClass.
    destruct (extractPythonBlock _ _) as [b| |] eqn:Hb; simpl;
      try discriminate.
    intros [= <-]. simpl. apply extractPythonBlock_nonempty in Hb. lia.
  - unfold extractPythonFunctions in Hfn.
    destruct (loop (exec_all funcRegex code)) as [ms| |];
      simpl in Hfn; try discriminate.
    destruct (mapM _ ms) as [fs| |] eqn:Hfs; simpl in Hfn; try discriminate.
    injection Hfn as <-.
    apply Forall_somes. eapply mapM_Forall; [|exact Hfs].
    intros m [f|]; [|trivial]. unfold pythonFunction.
    destruct (_ && _); [discriminate|].
    destruct (extractPythonBlock _ _) as [b| |] eqn:Hb; simpl;
      try discriminate.
    intros [= <-]. simpl. apply extractPythonBlock_nonempty in Hb. lia.
  - unfold extractPythonComments in Hcm.
    destruct (loop (exec_all docstringRegex code)) as [ms| |];
      simpl in Hcm; try discriminate.
    destruct (mapM _ ms) as [bs| |] eqn:Hbs; simpl in Hcm; try discriminate.
    injection Hcm as <-.
    apply Forall_app. split; [apply lineComments_spans|].
    eapply mapM_Forall; [|exact Hbs].
    intros m c. unfold blockComment.
    destruct (orStr _ _); [|discriminate].
    intros [= <-]. simpl. apply lineOf_mono. lia.
Qed.

End PythonSpans.

Section JavaScriptSpans.

Import Babel JsParser.

Lemma lines_ordered loc :
  locOrdered loc -> startLineOf loc <= endLineOf loc.
Proof. destruct loc; simpl; [trivial|lia]. Qed.

Lemma pushExports_spans md es :
  spansOrdered md -> spansOrdered (pushExports md es).
Proof. trivial. Qed.

Lemma pushFunction_spans md f :
  spansOrdered md -> fn_startLine f <= fn_endLine f ->
  spansOrdered (pushFunction md f).
Proof.
  intros (Hc & Hf & Hi & Hm) H. repeat split; simpl; try assumption.
  apply Forall_app. split; [assumption|now constructor].
Qed.

Lemma visitDeclarator_spans parent md d :
  spansOrdered md -> initLocated d ->
  spansOrdered (visitDeclarator parent md d).
Proof.
  intros Hmd Hd. unfold visitDeclarator, initLocated in *.
  destruct (vd_id d); try assumption.
  destruct (vd_init d) as [[f|f|]|]; try assumption;
    apply pushExports_spans, pushFunction_spans; try assumption;
    now apply lines_ordered.
Qed.

Lemma visit_spans md v :
  spansOrdered md -> visitLocated v -> spansOrdered (visit md v).
Proof.
  intros Hmd Hv. destruct v as [n|n p|n p|ds p|n p|d|ss]; simpl in *.
  - exact Hmd.
  - apply pushExports_spans. destruct Hmd as (Hc & Hf & Hi & Hm).
    repeat split; simpl; try assumption.
    apply Forall_app. split; [assumption|].
    constructor; [|constructor]. simpl. now apply lines_ordered.
  - destruct (f_id n); [|exact Hmd].
    apply pushExports_spans, pushFunction_spans; [exact Hmd|].
    simpl. now apply lines_ordered.
  - assert (Hfold : forall md0, spansOrdered md0 ->
              spansOrdered (fold_left (visitDeclarator p) ds md0)).
    { induction Hv as [|d t Hd _ IH]; intros md0 H0; simpl; [exact H0|].
      apply IH. now apply visitDeclarator_spans. }
    destruct p; try exact Hmd; now apply Hfold.
  - apply pushExports_spans. destruct Hmd as (Hc & Hf & Hi & Hm).
    repeat split; simpl; try assumption.
    apply Forall_app. split; [assumption|].
    constructor; [|constructor]. simpl. now apply lines_ordered.
  - destruct d; exact Hmd.
  - exact Hmd.
Qed.

Variable parse : jsstring -> bool -> exn + File.

Hypothesis parse_located :
  forall code isTypeScript ast,
    parse code isTypeScript = inr ast -> wellLocated ast.

(** With Babel's locations ordered, the spans of what the syntax-tree
    analyzer returns are ordered. *)
Lemma parseJavaScript_spans code fileName language :
  spansOrdered (parseJavaScript parse code fileName language).
Proof.
  unfold parseJavaScript.
  destruct (parse code _) as [e|ast] eqn:Hp.
  - repeat split; constructor.
  - destruct (parse_located Hp) as [Hcs Hvs].
    assert (H0 : spansOrdered
                   match ast_comments ast with
                   | Some cs =>
                       withComments (emptyMetadata fileName language code)
                                    (map commentInfo cs)
                   | None => emptyMetadata fileName language code
                   end).
    { destruct (ast_comments ast) as [cs|];
        repeat split; simpl; try constructor.
      induction Hcs as [|c t Hc _ IH]; simpl; constructor; [|exact IH].
      simpl. now apply lines_ordered. }
    revert H0. generalize (match ast_comments ast with
                           | Some cs =>
                               withComments
                                 (emptyMetadata fileName language code)
                                 (map commentInfo cs)
                           | None => emptyMetadata fileName language code
                           end).
    induction Hvs as [|v t Hv _ IH]; intros md0 H0; simpl; [exact H0|].
    apply IH. now apply visit_spans.
Qed.

End JavaScriptSpans.

(* ================================================================= *)
(** * Truncation *)

Section TruncationFacts.

Import PromptBuilder.

Lemma lastIndexOf_from_range i acc s c :
  (acc < i)%Z ->
  (acc <= lastIndexOf_from i acc s c < i + Z.of_nat (length s))%Z.
Proof.
  revert i acc; induction s as [|x t IH]; intros i acc Hacc; simpl length.
  - simpl. lia.
  - cbn [lastIndexOf_from].
    destruct (x =? c)%N.
    + specialize (IH (i + 1)%Z i ltac:(lia)). lia.
    + specialize (IH (i + 1)%Z acc ltac:(lia)). lia.
Qed.

Lemma lastIndexOf_range s c :
  (-1 <= lastIndexOf s c < Z.of_nat (length s))%Z.
Proof.
  unfold lastIndexOf.
  pose proof (@lastIndexOf_from_range 0 (-1) s c ltac:(lia)). lia.
Qed.

Lemma slice_firstn (s : jsstring) (n : Z) :
  (0 <= n)%Z -> slice s 0 n = firstn (Z.to_nat n) s.
Proof.
  intros Hn. rewrite <- (Z2Nat.id n) at 1 by exact Hn.
  apply slice_prefix.
Qed.

Lemma endsWith_app (a b : jsstring) : endsWith (a ++ b) b = true.
Proof.
  unfold endsWith. rewrite rev_app_distr.
  generalize (rev b) (rev a).
  intros m r. induction m as [|x t IH]; simpl; [now destruct r|].
  now rewrite N.eqb_refl.
Qed.

(** C5.  With a non-negative budget: code within the budget is returned
    unchanged; longer code becomes a prefix of itself of at most the budget
    followed by the truncation marker, so its length is at most the budget
    plus the length of the marker and it ends with the marker. *)
Theorem truncateCode_budget config code :
  (0 <= maxCodeLength config)%Z ->
  ((Z.of_nat (length code) <= maxCodeLength config)%Z ->
   truncateCode config code = code)
  /\ ((maxCodeLength config < Z.of_nat (length code))%Z ->
      exists n,
        truncateCode config code = firstn n code ++ truncationMarker
        /\ (Z.of_nat n <= maxCodeLength config)%Z
        /\ (Z.of_nat (length (truncateCode config code))
            <= maxCodeLength config + Z.of_nat (length truncationMarker))%Z
        /\ endsWith (truncateCode config code) truncationMarker = true).
Proof.
  intros Hmax. unfold truncateCode. split.
  - intros Hle. apply Z.leb_le in Hle. now rewrite Hle.
  - intros Hgt.
    replace (Z.of_nat (length code) <=? maxCodeLength config)%Z with false
      by (symmetry; apply Z.leb_gt; exact Hgt).
    rewrite (slice_firstn code Hmax).
    set (truncated := firstn (Z.to_nat (maxCodeLength config)) code).
    assert (Hlt : length truncated = Z.to_nat (maxCodeLength config)).
    { unfold truncated. rewrite length_firstn. lia. }
    pose proof (lastIndexOf_range truncated LF) as Hr.
    assert (Hfin : forall n,
               (Z.of_nat n <= maxCodeLength config)%Z ->
               (Z.of_nat n <= maxCodeLength config)%Z
               /\ (Z.of_nat (length (firstn n code ++ truncationMarker))
                   <= maxCodeLength config
                      + Z.of_nat (length truncationMarker))%Z
               /\ endsWith (firstn n code ++ truncationMarker)
                            truncationMarker = true).
    { intros n Hn. split; [exact Hn|]. split.
      - rewrite length_app. pose proof (firstn_le_length n code). lia.
      - apply endsWith_app. }
    destruct (0 <? lastIndexOf truncated LF)%Z eqn:Hpos.
    + apply Z.ltb_lt in Hpos.
      exists (Z.to_nat (lastIndexOf truncated LF)).
      assert (Hk : firstn (Z.to_nat (lastIndexOf truncated LF)) truncated
                   = firstn (Z.to_nat (lastIndexOf truncated LF)) code).
      { unfold truncated at 2. rewrite firstn_firstn. f_equal. lia. }
      rewrite slice_firstn by lia. rewrite !Hk.
      split; [reflexivity|]. apply Hfin. lia.
    + exists (Z.to_nat (maxCodeLength config)).
      split; [reflexivity|]. apply Hfin. lia.
Qed.

(** A budget of five units and a source of three lines. *)
Lemma truncateCode_budget_witness :
  let config := {| includeCodeSummary := true; maxCodeLength := 5;
                   config_language := None |} in
  let code := lit "ab" ++ [LF] ++ lit "cdefgh" ++ [LF] ++ lit "ij" in
  truncateCode config code = lit "ab" ++ truncationMarker
  /\ exists n,
       truncateCode config code = firstn n code ++ truncationMarker
       /\ (Z.of_nat n <= 5)%Z.
Proof.
  intros config code. split; [vm_compute; reflexivity|].
  destruct (@truncateCode_budget config code ltac:(simpl; lia)) as [_ H].
  destruct (H ltac:(vm_compute; reflexivity)) as (n & H1 & H2 & _).
  exists n. split; [exact H1|exact H2].
Defined.

(** The default budget is 50000. *)
Example default_budget : maxCodeLength defaultConfig = 50000%Z.
Proof. reflexivity. Qed.

(** A negative budget is not a budget: the slice then counts from the end
    of the code. *)
Example truncateCode_negative_budget :
  truncateCode {| includeCodeSummary := true; maxCodeLength := -1;
                  config_language := None |} (lit "abc")
  = lit "ab" ++ truncationMarker.
Proof. vm_compute. reflexivity. Qed.

End TruncationFacts.

(* ================================================================= *)
(** * The prompt assembler *)

Section AssemblerFacts.

Import PromptBuilder Templates.

Lemma join_app sep (xs ys : list jsstring) :
  xs <> [] -> ys <> [] ->
  join sep (xs ++ ys) = join sep xs ++ sep ++ join sep ys.
Proof.
  intros Hx Hy. induction xs as [|x [|x' t] IH]; [congruence| |].
  - destruct ys; [congruence|reflexivity].
  - change (join sep ((x :: x' :: t) ++ ys))
      with (x ++ sep ++ join sep ((x' :: t) ++ ys)).
    rewrite IH by discriminate.
    change (join sep (x :: x' :: t)) with (x ++ sep ++ join sep (x' :: t)).
    now rewrite <- !app_assoc.
Qed.


Variable parse : jsstring -> bool -> exn + JsParser.File.


End AssemblerFacts.



(* ================================================================= *)
(** * Backend C: resolving the credentials *)

Section CredentialFacts.

Import XfyunSpark.

(** [s.split(c)], unit by unit. *)
Lemma split_aux_cur c cur s :
  split_aux c cur s
  = match split_aux c [] s with
    | h :: t => (rev cur ++ h) :: t
    | [] => []
    end.
Proof.
  revert cur; induction s as [|x t IH]; intros cur; simpl.
  - now rewrite app_nil_r.
  - destruct (x =? c)%N; [now rewrite app_nil_r|].
    rewrite (IH (x :: cur)), (IH [x]).
    destruct (split_aux c [] t); [reflexivity|].
    simpl. now rewrite <- app_assoc.
Qed.

Lemma split_cons c x t :
  split (x :: t) c
  = if (x =? c)%N then [] :: split t c
    else match split t c with
         | h :: r => (x :: h) :: r
         | [] => []
         end.
Proof.
  unfold split. simpl. destruct (x =? c)%N; [reflexivity|].
  now rewrite split_aux_cur.
Qed.

Lemma split_nonempty s c : split s c <> [].
Proof.
  unfold split. destruct s as [|x t]; simpl; [discriminate|].
  destruct (x =? c)%N; [discriminate|].
  rewrite split_aux_cur. destruct (split_aux c [] t) eqn:H; [|discriminate].
  apply (f_equal (@length _)) in H. rewrite length_split_aux in H.
  discriminate.
Qed.

(** The parts of a split hold no separator, and joining them with the
    separator gives the string back. *)
Lemma split_parts s c :
  Forall (fun p => count c p = 0) (split s c)
  /\ join [c] (split s c) = s.
Proof.
  induction s as [|x t [IHf IHj]]; [split; [repeat constructor|reflexivity]|].
  rewrite split_cons. destruct (x =? c)%N eqn:Hx.
  - apply N.eqb_eq in Hx. subst x.
    split; [constructor; [reflexivity|exact IHf]|].
    pose proof (@split_nonempty t c) as Hne.
    destruct (split t c) as [|h r]; [congruence|].
    change (join [c] ([] :: h :: r)) with ([] ++ [c] ++ join [c] (h :: r)).
    now rewrite IHj.
  - pose proof (@split_nonempty t c) as Hne.
    destruct (split t c) as [|h r]; [congruence|].
    apply Forall_cons_iff in IHf. destruct IHf as [Hh Hr]. split.
    + constructor; [simpl; now rewrite Hx|exact Hr].
    + destruct r as [|h' r'].
      * simpl in *. now rewrite IHj.
      * change (join [c] ((x :: h) :: h' :: r'))
          with (x :: (h ++ [c] ++ join [c] (h' :: r'))).
        now rewrite <- IHj.
Qed.

Lemma split_free c p : count c p = 0 -> split p c = [p].
Proof.
  induction p as [|x t IH]; [reflexivity|]. simpl.
  destruct (x =? c)%N eqn:Hx; [discriminate|]. intros H.
  rewrite split_cons, Hx, IH by exact H. reflexivity.
Qed.

Lemma split_app c p s :
  count c p = 0 -> split (p ++ c :: s) c = p :: split s c.
Proof.
  induction p as [|x t IH]; simpl.
  - intros _. now rewrite split_cons, N.eqb_refl.
  - destruct (x =? c)%N eqn:Hx; [discriminate|]. intros H.
    rewrite split_cons, Hx, IH by exact H. reflexivity.
Qed.

Lemma indexOf_from_unit s c i :
  match indexOf_from i s [c] with Some _ => true | None => false end
  = (0 <? count c s).
Proof.
  revert i; induction s as [|x t IH]; intros i; [reflexivity|].
  cbn [indexOf_from startsWith count].
  rewrite (N.eqb_sym c x). destruct (x =? c)%N; simpl.
  - now destruct t.
  - apply IH.
Qed.

Lemma includes_unit s c : includes s [c] = (0 <? count c s).
Proof. apply indexOf_from_unit. Qed.

Lemma split_triple key :
  length (split key COLON) = 3 <->
  exists a b c, joinedTriple key a b c.
Proof.
  split.
  - intros H. destruct (split_parts key COLON) as [Hf Hj].
    destruct (split key COLON) as [|a [|b [|c [|d r]]]]; try discriminate.
    exists a, b, c.
    apply Forall_cons_iff in Hf. destruct Hf as [Ha Hf].
    apply Forall_cons_iff in Hf. destruct Hf as [Hb Hf].
    apply Forall_cons_iff in Hf. destruct Hf as [Hc _].
    repeat split; try assumption. now rewrite <- Hj.
  - intros (a & b & c & -> & Ha & Hb & Hc).
    simpl app. rewrite split_app by exact Ha.
    rewrite split_app by exact Hb. now rewrite split_free.
Qed.

Lemma split_triple_parts key a b c :
  joinedTriple key a b c -> split key COLON = [a; b; c].
Proof.
  intros (-> & Ha & Hb & Hc).
  simpl app. rewrite split_app by exact Ha.
  rewrite split_app by exact Hb. now rewrite split_free.
Qed.

Lemma joinedTriple_colon key a b c :
  joinedTriple key a b c ->
  truthy key = true /\ includes key [COLON] = true.
Proof.
  intros (-> & _). split.
  - destruct a; reflexivity.
  - rewrite includes_unit, count_app. simpl count.
    apply Nat.ltb_lt. lia.
Qed.

(** C8.  Construction succeeds exactly when the credentials resolve: as
    three separate non-empty fields, which are then taken as they are, or
    else as an [apiKey] that is a colon-joined triple, whose parts are then
    taken.  In every other case it throws an error whose message names the
    expected format.  Either way the constructor leaves the world as it
    found it: no request is made. *)
Theorem parseConfig_resolves config :
  match parseConfig config with
  | Ret creds =>
      (separateFields config
       /\ creds = {| cred_appId := must (appId config);
                     cred_apiKey := apiKey config;
                     cred_apiSecret := must (apiSecret config) |})
      \/ (~ separateFields config
          /\ exists a b c,
               joinedTriple (apiKey config) a b c
               /\ creds = {| cred_appId := a; cred_apiKey := b;
                             cred_apiSecret := c |})
  | Throw e =>
      ~ separateFields config
      /\ ~ (exists a b c, joinedTriple (apiKey config) a b c)
      /\ includes (exn_message e) EXPECTED_FORMAT = true
  | Diverge => False
  end
  /\ forall w,
       fst (construct config w) = w
       /\ snd (construct config w)
          = (creds <- parseConfig config ;; Ret (config, creds)).
Proof.
  split.
  - unfold parseConfig.
    destruct (truthyOpt (appId config) && truthy (apiKey config)
              && truthyOpt (apiSecret config)) eqn:Hsep.
    + left. apply andb_prop in Hsep. destruct Hsep as [Hsep H3].
      apply andb_prop in Hsep. destruct Hsep as [H1 H2].
      split; [now repeat split|reflexivity].
    + assert (Hns : ~ separateFields config).
      { intros (H1 & H2 & H3). now rewrite H1, H2, H3 in Hsep. }
      destruct (truthy (apiKey config) && includes (apiKey config) [COLON])
        eqn:Hcolon.
      * destruct (length (split (apiKey config) COLON) =? 3) eqn:Hlen; simpl.
        -- apply Nat.eqb_eq in Hlen. right. split; [exact Hns|].
           destruct (proj1 (split_triple (apiKey config)) Hlen)
             as (a & b & c & Habc).
           exists a, b, c. split; [exact Habc|].
           now rewrite (split_triple_parts Habc).
        -- apply Nat.eqb_neq in Hlen. split; [exact Hns|]. split.
           ++ intros Habc. apply Hlen. now apply split_triple.
           ++ vm_compute. reflexivity.
      * split; [exact Hns|]. split.
        -- intros (a & b & c & Habc).
           destruct (joinedTriple_colon Habc) as [Ht Hi].
           now rewrite Ht, Hi in Hcolon.
        -- vm_compute. reflexivity.
  - intros w. unfold construct, bindIO, lift, ret.
    destruct (parseConfig config); split; reflexivity.
Qed.

End CredentialFacts.

(* ================================================================= *)
(** * Reasoning about effects *)

Section Preservation.

(** A relation between the world before and the world after that holds
    across no step at all and across steps in sequence is kept by every
    program whose primitive steps keep it. *)
Variable R : World -> World -> Prop.
Hypothesis R_refl : forall w, R w w.
Hypothesis R_trans : forall a b c, R a b -> R b c -> R a c.


Lemma keeps_throw {A} e : keeps R (@throw A e).
Proof. intros w. apply R_refl. Qed.

Lemma keeps_hang {A} : keeps R (@hang A).
Proof. intros w. apply R_refl. Qed.

Lemma keeps_lift {A} (o : outcome A) : keeps R (lift o).
Proof. intros w. apply R_refl. Qed.

Lemma keeps_bind {A B} (m : IO A) (f : A -> IO B) :
  keeps R m -> (forall a, keeps R (f a)) -> keeps R (bindIO m f).
Proof.
  intros Hm Hf w. unfold bindIO. specialize (Hm w).
  destruct (m w) as [w' [a|e|]]; simpl in *; try exact Hm.
  eapply R_trans; [exact Hm|apply Hf].
Qed.



End Preservation.

(** An invariant between the world and a loop state that every iteration
    re-establishes when it returns holds when the loop returns. *)
Lemma foldIO_invariant {A S} (I : World -> S -> Prop) (f : S -> A -> IO S) l :
  (forall s a w w' s', I w s -> f s a w = (w', Ret s') -> I w' s') ->
  forall s w w' s', I w s -> foldIO f l s w = (w', Ret s') -> I w' s'.
Proof.
  intros Hf. induction l as [|a t IH]; intros s w w' s' Hi; simpl.
  - unfold ret. intros [= <- <-]. exact Hi.
  - unfold bindIO. destruct (f s a w) as [w1 [s1|e|]] eqn:Hs;
      try discriminate.
    apply IH. eapply Hf; eauto.
Qed.

(* ================================================================= *)
(** * Streaming: the content and the chunks *)

Section StreamFacts.

Lemma synced_start w0 : synced w0 w0 [].
Proof. exists []. now rewrite app_nil_r. Qed.

Lemma deliver_synced w0 w st chunk :
  synced w0 w (fullContent st) ->
  exists w' st',
    deliver true st chunk w = (w', Ret st')
    /\ synced w0 w' (fullContent st')
    /\ requests w' = requests w.
Proof.
  intros (chunks & He & Hc).
  eexists. eexists. split; [reflexivity|]. split; [|reflexivity].
  exists (chunks ++ [chunk]). simpl. split.
  - now rewrite He, app_assoc.
  - rewrite map_app, concat_app, <- Hc. simpl. now rewrite app_nil_r.
Qed.

Lemma readLoop_synced onLine stream w0 w w' r :
  stepsInSync onLine ->
  emitted w = emitted w0 ->
  readLoop onLine stream w = (w', Ret r) ->
  exists chunks,
    emitted w' = emitted w0 ++ chunks
    /\ response_content r = Some (JStr (concat (map toString chunks))).
Proof.
  intros Hstep Hw. unfold readLoop, bindIO.
  destruct (foldIO _ (reads stream) streamStart w) as [w1 [st| |]] eqn:Hf;
    try discriminate.
  assert (Hline : forall s l wa wb s',
             synced w0 wa (fullContent s) ->
             onLine s l wa = (wb, Ret s') -> synced w0 wb (fullContent s')).
  { intros s l wa wb s' Ha Hb. specialize (Hstep w0 wa s l Ha).
    now rewrite Hb in Hstep. }
  assert (Hchunk : forall s chunk wa wb s',
             synced w0 wa (fullContent s) ->
             foldIO onLine (nonBlankLines chunk) s wa = (wb, Ret s') ->
             synced w0 wb (fullContent s')).
  { intros s chunk.
    exact (@foldIO_invariant _ _ (fun w s => synced w0 w (fullContent s))
             onLine (nonBlankLines chunk) Hline s). }
  assert (H0 : synced w0 w (fullContent streamStart)).
  { exists []. rewrite app_nil_r. split; [exact Hw|reflexivity]. }
  pose proof (@foldIO_invariant _ _
                (fun w s => synced w0 w (fullContent s))
                (fun st chunk => foldIO onLine (nonBlankLines chunk) st)
                (reads stream) Hchunk streamStart w w1 st H0 Hf) as Hs.
  destruct (failure stream); [discriminate|].
  unfold ret. intros [= <- <-]. cbv beta in Hs.
  destruct Hs as (chunks & He & Hc). exists chunks. simpl.
  split; [exact He|now rewrite Hc].
Qed.

End StreamFacts.

Section FrameFacts.

Variable E : Engine.

Lemma lift_run {A} (o : outcome A) w : lift o w = (w, o).
Proof. reflexivity. Qed.

Lemma bind_lift {A B} (o : outcome A) (f : A -> IO B) w :
  bindIO (lift o) f w
  = match o with
    | Ret a => f a w
    | Throw e => (w, Throw e)
    | Diverge => (w, Diverge)
    end.
Proof. unfold bindIO, lift. now destruct o. Qed.

(** Delivering a chunk or not, and then a pure update of the usage. *)
Lemma deliver_then w0 w st content (k : StreamState -> StreamState) :
  (forall s, fullContent (k s) = fullContent s) ->
  synced w0 w (fullContent st) ->
  match bindIO (if truthyV content then deliver true st content else ret st)
               (fun st1 => ret (k st1)) w with
  | (w', Ret st') => synced w0 w' (fullContent st')
  | (w', Throw _) => w' = w
  | (w', Diverge) => True
  end.
Proof.
  intros Hk Hs. unfold bindIO.
  destruct (truthyV content).
  - destruct (deliver_synced st content Hs) as (w' & st' & -> & Hs' & _).
    unfold ret. now rewrite Hk.
  - unfold ret. now rewrite Hk.
Qed.

Lemma get_cases j k :
  get E (Some j) k = Throw (nullAccess E k)
  \/ get E (Some j) k = Ret (prop j k).
Proof. destruct j; simpl; auto. Qed.

Lemma zhipu_frame : frameInSync (ZhipuGLM.frame E true).
Proof.
  intros w0 w st data Hs. unfold ZhipuGLM.frame.
  rewrite bind_lift. destruct (JSON_parse E data) as [e|j]; [reflexivity|].
  rewrite bind_lift. destruct (get_cases j (lit "choices")) as [-> | ->];
    [reflexivity|].
  apply deliver_then; [|exact Hs].
  intros ?; now destruct (truthyV _).
Qed.

Lemma oauth_frame : frameInSync (ErnieOAuth.frame E true).
Proof.
  intros w0 w st data Hs. unfold ErnieOAuth.frame, parseJson.
  rewrite bind_lift. destruct (JSON_parse E data) as [e|j]; [reflexivity|].
  rewrite bind_lift. destruct (get_cases j (lit "error_code")) as [-> | ->];
    [reflexivity|].
  destruct (truthyV (prop j (lit "error_code"))); [reflexivity|].
  apply deliver_then; [|exact Hs].
  intros ?; now destruct (_ && _).
Qed.

Lemma qianfan_frame : frameInSync (ErnieQianfan.frame E true).
Proof.
  intros w0 w st data Hs. unfold ErnieQianfan.frame, parseJson.
  rewrite bind_lift. destruct (JSON_parse E data) as [e|j]; [reflexivity|].
  rewrite bind_lift. destruct (get_cases j (lit "error")) as [-> | ->];
    [reflexivity|].
  destruct (truthyV (prop j (lit "error"))); [reflexivity|].
  apply deliver_then; [|exact Hs].
  intros ?; now destruct (truthyV _).
Qed.

(** A [try] around a frame handler, with a handler that resumes with the
    state of before or throws, steps in sync. *)
Lemma tryCatch_synced frame (h : StreamState -> exn -> IO StreamState)
    w0 w st data :
  frameInSync frame ->
  (forall e w1,
      h st e w1 = (w1, Ret st) \/ exists e', h st e w1 = (w1, Throw e')) ->
  synced w0 w (fullContent st) ->
  match tryCatch (frame st data) (h st) w with
  | (w', Ret st') => synced w0 w' (fullContent st')
  | (w', _) => True
  end.
Proof.
  intros Hf Hh Hs. unfold tryCatch. specialize (Hf w0 w st data Hs).
  destruct (frame st data w) as [w1 [st1|e|]]; try exact Hf.
  subst w1. destruct (Hh e w) as [-> | (e' & ->)]; [exact Hs|exact I].
Qed.

Lemma rethrowOwn_cases st e w :
  rethrowOwn st e w = (w, Ret st)
  \/ exists e', rethrowOwn st e w = (w, Throw e').
Proof.
  unfold rethrowOwn. destruct (includes _ _); [right; now exists e|now left].
Qed.

Lemma zhipu_onLine : stepsInSync (ZhipuGLM.onLine E true).
Proof.
  intros w0 w st l Hs. unfold ZhipuGLM.onLine.
  destruct (startsWith l DATA_PREFIX); [|exact Hs].
  destruct (eqb _ DONE); [exact Hs|].
  apply (@tryCatch_synced (ZhipuGLM.frame E true) (fun st _ => ret st));
    [apply zhipu_frame|now left|exact Hs].
Qed.

Lemma oauth_onLine : stepsInSync (ErnieOAuth.onLine E true).
Proof.
  intros w0 w st l Hs. unfold ErnieOAuth.onLine.
  destruct (startsWith l DATA_PREFIX); [|exact Hs].
  apply (@tryCatch_synced (ErnieOAuth.frame E true) rethrowOwn);
    [apply oauth_frame|intros; apply rethrowOwn_cases|exact Hs].
Qed.

Lemma qianfan_onLine : stepsInSync (ErnieQianfan.onLine E true).
Proof.
  intros w0 w st l Hs. unfold ErnieQianfan.onLine.
  destruct (startsWith l DATA_PREFIX); [|exact Hs].
  destruct (eqb _ DONE); [exact Hs|].
  apply (@tryCatch_synced (ErnieQianfan.frame E true) rethrowOwn);
    [apply qianfan_frame|intros; apply rethrowOwn_cases|exact Hs].
Qed.

End FrameFacts.

Section SilentSteps.

Lemma silent_refl w : silent w w.
Proof. reflexivity. Qed.

Lemma silent_trans a b c : silent a b -> silent b c -> silent a c.
Proof. unfold silent. congruence. Qed.

Variable E : Engine.
Variable env : Env.

Lemma fetch_silent r : keeps silent (fetch env r).
Proof. intros w. unfold fetch. now destruct (net env (requests w) r). Qed.

Lemma send_silent r : keeps silent (send r).
Proof. intros w. reflexivity. Qed.

Lemma getAccessToken_silent config :
  keeps silent (ErnieOAuth.getAccessToken E env config).
Proof.
  unfold ErnieOAuth.getAccessToken.
  repeat first
    [ apply (keeps_bind silent_trans); [|intros ?]
    | apply fetch_silent
    | (intros w; reflexivity)
    | match goal with |- keeps _ (if ?b then _ else _) => destruct b end ].
Qed.

End SilentSteps.

Section StreamingResults.

Variable E : Engine.
Variable env : Env.
Variable config : LLMConfig.

Lemma after_fetch r (k : Response -> IO LLMResponse) :
  (forall resp w1 w' res,
      k resp w1 = (w', Ret res) ->
      exists chunks,
        emitted w' = emitted w1 ++ chunks
        /\ response_content res = Some (JStr (concat (map toString chunks)))) ->
  contentIsChunks (bindIO (fetch env r) k).
Proof.
  intros Hk w w' res. unfold bindIO.
  pose proof (fetch_silent env r w) as Hs. unfold silent in Hs.
  destruct (fetch env r w) as [w1 [resp|e|]]; try discriminate.
  intros H. destruct (Hk _ _ _ _ H) as (chunks & He & Hc).
  exists chunks. simpl in Hs. split; [congruence|exact Hc].
Qed.

Lemma body_loop onLine (response : Response) e1 e2 w1 w' res :
  stepsInSync onLine ->
  (if negb (ok response) then throw e1
   else match body response with
        | None => throw e2
        | Some stream => readLoop onLine stream
        end) w1 = (w', Ret res) ->
  exists chunks,
    emitted w' = emitted w1 ++ chunks
    /\ response_content res = Some (JStr (concat (map toString chunks))).
Proof.
  intros Hstep. destruct (negb (ok response)); [discriminate|].
  destruct (body response) as [stream|]; [|discriminate].
  intros H. eapply readLoop_synced; eauto.
Qed.

Lemma zhipu_stream prompt systemPrompt :
  contentIsChunks
    (ZhipuGLM.generateDocStream E env config prompt systemPrompt true).
Proof.
  unfold ZhipuGLM.generateDocStream. apply after_fetch.
  intros resp w1 w' res. apply body_loop, zhipu_onLine.
Qed.

Lemma qianfan_stream prompt systemPrompt :
  contentIsChunks
    (ErnieQianfan.generateDocStream E env config prompt systemPrompt true).
Proof.
  unfold ErnieQianfan.generateDocStream. apply after_fetch.
  intros resp w1 w' res. apply body_loop, qianfan_onLine.
Qed.

Lemma oauth_stream prompt systemPrompt :
  contentIsChunks
    (ErnieOAuth.generateDocStream E env config prompt systemPrompt true).
Proof.
  unfold ErnieOAuth.generateDocStream. intros w w' res. unfold bindIO at 1.
  pose proof (getAccessToken_silent E env config w) as Hs. unfold silent in Hs.
  destruct (ErnieOAuth.getAccessToken E env config w) as [w1 [tok|e|]];
    try discriminate.
  intros H. apply after_fetch in H.
  - destruct H as (chunks & He & Hc). exists chunks.
    simpl in Hs. split; [congruence|exact Hc].
  - intros resp w2 w3 res'. apply body_loop, oauth_onLine.
Qed.

End StreamingResults.

Section SocketResults.

Import XfyunSpark.

Variable E : Engine.
Variable config : LLMConfig.
Variable creds : Credentials.

Lemma resolve_synced w0 w s u :
  synced w0 w (fullContent s) ->
  stepInSync w0 w
    (Resolve {| response_content := Some (JStr (fullContent s));
                usage := u |}).
Proof.
  intros (chunks & He & Hc). exists chunks. simpl. now rewrite Hc.
Qed.

Lemma message_synced w0 w st data :
  synced w0 w (fullContent (locals st)) ->
  match message E true st data w with
  | (w', Ret step) => stepInSync w0 w' step
  | (w', Throw _) => w' = w
  | (w', Diverge) => True
  end.
Proof.
  intros Hs. unfold message, parseJson.
  rewrite bind_lift. destruct (JSON_parse E data) as [e|j]; [reflexivity|].
  rewrite bind_lift. destruct (get_cases E j (lit "header")) as [-> | ->];
    [reflexivity|].
  rewrite bind_lift. destruct (get E (prop j (lit "header")) (lit "code"))
    as [code_| |]; try reflexivity.
  destruct (isNot0 code_); [exact I|].
  set (text := optProp (optProp (optProp (Some j) (lit "payload"))
                                (lit "choices")) (lit "text")).
  set (u := optProp (optProp (optProp (Some j) (lit "payload"))
                             (lit "usage")) (lit "text")).
  set (final := is2 (optProp (prop j (lit "header")) (lit "status"))).
  assert (Hend : forall w1 s1,
             synced w0 w1 (fullContent s1) ->
             stepInSync w0 w1
               (if final
                then Resolve
                       {| response_content :=
                            Some (JStr (fullContent
                                          (if truthyV u
                                           then setUsage s1 (usageOf u)
                                           else s1)));
                          usage := streamUsage
                                     (if truthyV u
                                      then setUsage s1 (usageOf u) else s1) |}
                else Continue
                       (withLocals st
                          (if truthyV u then setUsage s1 (usageOf u)
                           else s1)))).
  { intros w1 s1 H1. destruct final.
    - apply resolve_synced. now destruct (truthyV u).
    - simpl. now destruct (truthyV u). }
  unfold bindIO at 1.
  destruct (truthyV text && positive E (optBind text lengthOf)).
  - rewrite bind_lift.
    destruct (get E (optFirst text) (lit "content")) as [c| |];
      try reflexivity.
    destruct (deliver_synced (locals st) (orV c (Some (JStr []))) Hs)
      as (w1 & s1 & -> & H1 & _).
    specialize (Hend w1 s1 H1). fold u final. now destruct final.
  - unfold ret at 1. specialize (Hend w (locals st) Hs).
    fold u final. now destruct final.
Qed.

Lemma handle_synced prompt systemPrompt w0 w st ev :
  synced w0 w (fullContent (locals st)) ->
  match handle E config creds true prompt systemPrompt st ev w with
  | (w', Ret step) => stepInSync w0 w' step
  | (w', _) => True
  end.
Proof.
  intros Hs. destruct ev as [|data|msg| |]; simpl.
  - exact Hs.
  - unfold tryCatch. pose proof (message_synced st data Hs) as Hm.
    destruct (message E true st data w) as [w1 [step|e|]];
      [exact Hm| |exact I].
    subst w1. exact Hs.
  - exact I.
  - unfold ret. destruct (negb _); [exact I|exact Hs].
  - unfold ret. destruct (readyState st); try exact Hs. exact I.
Qed.

Lemma run_synced prompt systemPrompt evs :
  forall w0 w st w' r,
    synced w0 w (fullContent (locals st)) ->
    run E config creds true prompt systemPrompt evs st w = (w', Ret r) ->
    exists chunks,
      emitted w' = emitted w0 ++ chunks
      /\ response_content r = Some (JStr (concat (map toString chunks))).
Proof.
  induction evs as [|ev rest IH]; intros w0 w st w' r Hs; simpl.
  - discriminate.
  - unfold bindIO.
    pose proof (handle_synced prompt systemPrompt st ev Hs) as Hh.
    destruct (handle E config creds true prompt systemPrompt st ev w)
      as [w1 [[st1|r1|e1]|e|]]; try discriminate.
    + apply IH. exact Hh.
    + unfold ret. intros [= <- <-]. exact Hh.
Qed.

Lemma xfyun_stream socket prompt systemPrompt :
  contentIsChunks
    (generateDocStream E config creds socket prompt systemPrompt true).
Proof.
  intros w w' r. unfold generateDocStream.
  destruct (moduleError socket); [discriminate|].
  unfold bindIO at 1. simpl.
  intros H. eapply run_synced in H; [exact H|].
  exists []. simpl. now rewrite app_nil_r.
Qed.

End SocketResults.

Section MockResults.

Variable getMockContent : DocumentType -> jsstring.

Lemma mock_chunks content w :
  foldIO (fun (_ : unit) word => callOnChunk true (Some (JStr word)))
         (splitUnits content) tt w
  = ({| requests := requests w;
        clockReads := clockReads w;
        emitted := emitted w ++ map (fun c => Some (JStr [c])) content;
        cache := cache w |}, Ret tt).
Proof.
  revert w; induction content as [|c t IH]; intros w; simpl.
  - unfold ret. rewrite app_nil_r. now destruct w.
  - unfold bindIO, callOnChunk at 1. rewrite IH. simpl.
    now rewrite <- app_assoc.
Qed.

Lemma concat_units (content : jsstring) :
  concat (map toString (map (fun c => Some (JStr [c])) content)) = content.
Proof. induction content as [|c t IH]; simpl; [reflexivity|now rewrite IH]. Qed.

End MockResults.

(* ================================================================= *)
(** * A run of Backend A *)

(** The scenario of the specification: two frames and the terminator give
    Hello, in two chunks. *)
Example zhipu_hello :
  exists w',
    ZhipuGLM.generateDocStream (engineOf helloFrames) helloEnv zhipuConfig
      (lit "hi") None true world0
    = (w', Ret {| response_content := Some (JStr (lit "Hello"));
                  usage := None |})
    /\ emitted w' = [Some (JStr (lit "Hel")); Some (JStr (lit "lo"))].
Proof. eexists. split; vm_compute; reflexivity. Qed.

(* ================================================================= *)
(** * Streaming: the theorem *)

(** C9.  The mock generator passes the canned content to the callback one
    code unit at a time and returns that content.  For each adapter, when a
    streaming call with a callback returns, the content of its result is
    the concatenation, in order, of the chunks it passed to the callback
    (a chunk that is not a string counts by its string form). *)
Theorem streamed_content_is_chunks :
  (forall getMockContent request uuid date w,
      exists w' res chunks,
        MockDocGenerator.generateStream getMockContent request uuid date w
        = (w', Ret res)
        /\ emitted w' = emitted w ++ chunks
        /\ chunks = map (fun c => Some (JStr [c]))
                        (getMockContent (req_docType request))
        /\ result_content res = Some (JStr (concat (map toString chunks))))
  /\ (forall E env config prompt systemPrompt,
         contentIsChunks
           (ZhipuGLM.generateDocStream E env config prompt systemPrompt true))
  /\ (forall E env config prompt systemPrompt,
         contentIsChunks
           (ErnieOAuth.generateDocStream E env config prompt systemPrompt
              true))
  /\ (forall E env config prompt systemPrompt,
         contentIsChunks
           (ErnieQianfan.generateDocStream E env config prompt systemPrompt
              true))
  /\ (forall E config creds socket prompt systemPrompt,
         contentIsChunks
           (XfyunSpark.generateDocStream E config creds socket prompt
              systemPrompt true)).
Proof.
  split; [|split; [|split; [|split]]].
  - intros getMockContent request uuid date w.
    unfold MockDocGenerator.generateStream, bindIO.
    rewrite mock_chunks. eexists. eexists. eexists.
    split; [reflexivity|]. simpl.
    split; [reflexivity|]. split; [reflexivity|].
    now rewrite concat_units.
  - intros. apply zhipu_stream.
  - intros. apply oauth_stream.
  - intros. apply qianfan_stream.
  - intros. apply xfyun_stream.
Qed.

(** The Hello run of Backend A is an instance. *)
Lemma streamed_content_is_chunks_witness :
  exists chunks,
    chunks = [Some (JStr (lit "Hel")); Some (JStr (lit "lo"))]
    /\ concat (map toString chunks) = lit "Hello".
Proof.
  destruct streamed_content_is_chunks as (_ & Hz & _).
  destruct zhipu_hello as (w' & Hrun & Hem).
  destruct (Hz _ _ _ _ _ _ _ _ Hrun) as (chunks & He & Hc).
  exists chunks. simpl in He. rewrite Hem in He. subst chunks.
  split; reflexivity.
Defined.

(* ================================================================= *)
(** * SSE frames that are skipped *)

Section SkippedFrames.

Lemma startsWith_app (p x : jsstring) : startsWith (p ++ x) p = true.
Proof.
  induction p as [|c t IH]; simpl; [now destruct x|].
  now rewrite N.eqb_refl.
Qed.

Lemma sliceFrom_app (p x : jsstring) :
  sliceFrom (p ++ x) (Z.of_nat (length p)) = x.
Proof.
  unfold sliceFrom, slice, clampIndex. rewrite length_app.
  replace (Z.of_nat (length p) <? 0)%Z with false
    by (symmetry; apply Z.ltb_ge; lia).
  replace (Z.of_nat (length p + length x) <? 0)%Z with false
    by (symmetry; apply Z.ltb_ge; lia).
  rewrite !Z.min_l by lia.
  rewrite Nat2Z.id, skipn_app, skipn_all, Nat.sub_diag. simpl.
  apply firstn_all2. lia.
Qed.

Lemma data_line (x : jsstring) :
  startsWith (DATA_PREFIX ++ x) DATA_PREFIX = true
  /\ sliceFrom (DATA_PREFIX ++ x) 6 = x.
Proof. split; [apply startsWith_app|apply (sliceFrom_app DATA_PREFIX)]. Qed.

Variable E : Engine.

(** C10.  In Backend A the terminator frame and every frame whose payload
    the parser rejects are skipped: the line handler returns the state it
    was given and leaves the world as it was, so that no chunk is passed,
    nothing is accumulated, no error is raised, and the loop goes on.  In
    Backend B the terminator is skipped likewise, but a rejected payload is
    skipped only if the message of the parser's error does not contain the
    text by which the adapter recognises its own errors: if it does, the
    handler of either variant throws the parser's error again, which ends
    the loop and the call. *)
Theorem sse_rejected_frames onChunk st w :
  ZhipuGLM.onLine E onChunk st (DATA_PREFIX ++ DONE) w = (w, Ret st)
  /\ ErnieQianfan.onLine E onChunk st (DATA_PREFIX ++ DONE) w = (w, Ret st)
  /\ forall payload e,
       JSON_parse E payload = inl e ->
       ZhipuGLM.onLine E onChunk st (DATA_PREFIX ++ payload) w = (w, Ret st)
       /\ (includes (exn_message e) ERNIE_API_ERROR = false ->
           ErnieQianfan.onLine E onChunk st (DATA_PREFIX ++ payload) w
           = (w, Ret st)
           /\ ErnieOAuth.onLine E onChunk st (DATA_PREFIX ++ payload) w
              = (w, Ret st))
       /\ (includes (exn_message e) ERNIE_API_ERROR = true ->
           (eqb payload DONE = false ->
            ErnieQianfan.onLine E onChunk st (DATA_PREFIX ++ payload) w
            = (w, Throw e))
           /\ ErnieOAuth.onLine E onChunk st (DATA_PREFIX ++ payload) w
              = (w, Throw e)).
Proof.
  unfold ZhipuGLM.onLine, ErnieQianfan.onLine, ErnieOAuth.onLine.
  split; [|split].
  - destruct (data_line DONE) as [-> ->]. reflexivity.
  - destruct (data_line DONE) as [-> ->]. reflexivity.
  - intros payload e Hp. destruct (data_line payload) as [-> ->].
    split; [|split; intros Hm; split].
    + destruct (eqb payload DONE); [reflexivity|].
      unfold tryCatch, ZhipuGLM.frame. rewrite bind_lift, Hp. reflexivity.
    + destruct (eqb payload DONE); [reflexivity|].
      unfold tryCatch, ErnieQianfan.frame, parseJson.
      rewrite bind_lift, Hp. unfold rethrowOwn. now rewrite Hm.
    + unfold tryCatch, ErnieOAuth.frame, parseJson.
      rewrite bind_lift, Hp. unfold rethrowOwn. now rewrite Hm.
    + intros ->. unfold tryCatch, ErnieQianfan.frame, parseJson.
      rewrite bind_lift, Hp. unfold rethrowOwn. now rewrite Hm.
    + unfold tryCatch, ErnieOAuth.frame, parseJson.
      rewrite bind_lift, Hp. unfold rethrowOwn. now rewrite Hm.
Qed.

End SkippedFrames.

(** Under an engine whose error message quotes the rejected text, as
    that of V8 does, the payload that is the adapter's own error text is
    rejected by the parser with a message that contains it.  Backend A
    skips the frame; both variants of Backend B throw the parser's error.
    On a stream that is this one frame, the streaming call of Backend A
    returns the empty content and that of the Qianfan adapter throws. *)
Lemma sse_rejected_frames_witness :
  let E := engineOf [] in
  let payload := ERNIE_API_ERROR in
  let e := SyntaxError (notJsonMessage payload) in
  JSON_parse E payload = inl e
  /\ ZhipuGLM.onLine E true streamStart (DATA_PREFIX ++ payload) world0
     = (world0, Ret streamStart)
  /\ ErnieQianfan.onLine E true streamStart (DATA_PREFIX ++ payload) world0
     = (world0, Throw e)
  /\ ErnieOAuth.onLine E true streamStart (DATA_PREFIX ++ payload) world0
     = (world0, Throw e)
  /\ snd (ZhipuGLM.generateDocStream E rejectedEnv zhipuConfig (lit "hi")
            None true world0)
     = Ret {| response_content := Some (JStr []); usage := None |}
  /\ snd (ErnieQianfan.generateDocStream E rejectedEnv zhipuConfig
            (lit "hi") None true world0)
     = Throw e.
Proof.
  intros E payload e.
  destruct (@sse_rejected_frames E true streamStart world0) as (_ & _ & H).
  destruct (H payload e eq_refl) as (Ha & _ & Hb).
  destruct (Hb ltac:(vm_compute; reflexivity)) as [Hq Ho].
  split; [reflexivity|]. split; [exact Ha|].
  split; [apply Hq; vm_compute; reflexivity|]. split; [exact Ho|].
  split; vm_compute; reflexivity.
Defined.

(** A payload that is not JSON and whose error message is harmless is
    skipped by Backend B too. *)
Example sse_harmless_payload_skipped :
  let E := engineOf [] in
  JSON_parse E (lit "oops") = inl (SyntaxError (notJsonMessage (lit "oops")))
  /\ ErnieQianfan.onLine E true streamStart (DATA_PREFIX ++ lit "oops") world0
     = (world0, Ret streamStart).
Proof. intros E. split; vm_compute; reflexivity. Qed.

(* ================================================================= *)
(** * Backend B: the token cache *)

Section TokenCacheFacts.

Variable E : Engine.
Variable env : Env.
Variable config : LLMConfig.















End TokenCacheFacts.


(** The arithmetic of [Double] is that of the machine: on the samples
    the expiry computed on primitive floats is the one of the model. *)
Example expiry_as_on_the_machine :
  map (fun p => machineExpiry (fst p) (snd p)) expirySamples
  = map (fun p => modelExpiry (fst p) (snd p)) expirySamples.
Proof. vm_compute. reflexivity. Qed.


(* ================================================================= *)
(** * The matcher makes progress *)

Section MatcherProgress.

Lemma advance_pos n c :
  n <= length (rest c) -> pos (advance n c) = pos c + n.
Proof.
  revert c; induction n as [|n IH]; intros [pv s i]; simpl; [lia|].
  destruct s as [|y t]; simpl; [lia|].
  intros H. rewrite IH by (simpl; lia). simpl. lia.
Qed.

Lemma advance_rest n c : rest (advance n c) = skipn n (rest c).
Proof.
  revert c; induction n as [|n IH]; intros [pv s i]; simpl; [reflexivity|].
  destruct s as [|y t]; simpl; [reflexivity|]. now rewrite IH.
Qed.

Lemma advance_add n m c :
  n <= length (rest c) -> advance m (advance n c) = advance (n + m) c.
Proof.
  revert c; induction n as [|n IH]; intros [pv s i]; simpl; [reflexivity|].
  destruct s as [|y t]; simpl; [lia|].
  intros H. apply IH. simpl. lia.
Qed.

Lemma reaches_refl c : reaches c c.
Proof. exists 0. split; [lia|reflexivity]. Qed.

Lemma reaches_trans a b c : reaches a b -> reaches b c -> reaches a c.
Proof.
  intros (n & Hn & ->) (m & Hm & ->).
  rewrite advance_rest, length_skipn in Hm.
  exists (n + m). split; [lia|]. now apply advance_add.
Qed.

Lemma reaches_step pv y t i :
  reaches (Cursor pv (y :: t) i) (Cursor (Some y) t (S i)).
Proof. exists 1. split; [simpl; lia|reflexivity]. Qed.

Lemma reaches_pos c c' : reaches c c' -> pos c <= pos c'.
Proof. intros (n & Hn & ->). rewrite advance_pos by exact Hn. lia. Qed.

Lemma reaches_rest c c' :
  reaches c c' -> rest c' = skipn (pos c' - pos c) (rest c)
                  /\ pos c' - pos c <= length (rest c).
Proof.
  intros (n & Hn & ->). rewrite advance_pos by exact Hn.
  replace (pos c + n - pos c) with n by lia.
  split; [apply advance_rest|exact Hn].
Qed.

(** Whatever a match hands to its continuation lies at least [minLen]
    units further in the subject. *)
Lemma run_progress r : forall c cs (k : K) res,
  run r c cs k = Some res ->
  exists c' cs', k c' cs' = Some res /\ reaches c c'
                 /\ pos c + minLen r <= pos c'.
Proof.
  induction r as [|x|p|a IHa b IHb|a IHa b IHb|g a IHa|i a IHa| | | |];
    intros c cs k res; cbn [run minLen].
  - intros H. exists c, cs. split; [exact H|]. split; [apply reaches_refl|lia].
  - destruct c as [pv [|y t] i]; simpl; [discriminate|].
    destruct (x =? y)%N; [|discriminate]. intros H.
    eexists _, _. split; [exact H|]. split; [apply reaches_step|simpl; lia].
  - destruct c as [pv [|y t] i]; simpl; [discriminate|].
    destruct (p y); [|discriminate]. intros H.
    eexists _, _. split; [exact H|]. split; [apply reaches_step|simpl; lia].
  - intros H. apply IHa in H. destruct H as (c1 & cs1 & H & Hr1 & Hp1).
    apply IHb in H. destruct H as (c2 & cs2 & H & Hr2 & Hp2).
    exists c2, cs2. split; [exact H|].
    split; [eapply reaches_trans; eauto|lia].
  - unfold orElse. destruct (run a c cs k) as [res'|] eqn:Ha.
    + intros [= <-]. apply IHa in Ha. destruct Ha as (c1 & cs1 & H & Hr & Hp).
      exists c1, cs1. split; [exact H|]. split; [exact Hr|lia].
    + intros Hb. apply IHb in Hb. destruct Hb as (c1 & cs1 & H & Hr & Hp).
      exists c1, cs1. split; [exact H|]. split; [exact Hr|lia].
  - generalize (S (length (rest c))) as fuel. intros fuel; revert c cs.
    induction fuel as [|n IH]; intros c cs; cbn [star_loop].
    + intros H. exists c, cs. split; [exact H|].
      split; [apply reaches_refl|lia].
    + assert (Hmore :
        run a c cs (fun c' cs' =>
          if pos c' =? pos c then None else star_loop (run a) g k n c' cs')
        = Some res ->
        exists c' cs', k c' cs' = Some res /\ reaches c c'
                       /\ pos c + 0 <= pos c').
      { intros H. apply IHa in H. destruct H as (c1 & cs1 & H & Hr1 & Hp1).
        destruct (pos c1 =? pos c); [discriminate|].
        apply IH in H. destruct H as (c2 & cs2 & H & Hr2 & Hp2).
        exists c2, cs2. split; [exact H|].
        split; [eapply reaches_trans; eauto|].
        apply reaches_pos in Hr1. lia. }
      assert (Hstop : k c cs = Some res ->
        exists c' cs', k c' cs' = Some res /\ reaches c c'
                       /\ pos c + 0 <= pos c').
      { intros H. exists c, cs. split; [exact H|].
        split; [apply reaches_refl|lia]. }
      unfold orElse. destruct g.
      * destruct (run a c cs _) as [res'|] eqn:Hm.
        -- intros [= <-]. now apply Hmore.
        -- exact Hstop.
      * destruct (k c cs) as [res'|] eqn:Hk.
        -- intros [= <-]. now apply Hstop.
        -- exact Hmore.
  - intros H. apply IHa in H. destruct H as (c1 & cs1 & H & Hr & Hp).
    eexists _, _. split; [exact H|]. split; [exact Hr|exact Hp].
  - destruct (prev c); [discriminate|]. intros H.
    exists c, cs. split; [exact H|]. split; [apply reaches_refl|lia].
  - destruct (atBol c); [|discriminate]. intros H.
    exists c, cs. split; [exact H|]. split; [apply reaches_refl|lia].
  - destruct (atEol c); [|discriminate]. intros H.
    exists c, cs. split; [exact H|]. split; [apply reaches_refl|lia].
  - destruct (rest c); [|discriminate]. intros H.
    exists c, cs. split; [exact H|]. split; [apply reaches_refl|lia].
Qed.

End MatcherProgress.

(* ================================================================= *)
(** * Searching and the match loops *)

Section SearchFacts.

Lemma suffixOf_refl s : suffixOf s s.
Proof. now exists []. Qed.

Lemma suffixOf_trans a b c : suffixOf a b -> suffixOf b c -> suffixOf a c.
Proof.
  intros [p ->] [q ->]. exists (q ++ p). now rewrite app_assoc.
Qed.

Lemma suffixOf_skipn n s : suffixOf (skipn n s) s.
Proof. exists (firstn n s). now rewrite firstn_skipn. Qed.

Lemma suffixOf_length t s : suffixOf t s -> length t <= length s.
Proof. intros [p ->]. rewrite length_app. lia. Qed.

Lemma search_matchIn r : forall s p i m,
  search r p s i = Some m ->
  exists pv t,
    suffixOf t s
    /\ run r (Cursor pv t (index m)) [] accept = Some (after m, groups m).
Proof.
  induction s as [|x t IH]; intros p i m; rewrite search_unfold;
    fold accept.
  - destruct (run r (Cursor p [] i) [] accept) as [[c' cs]|] eqn:Hr;
      [|discriminate].
    intros [= <-]. exists p, []. split; [apply suffixOf_refl|exact Hr].
  - destruct (run r (Cursor p (x :: t) i) [] accept) as [[c' cs]|] eqn:Hr.
    + intros [= <-]. exists p, (x :: t). split; [apply suffixOf_refl|exact Hr].
    + intros H. apply IH in H. destruct H as (pv & u & Hs & H).
      exists pv, u. split; [|exact H].
      eapply suffixOf_trans; [exact Hs|]. now exists [x].
Qed.

Lemma accept_inv c cs res : accept c cs = Some res -> res = (c, cs).
Proof. now intros [= <-]. Qed.

(** A match ends at least [minLen] units after it starts, inside the
    subject. *)
Lemma matchIn_after r code m :
  matchIn r code m ->
  index m + minLen r <= pos (after m) /\ suffixOf (rest (after m)) code
  /\ (1 <= minLen r -> exists t, suffixOf t code
                                 /\ length (rest (after m)) < length t).
Proof.
  intros (pv & t & Hs & Hr).
  apply run_progress in Hr. destruct Hr as (c' & cs' & Hk & Hreach & Hpos).
  apply accept_inv in Hk. injection Hk as <- _.
  destruct (reaches_rest Hreach) as [Hrest Hle]. simpl in *.
  split; [exact Hpos|]. split.
  - rewrite Hrest. eapply suffixOf_trans; [apply suffixOf_skipn|exact Hs].
  - intros H1. exists t. split; [exact Hs|].
    rewrite Hrest, length_skipn. lia.
Qed.

Lemma exec_loop_matchIn r code : forall fuel c ms,
  suffixOf (rest c) code ->
  exec_loop r fuel c = Some ms -> Forall (matchIn r code) ms.
Proof.
  induction fuel as [|n IH]; intros c ms Hc; simpl; [discriminate|].
  unfold exec. destruct (search r (prev c) (rest c) (pos c)) as [m|] eqn:Hm.
  - destruct (pos (after m) <=? index m); [discriminate|].
    destruct (exec_loop r n (after m)) as [ms'|] eqn:Hrec; [|discriminate].
    intros [= <-].
    assert (Hf : matchIn r code m).
    { apply search_matchIn in Hm. destruct Hm as (pv & t & Hs & Hr).
      exists pv, t. split; [|exact Hr]. eapply suffixOf_trans; eauto. }
    constructor; [exact Hf|].
    eapply IH; [|exact Hrec]. now apply matchIn_after in Hf.
  - intros [= <-]. constructor.
Qed.

(** The loop over the matches of a global expression ends when no match
    is empty. *)
Lemma exec_loop_total r : 1 <= minLen r -> forall fuel c,
  length (rest c) < fuel -> exists ms, exec_loop r fuel c = Some ms.
Proof.
  intros Hmin; induction fuel as [|n IH]; intros c Hlen; [lia|]. simpl.
  unfold exec. destruct (search r (prev c) (rest c) (pos c)) as [m|] eqn:Hm;
    [|now exists []].
  assert (Hf : matchIn r (rest c) m).
  { apply search_matchIn in Hm. destruct Hm as (pv & t & Hs & Hr).
    now exists pv, t. }
  destruct (matchIn_after Hf) as (Hpos & _ & Hlt).
  destruct (Hlt Hmin) as (t & Hs & Hl). apply suffixOf_length in Hs.
  replace (pos (after m) <=? index m) with false
    by (symmetry; apply Nat.leb_gt; lia).
  destruct (IH (after m)) as [ms Hms]; [lia|].
  rewrite Hms. now eexists.
Qed.

Lemma exec_all_total r code :
  1 <= minLen r ->
  exists ms, exec_all r code = Some ms /\ Forall (matchIn r code) ms.
Proof.
  intros Hmin. destruct (@exec_loop_total r Hmin (S (length code)) (start code))
    as [ms Hms]; [simpl; lia|].
  exists ms. split; [exact Hms|].
  eapply exec_loop_matchIn; [|exact Hms]. apply suffixOf_refl.
Qed.

End SearchFacts.

(* ================================================================= *)
(** * The indentation analyzer returns *)

Section PythonTotality.

Import PythonParser.

Lemma mapM_total {A B} (f : A -> outcome B) (P : A -> Prop) l :
  (forall a, P a -> exists b, f a = Ret b) ->
  Forall P l -> exists bs, mapM f l = Ret bs.
Proof.
  intros Hf; induction 1 as [|a t Ha _ [bs IH]]; simpl; [now eexists|].
  destruct (Hf a Ha) as [b ->]. simpl. rewrite IH. simpl. now eexists.
Qed.

Lemma includes_suffix t s p :
  suffixOf t s -> startsWith t p = true -> includes s p = true.
Proof.
  intros [pre ->] Ht. unfold includes, indexOf. generalize 0 as i.
  induction pre as [|x u IH]; intros i.
  - destruct t; cbn [app indexOf_from]; rewrite Ht; reflexivity.
  - cbn [app indexOf_from].
    destruct (startsWith (x :: u ++ t) p); [reflexivity|]. apply IH.
Qed.

(** A lazy star over any unit hands some later position to its
    continuation, with the captures unchanged. *)
Lemma star_any_lazy (k : K) res : forall fuel c cs,
  star_loop (run any) false k fuel c cs = Some res ->
  exists n, n <= length (rest c) /\ k (advance n c) cs = Some res.
Proof.
  induction fuel as [|f IH]; intros c cs; cbn [star_loop].
  - intros H. exists 0. split; [lia|exact H].
  - unfold orElse. destruct (k c cs) as [res'|] eqn:Hk.
    + intros [= <-]. exists 0. split; [lia|exact Hk].
    + destruct c as [pv [|y t] i]; cbn [run any rest pos]; [discriminate|].
      destruct (S i =? i); [discriminate|].
      intros H. apply IH in H. destruct H as (n & Hn & H).
      exists (S n). split; [simpl in *; lia|exact H].
Qed.

Lemma run_text s : forall c cs (k : K),
  run (text s) c cs k
  = if startsWith (rest c) s then k (advance (length s) c) cs else None.
Proof.
  induction s as [|x t IH]; intros [pv r i] cs k; cbn [text run rest pos].
  - now destruct r.
  - destruct r as [|y u]; [reflexivity|]. cbn [startsWith length advance rest pos].
    destruct (x =? y)%N; [|reflexivity]. now rewrite IH.
Qed.

Lemma startsWith_twice (s p q : jsstring) :
  startsWith s p = true -> startsWith (skipn (length p) s) q = true ->
  startsWith s (p ++ q) = true.
Proof.
  revert s; induction p as [|x t IH]; intros s; simpl.
  - intros _ H. exact H.
  - destruct s as [|y u]; simpl; [intros H; discriminate H|].
    destruct (x =? y)%N; simpl; [apply IH|intros H; discriminate H].
Qed.

(** The operand of [trim] in the docstring loop is [undefined] only at
    six double quotes in a row. *)
Lemma docstring_operand code m :
  matchIn docstringRegex code m ->
  includes code sixQuotes = false ->
  exists c, orStr (group 1 m) (group 2 m) = Some c.
Proof.
  intros (pv & t & Hs & Hr) Hfree. unfold docstringRegex in Hr.
  cbn [run seq] in Hr. unfold orElse in Hr.
  set (c0 := Cursor pv t (index m)) in *.
  destruct (run (text dq3) c0 [] _) as [res|] eqn:Hdq in Hr.
  - injection Hr as ->. rewrite run_text in Hdq.
    destruct (startsWith (rest c0) dq3) eqn:H1; [|discriminate].
    remember (advance (length dq3) c0) as c1 eqn:Hc1.
    unfold few in Hdq. rewrite run_Star in Hdq.
    apply star_any_lazy in Hdq. destruct Hdq as (n & Hn & Hdq).
    rewrite run_text in Hdq.
    destruct (startsWith (rest (advance n c1)) dq3) eqn:H2; [|discriminate].
    unfold accept in Hdq. injection Hdq as _ Hg.
    unfold group. rewrite <- Hg. cbn [lookup Nat.eqb].
    rewrite advance_pos by exact Hn.
    replace (pos c1 + n - pos c1) with n by lia.
    destruct (firstn n (rest c1)) as [|y u] eqn:Hf; [|eexists; reflexivity].
    exfalso.
    assert (Hn0 : n = 0).
    { destruct n as [|n]; [reflexivity|].
      destruct (rest c1) as [|z v] eqn:Hrest; [|discriminate].
      rewrite advance_rest, Hrest in H2. now destruct n. }
    subst n. cbn [advance] in H2. rewrite Hc1, advance_rest in H2.
    assert (H6 : startsWith t sixQuotes = true)
      by (apply startsWith_twice; assumption).
    rewrite (includes_suffix _ Hs H6) in Hfree. discriminate.
  - clear Hdq. rewrite run_text in Hr.
    destruct (startsWith (rest c0) sq3); [|discriminate].
    unfold few in Hr. rewrite run_Star in Hr.
    apply star_any_lazy in Hr. destruct Hr as (n & Hn & Hr).
    rewrite run_text in Hr.
    destruct (startsWith _ sq3); [|discriminate].
    unfold accept in Hr. injection Hr as _ Hg.
    unfold group. rewrite <- Hg. cbn [lookup Nat.eqb orStr].
    eexists; reflexivity.
Qed.

Lemma count_firstn c n s : count c (firstn n s) <= count c s.
Proof.
  rewrite <- (firstn_skipn n s) at 2. rewrite count_app. lia.
Qed.

(** The line of a match is a line of the source. *)
Lemma block_of_match code i :
  exists b, extractPythonBlock (split code LF) (lineOf code i - 1) = Ret b.
Proof.
  unfold extractPythonBlock.
  destruct (nth_error (split code LF) (lineOf code i - 1)) as [l|] eqn:Hl;
    [now eexists|].
  apply nth_error_None in Hl. unfold lineOf, split in *.
  rewrite slice_prefix, !length_split_aux in Hl.
  pose proof (count_firstn LF i code). lia.
Qed.

Lemma regexes_consume :
  1 <= minLen simpleImportRegex /\ 1 <= minLen fromImportRegex
  /\ 1 <= minLen docstringRegex /\ 1 <= minLen classRegex
  /\ 1 <= minLen funcRegex.
Proof. repeat split; apply Nat.leb_le; vm_compute; reflexivity. Qed.

(** The indentation analyzer returns on every source without six double
    quotes in a row. *)
Lemma parsePython_returns code name :
  includes code sixQuotes = false ->
  exists md, parsePython code name = Ret md
             /\ fileName md = name /\ language md = lit "python"
             /\ rawCode md = code.
Proof.
  intros Hfree.
  destruct regexes_consume as (H1 & H2 & H3 & H4 & H5).
  destruct (@exec_all_total _ code H1) as (ms1 & E1 & _).
  destruct (@exec_all_total _ code H2) as (ms2 & E2 & _).
  destruct (@exec_all_total _ code H3) as (ms3 & E3 & F3).
  destruct (@exec_all_total _ code H4) as (ms4 & E4 & F4).
  destruct (@exec_all_total _ code H5) as (ms5 & E5 & F5).
  assert (Hc : exists bs, mapM (blockComment code) ms3 = Ret bs).
  { eapply mapM_total; [|exact F3]. intros m Hm. unfold blockComment.
    destruct (docstring_operand Hm Hfree) as [c ->]. now eexists. }
  assert (Hk : exists cs, mapM (pythonClass code (split code LF)) ms4 = Ret cs).
  { eapply mapM_total with (P := fun _ => True);
      [|now apply Forall_forall].
    intros m _. unfold pythonClass.
    destruct (block_of_match code (index m)) as [b ->]. simpl. now eexists. }
  assert (Hf : exists fs,
             mapM (pythonFunction code (split code LF)) ms5 = Ret fs).
  { eapply mapM_total with (P := fun _ => True);
      [|now apply Forall_forall].
    intros m _. unfold pythonFunction.
    destruct (_ && _); [now eexists|].
    destruct (block_of_match code (index m)) as [b ->]. simpl. now eexists. }
  destruct Hc as [bs Hc], Hk as [cs Hk], Hf as [fs Hf].
  unfold parsePython, extractPythonImports, extractPythonComments,
    extractPythonClasses, extractPythonFunctions.
  rewrite E1, E2, E3, E4, E5. simpl. rewrite Hc. simpl. rewrite Hk. simpl.
  rewrite Hf. simpl. eexists. split; [reflexivity|]. now repeat split.
Qed.

End PythonTotality.

(* ================================================================= *)
(** * The result of the syntax-tree analyzer *)

Section StringFacts.

Lemma eqb_eq (a b : jsstring) : eqb a b = true <-> a = b.
Proof.
  revert b; induction a as [|x a IH]; intros [|y b]; simpl;
    try (split; [discriminate|congruence]); [tauto|].
  rewrite andb_true_iff, N.eqb_eq, IH. split; [intros [-> ->]|intros [= -> ->]];
    auto.
Qed.

Lemma eqb_refl (a : jsstring) : eqb a a = true.
Proof. now apply eqb_eq. Qed.

End StringFacts.

Section JavaScriptShape.

Import Babel JsParser.

Lemma visitDeclarator_header parent md d :
  sameHeader md (visitDeclarator parent md d).
Proof.
  unfold visitDeclarator.
  destruct (vd_id d); try (now repeat split);
    destruct (vd_init d) as [[f|f|]|]; now repeat split.
Qed.

Lemma sameHeader_trans a b c :
  sameHeader a b -> sameHeader b c -> sameHeader a c.
Proof.
  intros (H1 & H2 & H3 & H4) (K1 & K2 & K3 & K4).
  repeat split; congruence.
Qed.

Lemma visit_header md v : sameHeader md (visit md v).
Proof.
  destruct v as [n|n p|n p|ds p|n p|d|ss]; simpl; try (now repeat split).
  - destruct (f_id n); now repeat split.
  - assert (H : forall md0, sameHeader md0
                              (fold_left (visitDeclarator p) ds md0)).
    { induction ds as [|d t IH]; intros md0; simpl; [now repeat split|].
      eapply sameHeader_trans; [apply visitDeclarator_header|apply IH]. }
    destruct p; try (now repeat split); apply H.
  - destruct d; now repeat split.
Qed.

Lemma traversal_header vs : forall md,
  sameHeader md (fold_left visit vs md).
Proof.
  induction vs as [|v t IH]; intros md; simpl; [now repeat split|].
  eapply sameHeader_trans; [apply visit_header|apply IH].
Qed.

Lemma visitDeclarator_keeps parent md d :
  classes (visitDeclarator parent md d) = classes md
  /\ interfaces (visitDeclarator parent md d) = interfaces md
  /\ imports (visitDeclarator parent md d) = imports md.
Proof.
  unfold visitDeclarator.
  destruct (vd_id d); try (now repeat split);
    destruct (vd_init d) as [[f|f|]|]; now repeat split.
Qed.

Lemma declarators_keep parent ds : forall md,
  classes (fold_left (visitDeclarator parent) ds md) = classes md
  /\ interfaces (fold_left (visitDeclarator parent) ds md) = interfaces md
  /\ imports (fold_left (visitDeclarator parent) ds md) = imports md.
Proof.
  induction ds as [|d t IH]; intros md; simpl; [now repeat split|].
  destruct (IH (visitDeclarator parent md d)) as (H1 & H2 & H3).
  destruct (visitDeclarator_keeps parent md d) as (K1 & K2 & K3).
  repeat split; congruence.
Qed.

Lemma traversal_collects vs : forall md,
  let md' := fold_left visit vs md in
  classes md'
  = classes md
    ++ map (fun n => extractClassInfo n (comments md)) (visitedClasses vs)
  /\ interfaces md'
     = interfaces md
       ++ map (fun n => extractInterfaceInfo n (comments md))
              (visitedInterfaces vs)
  /\ imports md' = imports md ++ map importInfo (visitedImports vs).
Proof.
  induction vs as [|v t IH]; intros md; cbn [fold_left].
  - simpl. now rewrite !app_nil_r.
  - destruct (IH (visit md v)) as (H1 & H2 & H3).
    destruct (visit_header md v) as (_ & _ & _ & Hc).
    cbv zeta. rewrite H1, H2, H3, Hc. clear IH H1 H2 H3 Hc.
    destruct v as [n|n p|n p|ds p|n p|d|ss];
      cbn [visit visitedClasses visitedInterfaces visitedImports flat_map
           app map];
      try (now repeat split).
    + cbn [pushImport imports classes interfaces].
      rewrite <- app_assoc. now repeat split.
    + cbn [pushExports pushClass imports classes interfaces].
      rewrite <- app_assoc. now repeat split.
    + destruct (f_id n); now repeat split.
    + destruct p; try (now repeat split);
        destruct (declarators_keep Program ds md) as (K1 & K2 & K3),
                 (declarators_keep ExportNamedDeclaration ds md)
                   as (L1 & L2 & L3);
        repeat split;
        first [rewrite K1|rewrite K2|rewrite K3
              |rewrite L1|rewrite L2|rewrite L3]; reflexivity.
    + cbn [pushExports pushInterface imports classes interfaces].
      rewrite <- app_assoc. now repeat split.
    + destruct d; now repeat split.
Qed.

Variable parse : jsstring -> bool -> exn + File.

Lemma parseJavaScript_header code name lang :
  let md := parseJavaScript parse code name lang in
  fileName md = name /\ language md = lang /\ rawCode md = code.
Proof.
  unfold parseJavaScript.
  destruct (parse code _) as [e|ast]; [now repeat split|].
  match goal with
  | |- context [fold_left visit ?vs ?m] =>
      destruct (traversal_header vs m) as (H1 & H2 & H3 & _)
  end.
  cbv zeta. rewrite H1, H2, H3.
  destruct (ast_comments ast); now repeat split.
Qed.

(** X1.  When Babel parses the file, the comments of the result are
    Babel's comments, converted, in order; and the classes, the interfaces
    and the imports are those of the declarations that the traversal
    visits, one each, in the order of the visits, every class and
    interface related to the whole comment list of the file. *)
Theorem parseJavaScript_collects code name lang isTS ast :
  isTS = (eqb lang (lit "typescript") || endsWith name (lit ".ts")
          || endsWith name (lit ".tsx")) ->
  parse code isTS = inr ast ->
  let md := parseJavaScript parse code name lang in
  comments md = fileComments ast
  /\ classes md
     = map (fun n => extractClassInfo n (fileComments ast))
           (visitedClasses (traversal ast))
  /\ interfaces md
     = map (fun n => extractInterfaceInfo n (fileComments ast))
           (visitedInterfaces (traversal ast))
  /\ imports md = map importInfo (visitedImports (traversal ast)).
Proof.
  intros -> Hp. unfold parseJavaScript. rewrite Hp. cbv zeta.
  match goal with
  | |- context [fold_left visit ?vs ?m] =>
      destruct (traversal_header vs m) as (_ & _ & _ & Hc);
      destruct (traversal_collects vs m) as (H1 & H2 & H3)
  end.
  cbv zeta in H1, H2, H3. rewrite Hc, H1, H2, H3. unfold fileComments.
  destruct (ast_comments ast); now repeat split.
Qed.

End JavaScriptShape.

(** The module of the example: one comment, one class, one import. *)
Lemma parseJavaScript_collects_witness :
  let md := JsParser.parseJavaScript shapeParser shapeSource
              (lit "shape.js") (lit "javascript") in
  map content (comments md) = [lit "shapes"]
  /\ map class_name (classes md) = [lit "Shape"]
  /\ map source (imports md) = [lit "./base"].
Proof.
  intros md.
  destruct (@parseJavaScript_collects shapeParser shapeSource
              (lit "shape.js") (lit "javascript") false shapeAst
              eq_refl eq_refl) as (Hc & Hk & _ & Hi).
  fold md in Hc, Hk, Hi. rewrite Hc, Hk, Hi. repeat split.
Defined.

(* ================================================================= *)
(** * The entry point returns *)

Section EntryPoint.

Import PythonParser CodeParser.

Variable parse : jsstring -> bool -> exn + JsParser.File.

(** X2.  On every source that does not hold six double quotes in a row,
    whatever the file name and the language asked for, the entry point
    returns: it neither throws nor loops.  The metadata it returns carries
    the file name and the source it was given, and as language the one it
    settled on, or unknown. *)
Theorem parseCode_returns code name lang :
  includes code sixQuotes = false ->
  exists md,
    parseCode parse code name lang = Ret md
    /\ fileName md = name /\ rawCode md = code
    /\ language md
       = must (orStr (detectedLanguage name lang) (Some (lit "unknown"))).
Proof.
  intros Hfree. unfold parseCode. fold (detectedLanguage name lang).
  destruct (detectedLanguage name lang) as [[|c l]|] eqn:Hd;
    cbn [truthyOpt negb orb must orStr];
    try (eexists; split; [reflexivity|now repeat split]).
  destruct (isLanguageSupported (c :: l)); cbn [negb];
    [|eexists; split; [reflexivity|now repeat split]].
  destruct (eqb (c :: l) (lit "javascript") || eqb (c :: l) (lit "typescript")).
  - eexists. split; [reflexivity|].
    destruct (parseJavaScript_header parse code name (c :: l))
      as (H1 & H2 & H3).
    now repeat split.
  - destruct (eqb (c :: l) (lit "python")) eqn:Hpy;
      [|eexists; split; [reflexivity|now repeat split]].
    apply eqb_eq in Hpy.
    destruct (@parsePython_returns code name Hfree) as (md & Hmd & H1 & H2 & H3).
    exists md. rewrite Hpy. now repeat split.
Qed.

Hypothesis parse_located :
  forall code isTypeScript ast,
    parse code isTypeScript = inr ast -> wellLocated ast.

(** X3.  With Babel's locations ordered, on every source that does not
    hold six double quotes in a row the entry point returns metadata in
    which every class, function, interface and comment starts no later
    than it ends. *)
Theorem parseCode_spans code name lang :
  includes code sixQuotes = false ->
  exists md, parseCode parse code name lang = Ret md /\ spansOrdered md.
Proof.
  intros Hfree. unfold parseCode.
  assert (Hempty : forall l, spansOrdered (JsParser.emptyMetadata name l code))
    by (intros l; repeat split; constructor).
  destruct (_ || _); [eexists; split; [reflexivity|apply Hempty]|].
  destruct (_ || _).
  - eexists. split; [reflexivity|]. now apply parseJavaScript_spans.
  - destruct (eqb _ (lit "python"));
      [|eexists; split; [reflexivity|apply Hempty]].
    destruct (@parsePython_returns code name Hfree) as (md & Hmd & _).
    exists md. split; [exact Hmd|]. eapply parsePython_spans; eauto.
Qed.

End EntryPoint.

(** The module of the example, analyzed through Babel. *)
Lemma parseCode_spans_witness :
  exists md,
    CodeParser.parseCode shapeParser shapeSource (lit "shape.js") None
    = Ret md
    /\ spansOrdered md.
Proof.
  apply (@parseCode_spans shapeParser); [|vm_compute; reflexivity].
  intros code isTS ast. unfold shapeParser.
  destruct (eqb code shapeSource); [|intros H; discriminate H].
  intros [= <-]. split; simpl.
  - repeat constructor.
  - repeat constructor.
Defined.

(** The scenario of the specification is such a source. *)
Lemma parseCode_returns_witness :
  exists md,
    CodeParser.parseCode noParser fooSource (lit "foo.py") None = Ret md
    /\ rawCode md = fooSource /\ language md = lit "python".
Proof.
  destruct (@parseCode_returns noParser fooSource (lit "foo.py") None)
    as (md & H & _ & Hr & Hl); [vm_compute; reflexivity|].
  exists md. split; [exact H|]. split; [exact Hr|exact Hl].
Defined.

(* ================================================================= *)
(** * Languages and file extensions *)

Section Extensions.

Import CodeParser.

Lemma lastIndexOf_from_app i acc a b c :
  lastIndexOf_from i acc (a ++ b) c
  = lastIndexOf_from (i + Z.of_nat (length a))
      (lastIndexOf_from i acc a c) b c.
Proof.
  revert i acc; induction a as [|x t IH]; intros i acc; simpl app.
  - simpl. now rewrite Z.add_0_r.
  - cbn [lastIndexOf_from length]. rewrite IH. f_equal. lia.
Qed.

Lemma lastIndexOf_from_absent i acc s c :
  count c s = 0 -> lastIndexOf_from i acc s c = acc.
Proof.
  revert i; induction s as [|x t IH]; intros i; simpl; [reflexivity|].
  destruct (x =? c)%N; [discriminate|]. intros H. now apply IH.
Qed.

Lemma lastIndexOf_last_dot base ext :
  count DOT ext = 0 ->
  lastIndexOf (base ++ DOT :: ext) DOT = Z.of_nat (length base).
Proof.
  intros H. unfold lastIndexOf. rewrite lastIndexOf_from_app.
  cbn [lastIndexOf_from]. rewrite N.eqb_refl.
  rewrite lastIndexOf_from_absent by exact H. lia.
Qed.

Lemma assoc_nonempty k v : assoc k EXTENSION_MAP = Some v -> v <> [].
Proof.
  unfold EXTENSION_MAP. cbn [assoc].
  repeat (destruct (eqb k _); [intros [= <-]; discriminate|]).
  discriminate.
Qed.

Lemma orStr_assoc k :
  orStr (assoc k EXTENSION_MAP) None = assoc k EXTENSION_MAP.
Proof.
  destruct (assoc k EXTENSION_MAP) as [[|c v]|] eqn:H; try reflexivity.
  now apply assoc_nonempty in H.
Qed.

(** X4.  The language of a file name is decided by its last extension
    alone, whatever the letter case: the text from the last dot on is
    lower-cased and looked up in the extension table. *)
Theorem getLanguageFromFileName_extension base ext :
  count DOT ext = 0 ->
  getLanguageFromFileName (base ++ DOT :: ext)
  = assoc (toLowerCase (DOT :: ext)) EXTENSION_MAP.
Proof.
  intros H. unfold getLanguageFromFileName.
  rewrite lastIndexOf_last_dot by exact H.
  rewrite sliceFrom_app. apply orStr_assoc.
Qed.

Lemma eqb_length (a b : jsstring) :
  length a <> length b -> eqb a b = false.
Proof.
  intros H. destruct (eqb a b) eqn:E; [|reflexivity].
  apply eqb_eq in E. now subst.
Qed.

Lemma assoc_short k : length k <= 1 -> assoc k EXTENSION_MAP = None.
Proof.
  intros H. unfold EXTENSION_MAP. cbn [assoc].
  rewrite !eqb_length; [reflexivity|..];
    match goal with |- _ <> length ?s =>
      let n := eval vm_compute in (length s) in
      change (length s) with n; lia
    end.
Qed.

Lemma length_toLowerCase s : length (toLowerCase s) = length s.
Proof. apply length_map. Qed.

(** X5.  A file name without a dot has no language: the text looked up is
    then the last unit of the name, at most. *)
Theorem getLanguageFromFileName_no_dot name :
  count DOT name = 0 -> getLanguageFromFileName name = None.
Proof.
  intros H. unfold getLanguageFromFileName, lastIndexOf.
  rewrite lastIndexOf_from_absent by exact H.
  rewrite assoc_short; [reflexivity|].
  rewrite length_toLowerCase. unfold sliceFrom, slice, clampIndex.
  replace (-1 <? 0)%Z with true by reflexivity.
  replace (Z.of_nat (length name) <? 0)%Z with false
    by (symmetry; apply Z.ltb_ge; lia).
  rewrite length_firstn, length_skipn. lia.
Qed.

(** X6.  A language inferred from a file name is always a supported
    one. *)
Theorem getLanguageFromFileName_supported name l :
  getLanguageFromFileName name = Some l -> isLanguageSupported l = true.
Proof.
  unfold getLanguageFromFileName. rewrite orStr_assoc.
  unfold EXTENSION_MAP. cbn [assoc].
  repeat (destruct (eqb _ _); [intros [= <-]; vm_compute; reflexivity|]).
  discriminate.
Qed.

End Extensions.

Lemma getLanguageFromFileName_extension_witness :
  CodeParser.getLanguageFromFileName
    (lit "my.component" ++ CodeParser.DOT :: lit "TSX")
  = Some (lit "typescript").
Proof.
  rewrite (@getLanguageFromFileName_extension (lit "my.component") (lit "TSX"));
    [vm_compute; reflexivity|vm_compute; reflexivity].
Defined.

Lemma getLanguageFromFileName_no_dot_witness :
  CodeParser.getLanguageFromFileName (lit "Makefile") = None.
Proof.
  apply getLanguageFromFileName_no_dot. vm_compute. reflexivity.
Defined.

Lemma getLanguageFromFileName_supported_witness :
  CodeParser.isLanguageSupported (lit "python") = true.
Proof.
  apply (@getLanguageFromFileName_supported (lit "a.py")).
  vm_compute. reflexivity.
Defined.

(* ================================================================= *)
(** * Summary, visibility and docstrings *)

Section SummaryFacts.

Import CodeParser.

Variable parse : jsstring -> bool -> exn + JsParser.File.

(** X7.  For a file in no supported language the readable summary of what
    the entry point returns is its three opening lines and the empty line
    after them: the title, the file name, and the language settled on, or
    unknown. *)
Theorem generateCodeSummary_degraded code name lang :
  let detected := detectedLanguage name lang in
  truthyOpt detected = false \/ isLanguageSupported (must detected) = false ->
  exists md,
    parseCode parse code name lang = Ret md
    /\ generateCodeSummary md
       = lit "## 代码分析摘要" ++ [LF]
         ++ lit "**文件**: " ++ name ++ [LF]
         ++ lit "**语言**: "
         ++ must (orStr detected (Some (lit "unknown"))) ++ [LF].
Proof.
  intros detected H. unfold parseCode. fold (detectedLanguage name lang).
  fold detected.
  replace (negb (truthyOpt detected)
           || negb (isLanguageSupported (must detected))) with true
    by (destruct H as [-> | ->]; simpl; [reflexivity|now rewrite orb_true_r]).
  eexists. split; [reflexivity|].
  unfold generateCodeSummary, summaryHeader, summarySections. simpl.
  reflexivity.
Qed.

End SummaryFacts.

Lemma generateCodeSummary_degraded_witness :
  exists md,
    CodeParser.parseCode noParser (lit "puts 1") (lit "a.rb") None = Ret md
    /\ CodeParser.generateCodeSummary md
       = lit "## 代码分析摘要" ++ [LF] ++ lit "**文件**: a.rb" ++ [LF]
         ++ lit "**语言**: unknown" ++ [LF].
Proof.
  destruct (@generateCodeSummary_degraded noParser (lit "puts 1") (lit "a.rb")
              None (or_introl eq_refl)) as (md & H & Hs).
  exists md. split; [exact H|]. rewrite Hs. vm_compute. reflexivity.
Defined.

Section VisibilityFacts.

Import PythonParser.

Lemma startsWith_nil (s : jsstring) : startsWith s [] = true.
Proof. now destruct s. Qed.

Lemma lit_underscore : lit "_" = [95%N].
Proof. reflexivity. Qed.

Lemma lit_underscores : lit "__" = [95%N; 95%N].
Proof. reflexivity. Qed.

(** X8.  A method is public exactly when its name does not start with an
    underscore, and private exactly when it starts with two underscores
    and does not end with two; so a name in double underscores on both
    sides, such as an initialiser, is protected. *)
Theorem methodVisibility_cases methodName :
  (methodVisibility methodName = public
   <-> startsWith methodName (lit "_") = false)
  /\ (methodVisibility methodName = private
      <-> startsWith methodName (lit "__") = true
          /\ endsWith methodName (lit "__") = false)
  /\ (forall inner,
        methodVisibility (lit "__" ++ inner ++ lit "__") = protected).
Proof.
  split; [|split].
  - unfold methodVisibility. rewrite lit_underscore, lit_underscores.
    destruct methodName as [|c [|d t]]; cbn -[N.eqb];
      rewrite ?startsWith_nil;
      repeat match goal with
             | |- context [(95 =? ?x)%N] =>
                 destruct (95 =? x)%N; cbn -[N.eqb]
             | |- context [negb ?b] => destruct b; cbn -[N.eqb]
             end;
      split; intros H; first [reflexivity|discriminate H].
  - unfold methodVisibility.
    destruct (startsWith methodName (lit "__")),
             (endsWith methodName (lit "__")),
             (startsWith methodName (lit "_")); simpl;
      split; try (intros H; discriminate H);
      try (intros [H1 H2]; first [discriminate H1|discriminate H2]);
      auto.
  - intros inner. unfold methodVisibility.
    rewrite startsWith_app.
    replace (endsWith (lit "__" ++ inner ++ lit "__") (lit "__")) with true
      by (symmetry; rewrite app_assoc; apply endsWith_app).
    reflexivity.
Qed.

End VisibilityFacts.

Section DocstringFacts.

Import PythonParser.

Lemma slice_middle (q text : jsstring) :
  length q = 3 -> slice (q ++ text ++ q) 3 (-3) = text.
Proof.
  intros Hq. destruct q as [|a [|b [|c [|d q]]]]; try discriminate Hq.
  unfold slice, clampIndex.
  set (len := Z.of_nat (length ([a; b; c] ++ text ++ [a; b; c]))).
  assert (Hlen : len = (Z.of_nat (length text) + 6)%Z)
    by (unfold len; rewrite !length_app; simpl length; lia).
  replace (3 <? 0)%Z with false by reflexivity.
  replace (-3 <? 0)%Z with true by reflexivity.
  rewrite Z.min_l by lia. rewrite Z.max_l by lia.
  replace (Z.to_nat (len + -3 - 3)) with (length text) by lia.
  change (Z.to_nat 3) with 3. cbn [app skipn].
  rewrite firstn_app, firstn_all, Nat.sub_diag. simpl. apply app_nil_r.
Qed.

Lemma slice_head (q s : jsstring) :
  length q = 3 -> slice (q ++ s) 0 3 = q.
Proof.
  intros Hq. change 3%Z with (Z.of_nat 3). rewrite slice_prefix, <- Hq.
  rewrite firstn_app, firstn_all, Nat.sub_diag. simpl. apply app_nil_r.
Qed.

(** X9.  A docstring that opens and closes on the first line of a body is
    returned without its quotes and without the white space around its
    text. *)
Theorem extractDocstring_one_line header line body quote text :
  quote = dq3 \/ quote = sq3 ->
  text <> [] ->
  trim line = quote ++ text ++ quote ->
  extractDocstring (header :: line :: body) = Some (trim text).
Proof.
  intros Hq Ht Hl.
  assert (Hlen : length quote = 3) by (destruct Hq as [-> | ->]; reflexivity).
  unfold extractDocstring. cbn [skipn scanDocstring]. rewrite Hl.
  replace (startsWith (quote ++ text ++ quote) dq3
           || startsWith (quote ++ text ++ quote) sq3) with true.
  - rewrite slice_head by exact Hlen.
    replace (endsWith (quote ++ text ++ quote) quote) with true
      by (symmetry; rewrite app_assoc; apply endsWith_app).
    replace (6 <? length (quote ++ text ++ quote)) with true.
    + cbn [andb]. now rewrite slice_middle.
    + symmetry. apply Nat.ltb_lt. rewrite !length_app, Hlen.
      destruct text; [congruence|simpl; lia].
  - symmetry. destruct Hq as [-> | ->].
    + now rewrite startsWith_app.
    + rewrite (startsWith_app sq3). apply orb_true_r.
Qed.

(** X10.  A docstring is looked for on the first four lines of a body only:
    when none of them, trimmed, starts with three quotes, there is none,
    whatever follows. *)
Theorem extractDocstring_window block :
  Forall (fun l => startsWith (trim l) dq3 = false
                   /\ startsWith (trim l) sq3 = false)
         (firstn 4 (skipn 1 block)) ->
  extractDocstring block = None.
Proof.
  unfold extractDocstring. generalize (skipn 1 block) as ls. clear block.
  generalize 4 as n. induction n as [|n IH]; intros ls H.
  - now destruct ls.
  - destruct ls as [|l ls]; [reflexivity|]. cbn [firstn] in H.
    apply Forall_cons_iff in H. destruct H as [[H1 H2] H].
    cbn [scanDocstring]. rewrite H1, H2. cbn [orb]. now apply IH.
Qed.

End DocstringFacts.

Lemma extractDocstring_one_line_witness :
  PythonParser.extractDocstring
    [lit "def f():"; lit "    '''Adds.  '''"; lit "    return 1"]
  = Some (lit "Adds.").
Proof.
  rewrite (@extractDocstring_one_line (lit "def f():") (lit "    '''Adds.  '''")
             [lit "    return 1"] PythonParser.sq3 (lit "Adds.  "));
    [vm_compute; reflexivity|now right|discriminate|vm_compute; reflexivity].
Defined.

Lemma extractDocstring_window_witness :
  PythonParser.extractDocstring
    [lit "def f():"; lit "    a = 1"; lit "    b = 2"; lit "    c = 3";
     lit "    d = 4"; lit "    '''late'''"]
  = None.
Proof.
  apply extractDocstring_window.
  repeat (constructor; [split; vm_compute; reflexivity|]). constructor.
Defined.

(* ================================================================= *)
(** * Text requests and the analysis of truncated code *)

Section TextRequests.

Import PromptBuilder Templates.

Variable parse : jsstring -> bool -> exn + JsParser.File.

(** X11.  A text request is built without the analyzer and without
    truncation, whatever its length and whether or not it names a file:
    the builder returns, the prompt has no metadata, and the user prompt
    holds the whole content under the heading of the description. *)
Theorem buildFromRequest_text config request :
  req_type request = InputText ->
  exists bp,
    buildFromRequest parse config request = Ret bp
    /\ metadata bp = None
    /\ systemPrompt bp = SYSTEM_PROMPTS (req_docType request)
    /\ exists before after,
         userPrompt bp
         = before ++ lit "## 需求描述" ++ [LF] ++ req_content request
             ++ [LF] ++ after.
Proof.
  intros Ht. unfold buildFromRequest. rewrite Ht. simpl.
  eexists. split; [reflexivity|]. simpl.
  split; [reflexivity|]. split; [reflexivity|].
  unfold generateUserPrompt.
  set (tail := (if truthyOpt (req_additionalContext request)
                then [lit "## 补充说明"; must (req_additionalContext request);
                      []]
                else [])
               ++ [lit "## 输出要求";
                   getOutputRequirements (req_docType request)]).
  exists (getTaskDescription (req_docType request) ++ [LF] ++ [LF]).
  exists ([LF] ++ join [LF] tail).
  change ([getTaskDescription (req_docType request); []]
          ++ [lit "## 需求描述"; req_content request; []] ++ tail)
    with ([getTaskDescription (req_docType request); [];
           lit "## 需求描述"; req_content request; []] ++ tail).
  assert (Ht' : tail <> []).
  { unfold tail. destruct (truthyOpt _); discriminate. }
  rewrite join_app by (try discriminate; exact Ht').
  cbn [join]. now rewrite <- !app_assoc.
Qed.

End TextRequests.

Lemma buildFromRequest_text_witness :
  exists bp,
    PromptBuilder.buildFromRequest noParser PromptBuilder.defaultConfig
      {| req_type := InputText; req_docType := requirements;
         req_content := lit "a shop"; req_fileName := Some (lit "shop.py");
         req_language := None; req_additionalContext := None |} = Ret bp
    /\ metadata bp = None.
Proof.
  destruct (@buildFromRequest_text noParser PromptBuilder.defaultConfig
              {| req_type := InputText; req_docType := requirements;
                 req_content := lit "a shop";
                 req_fileName := Some (lit "shop.py");
                 req_language := None; req_additionalContext := None |}
              eq_refl) as (bp & H & Hm & _).
  exists bp. split; [exact H|exact Hm].
Defined.

Section AnalyzeCode.

Import PythonParser CodeParser PromptBuilder.

Variable parse : jsstring -> bool -> exn + JsParser.File.

Lemma parsePython_keeps code name md :
  parsePython code name = Ret md -> fileName md = name /\ rawCode md = code.
Proof.
  unfold parsePython.
  destruct (extractPythonImports code); simpl; try discriminate.
  destruct (extractPythonComments _ _); simpl; try discriminate.
  destruct (extractPythonClasses _ _); simpl; try discriminate.
  destruct (extractPythonFunctions _ _); simpl; try discriminate.
  intros [= <-]. now split.
Qed.

(** Whatever the entry point returns carries the file name and the source
    it was given. *)
Lemma parseCode_keeps code name lang md :
  parseCode parse code name lang = Ret md ->
  fileName md = name /\ rawCode md = code.
Proof.
  unfold parseCode. destruct (_ || _); [intros [= <-]; now split|].
  destruct (_ || _).
  - intros [= <-].
    destruct (parseJavaScript_header parse code name
                (must (orStr lang (getLanguageFromFileName name))))
      as (H1 & _ & H3).
    now split.
  - destruct (eqb _ _); [apply parsePython_keeps|intros [= <-]; now split].
Qed.

(** X12.  [analyzeCode] analyzes the truncated code: under a non-empty file
    name it returns what the entry point returns on the code cut to the
    budget of the generator's prompt builder, so that the raw code of the
    metadata is the truncated code; it throws when the entry point does.
    Under an empty file name it returns no metadata at all. *)
Theorem analyzeCode_truncated g code name :
  DocGenerator.analyzeCode parse g code [] = Ret None
  /\ (name <> [] ->
      let truncated := truncateCode (DocGenerator.promptBuilder g) code in
      match parseCode parse truncated name None with
      | Ret md =>
          DocGenerator.analyzeCode parse g code name = Ret (Some md)
          /\ fileName md = name /\ rawCode md = truncated
      | Throw e => DocGenerator.analyzeCode parse g code name = Throw e
      | Diverge => DocGenerator.analyzeCode parse g code name = Diverge
      end).
Proof.
  split; [reflexivity|].
  intros Hne truncated.
  unfold DocGenerator.analyzeCode, buildFromCode, buildFromRequest.
  destruct name as [|c f]; [congruence|]. cbn [req_type req_fileName
    req_content req_language]. fold truncated.
  destruct (parseCode parse truncated (c :: f) None) as [md|e|] eqn:Hp;
    simpl; try reflexivity.
  split; [reflexivity|]. now apply parseCode_keeps in Hp.
Qed.

End AnalyzeCode.

(** A generator whose budget is five units, on a source of two lines. *)
Lemma analyzeCode_truncated_witness :
  let g := {| DocGenerator.llmAdapter :=
                Adapter.zhipu (engineOf []) helloEnv zhipuConfig;
              DocGenerator.promptBuilder :=
                {| PromptBuilder.includeCodeSummary := true;
                   PromptBuilder.maxCodeLength := 5;
                   PromptBuilder.config_language := None |} |} in
  exists md,
    DocGenerator.analyzeCode noParser g (lit "x = 1" ++ [LF] ++ lit "y = 2")
      (lit "a.py") = Ret (Some md)
    /\ rawCode md = lit "x = 1" ++ PromptBuilder.truncationMarker.
Proof.
  intros g.
  pose proof (proj2 (@analyzeCode_truncated noParser g
                       (lit "x = 1" ++ [LF] ++ lit "y = 2") (lit "a.py"))
                ltac:(discriminate)) as H.
  cbv zeta in H.
  destruct (CodeParser.parseCode noParser _ (lit "a.py") None)
    as [md|e|] eqn:Hp;
    [|exfalso; vm_compute in Hp; discriminate
     |exfalso; vm_compute in Hp; discriminate].
  destruct H as (Ha & _ & Hr). exists md. split; [exact Ha|].
  rewrite Hr. vm_compute. reflexivity.
Defined.

(* ================================================================= *)
(** * Titles *)

Section TitleFacts.

Import DocGenerator.

(** Greedy iteration over a class takes the longest run first: when the
    continuation accepts after it, that is the match. *)
Lemma star_class_longest p (k : K) res : forall fuel pv s i cs,
  length s < fuel ->
  k (skipWhile p pv s i) cs = Some res ->
  star_loop (run (Cls p)) true k fuel (Cursor pv s i) cs = Some res.
Proof.
  induction fuel as [|n IH]; intros pv s i cs Hlen Hk; [lia|].
  destruct s as [|x t]; cbn [star_loop run rest pos skipWhile] in *.
  - exact Hk.
  - destruct (p x) eqn:Hp.
    + rewrite (proj2 (Nat.eqb_neq (S i) i)) by lia.
      rewrite IH; [reflexivity|simpl in Hlen; lia|exact Hk].
    + exact Hk.
Qed.

(** Iteration over a class fails when the continuation fails everywhere
    in the run of the class. *)
Lemma star_class_none p g (k : K) : forall fuel pv s i cs,
  (forall n, n <= length (takeWhile p s) ->
             k (advance n (Cursor pv s i)) cs = None) ->
  star_loop (run (Cls p)) g k fuel (Cursor pv s i) cs = None.
Proof.
  induction fuel as [|f IH]; intros pv s i cs Hk; cbn [star_loop].
  - apply (Hk 0). lia.
  - assert (H0 : k (Cursor pv s i) cs = None) by (apply (Hk 0); lia).
    assert (Hmore :
      run (Cls p) (Cursor pv s i) cs
        (fun c' cs' =>
           if pos c' =? pos (Cursor pv s i) then None
           else star_loop (run (Cls p)) g k f c' cs') = None).
    { destruct s as [|x t]; cbn [run rest pos]; [reflexivity|].
      destruct (p x) eqn:Hp; [|reflexivity].
      destruct (S i =? i); [reflexivity|].
      apply IH. intros n Hn. apply (Hk (S n)).
      simpl. rewrite Hp. simpl. lia. }
    rewrite Hmore, H0. now destruct g.
Qed.

Lemma skipWhile_all p pv s i :
  forallb p s = true -> rest (skipWhile p pv s i) = [].
Proof.
  revert pv i; induction s as [|x t IH]; intros pv i; simpl; [reflexivity|].
  destruct (p x); [apply IH|discriminate].
Qed.

Lemma takeWhile_stop p u x v :
  p x = false -> length (takeWhile p (u ++ x :: v)) <= length u.
Proof.
  intros Hx; induction u as [|y t IH]; simpl.
  - rewrite Hx. simpl. lia.
  - destruct (p y); simpl; lia.
Qed.

Lemma inExtension_dot : inExtension CodeParser.DOT = false.
Proof. reflexivity. Qed.

Lemma run_extension pv s i :
  run extensionRegex (Cursor pv s i) [] accept
  = match s with
    | x :: y :: t =>
        if (CodeParser.DOT =? x)%N then
          if inExtension y then
            star_loop (run (Cls inExtension)) true
              (fun c cs => match rest c with
                           | [] => Some (c, cs)
                           | _ :: _ => None
                           end)
              (S (length t)) (Cursor (Some y) t (S (S i))) []
          else None
        else None
    | _ => None
    end.
Proof.
  unfold extensionRegex, plus. cbn [seq run rest pos].
  destruct s as [|x [|y t]]; try reflexivity;
    destruct (CodeParser.DOT =? x)%N; reflexivity.
Qed.

(** No extension is found at a dot that another dot follows. *)
Lemma no_extension_before pv x u ext i :
  run extensionRegex (Cursor pv (x :: u ++ CodeParser.DOT :: ext) i) []
    accept = None.
Proof.
  rewrite run_extension.
  destruct u as [|y u]; cbn [app].
  - destruct (CodeParser.DOT =? x)%N; [|reflexivity].
    now rewrite inExtension_dot.
  - destruct (CodeParser.DOT =? x)%N; [|reflexivity].
    destruct (inExtension y); [|reflexivity].
    apply star_class_none. intros n Hn. rewrite advance_rest. cbn [rest].
    pose proof (@takeWhile_stop inExtension u CodeParser.DOT ext inExtension_dot) as Hs.
    destruct (skipn n (u ++ CodeParser.DOT :: ext)) eqn:Hk; [|reflexivity].
    apply (f_equal (@length _)) in Hk.
    rewrite length_skipn, length_app in Hk. simpl in Hk. lia.
Qed.

(** An extension is found at the last dot. *)
Lemma extension_at_last_dot pv ext i :
  ext <> [] -> forallb inExtension ext = true ->
  exists c', run extensionRegex (Cursor pv (CodeParser.DOT :: ext) i) []
               accept = Some (c', [])
             /\ rest c' = [].
Proof.
  intros Hne Hall. rewrite run_extension.
  destruct ext as [|e ext]; [congruence|].
  rewrite N.eqb_refl. simpl in Hall. apply andb_true_iff in Hall.
  destruct Hall as [He Hall]. rewrite He.
  exists (skipWhile inExtension (Some e) ext (S (S i))).
  split; [|now apply skipWhile_all].
  apply star_class_longest; [lia|].
  now rewrite skipWhile_all.
Qed.

Lemma search_extension ext : ext <> [] -> forallb inExtension ext = true ->
  forall base pv i,
  exists m, search extensionRegex pv (base ++ CodeParser.DOT :: ext) i = Some m
            /\ index m = i + length base /\ rest (after m) = [].
Proof.
  intros Hne Hall. induction base as [|x b IH]; intros pv i;
    rewrite search_unfold; fold accept; cbn [app].
  - destruct (extension_at_last_dot pv i Hne Hall) as (c' & -> & Hr).
    eexists. split; [reflexivity|]. simpl. split; [lia|exact Hr].
  - rewrite no_extension_before.
    destruct (IH (Some x) (S i)) as (m & -> & Hi & Hr).
    exists m. split; [reflexivity|]. simpl. split; [lia|exact Hr].
Qed.

Lemma search_no_dot : forall name pv i,
  count CodeParser.DOT name = 0 ->
  search extensionRegex pv name i = None.
Proof.
  induction name as [|x t IH]; intros pv i H; rewrite search_unfold;
    fold accept; rewrite run_extension.
  - reflexivity.
  - simpl in H. rewrite N.eqb_sym.
    destruct (x =? CodeParser.DOT)%N; [discriminate|].
    destruct t; apply IH; exact H.
Qed.

(** X13.  The title of a document made from a file is the file name
    without its last extension, then the name of the document type: the
    extension is taken off when it is not empty and holds no slash.  A
    file name without a dot is kept whole. *)
Theorem generateTitle_extension docType base ext today :
  (ext <> [] -> forallb inExtension ext = true ->
   generateTitle docType (Some (base ++ CodeParser.DOT :: ext)) today
   = base ++ lit " - " ++ Templates.getDocTypeName docType)
  /\ (base <> [] -> count CodeParser.DOT base = 0 ->
      generateTitle docType (Some base) today
      = base ++ lit " - " ++ Templates.getDocTypeName docType).
Proof.
  split.
  - intros Hne Hall. unfold generateTitle.
    replace (truthyOpt (Some (base ++ CodeParser.DOT :: ext))) with true
      by now destruct base.
    cbn [must]. unfold removeFirst, match_, exec, start. cbn [prev rest pos].
    destruct (search_extension Hne Hall base None 0) as (m & -> & Hi & Hr).
    rewrite Hi, Hr. simpl Nat.add.
    rewrite firstn_app, firstn_all, Nat.sub_diag. simpl.
    now rewrite !app_nil_r.
  - intros Hne Hc. unfold generateTitle.
    replace (truthyOpt (Some base)) with true by now destruct base.
    cbn [must]. unfold removeFirst, match_, exec, start. cbn [prev rest pos].
    now rewrite search_no_dot.
Qed.

End TitleFacts.

Lemma generateTitle_extension_witness :
  DocGenerator.generateTitle api
    (Some (lit "src/app.test" ++ CodeParser.DOT :: lit "ts")) (lit "2024/1/1")
  = lit "src/app.test - API文档".
Proof.
  rewrite (proj1 (@generateTitle_extension api (lit "src/app.test") (lit "ts")
                    (lit "2024/1/1")));
    [vm_compute; reflexivity|discriminate|vm_compute; reflexivity].
Defined.

(* ================================================================= *)
(** * Calls that do not stream *)

Section SingleRequest.

Variable E : Engine.
Variable env : Env.
Variable config : LLMConfig.

(** What follows a request that does not stream leaves the world alone. *)
Lemma zhipu_generateDoc_run prompt systemPrompt w :
  let r := ZhipuGLM.chatRequest config prompt systemPrompt false in
  let w1 := {| requests := requests w ++ [r]; clockReads := clockReads w;
               emitted := emitted w; cache := cache w |} in
  fst (ZhipuGLM.generateDoc E env config prompt systemPrompt w) = w1
  /\ match net env (requests w) r with
     | inl e =>
         snd (ZhipuGLM.generateDoc E env config prompt systemPrompt w)
         = Throw e
     | inr response =>
         ok response = false ->
         snd (ZhipuGLM.generateDoc E env config prompt systemPrompt w)
         = Throw (ZhipuGLM.callFailed response)
     end.
Proof.
  cbv zeta. unfold ZhipuGLM.generateDoc, bindIO, fetch.
  destruct (net env (requests w) _) as [e|response]; [now split|].
  destruct (ok response); simpl.
  - split; [|discriminate]. unfold lift, ret.
    destruct (JSON_parse E (bodyText response)) as [e|data];
      [reflexivity|].
    destruct (get E (Some data) (lit "choices")) as [choices| |];
      try reflexivity.
    destruct (getFirst E choices); reflexivity.
  - now split.
Qed.

Lemma qianfan_generateDoc_run prompt systemPrompt w :
  let r := ErnieQianfan.chatRequest config prompt systemPrompt false in
  let w1 := {| requests := requests w ++ [r]; clockReads := clockReads w;
               emitted := emitted w; cache := cache w |} in
  fst (ErnieQianfan.generateDoc E env config prompt systemPrompt w) = w1
  /\ match net env (requests w) r with
     | inl e =>
         snd (ErnieQianfan.generateDoc E env config prompt systemPrompt w)
         = Throw e
     | inr response =>
         ok response = false ->
         snd (ErnieQianfan.generateDoc E env config prompt systemPrompt w)
         = Throw (ErnieQianfan.callFailed response)
     end.
Proof.
  cbv zeta. unfold ErnieQianfan.generateDoc, bindIO, fetch.
  destruct (net env (requests w) _) as [e|response]; [now split|].
  destruct (ok response); simpl.
  - split; [|discriminate]. unfold lift, ret, throw, parseJson.
    destruct (JSON_parse E (bodyText response)) as [e|data];
      [reflexivity|].
    destruct (get E (Some data) (lit "error")) as [error| |];
      try reflexivity.
    destruct (truthyV error); reflexivity.
  - now split.
Qed.

(** X14.  A call of [generateDoc] on Backend A or on the Qianfan adapter
    makes exactly one request, whatever comes of it, calls no callback
    and reads no clock; a failure of the network is thrown on, and an
    answer whose status is not ok is thrown as an error that names the
    status and the body. *)
Theorem generateDoc_single_request prompt systemPrompt w :
  (let r := ZhipuGLM.chatRequest config prompt systemPrompt false in
   let run := ZhipuGLM.generateDoc E env config prompt systemPrompt w in
   requests (fst run) = requests w ++ [r]
   /\ emitted (fst run) = emitted w /\ clockReads (fst run) = clockReads w
   /\ match net env (requests w) r with
      | inl e => snd run = Throw e
      | inr response =>
          if ok response then True
          else snd run
               = Throw (Error (lit "智谱API调用失败: "
                                 ++ ofNat (status response) ++ lit " - "
                                 ++ bodyText response))
      end)
  /\ (let r := ErnieQianfan.chatRequest config prompt systemPrompt false in
      let run := ErnieQianfan.generateDoc E env config prompt systemPrompt w in
      requests (fst run) = requests w ++ [r]
      /\ emitted (fst run) = emitted w /\ clockReads (fst run) = clockReads w
      /\ match net env (requests w) r with
         | inl e => snd run = Throw e
         | inr response =>
             if ok response then True
             else snd run
                  = Throw (Error (lit "文心一言API调用失败: "
                                    ++ ofNat (status response) ++ lit " - "
                                    ++ bodyText response))
         end).
Proof.
  split; cbv zeta.
  - destruct (zhipu_generateDoc_run prompt systemPrompt w) as [Hw Hr].
    cbv zeta in Hw, Hr. rewrite Hw. simpl.
    repeat split. destruct (net env _ _) as [e|response]; [exact Hr|].
    destruct (ok response); [trivial|]. now apply Hr.
  - destruct (qianfan_generateDoc_run prompt systemPrompt w) as [Hw Hr].
    cbv zeta in Hw, Hr. rewrite Hw. simpl.
    repeat split. destruct (net env _ _) as [e|response]; [exact Hr|].
    destruct (ok response); [trivial|]. now apply Hr.
Qed.

(** X15.  An answer that is a JSON object without choices: the
    non-streaming call of Backend A reads [data.choices[0]] and throws
    the engine's [TypeError]; the Qianfan adapter reads [data.choices?.[0]]
    and, the object holding no error either, returns the empty content. *)
Theorem generateDoc_without_choices prompt systemPrompt w response fields :
  ok response = true ->
  JSON_parse E (bodyText response) = inr (JObj fields) ->
  field (lit "choices") fields = None ->
  (net env (requests w)
     (ZhipuGLM.chatRequest config prompt systemPrompt false) = inr response ->
   snd (ZhipuGLM.generateDoc E env config prompt systemPrompt w)
   = Throw (nullAccess E (lit "0")))
  /\ (net env (requests w)
        (ErnieQianfan.chatRequest config prompt systemPrompt false)
      = inr response ->
      field (lit "error") fields = None ->
      exists u,
        snd (ErnieQianfan.generateDoc E env config prompt systemPrompt w)
        = Ret {| response_content := Some (JStr []); usage := u |}).
Proof.
  intros Hok Hp Hc. split.
  - intros Hn. unfold ZhipuGLM.generateDoc, bindIO, fetch.
    rewrite Hn, Hok. simpl. unfold lift. rewrite Hp. simpl.
    now rewrite Hc.
  - intros Hn He. unfold ErnieQianfan.generateDoc, bindIO, fetch.
    rewrite Hn, Hok. simpl. unfold lift, parseJson. rewrite Hp. simpl.
    rewrite He. simpl. rewrite Hc. simpl. eexists. reflexivity.
Qed.

End SingleRequest.

(** The answer of the example environment holds a result and no
    choices. *)
Lemma generateDoc_without_choices_witness :
  let E := engineOf [tokenDoc; answerDoc] in
  snd (ZhipuGLM.generateDoc E ernieEnv zhipuConfig (lit "hi") None world0)
  = Throw (nullAccess E (lit "0"))
  /\ exists u,
       snd (ErnieQianfan.generateDoc E ernieEnv zhipuConfig (lit "hi") None
              world0)
       = Ret {| response_content := Some (JStr []); usage := u |}.
Proof.
  intros E.
  destruct (@generateDoc_without_choices E ernieEnv zhipuConfig (lit "hi")
              None world0
              {| ok := true; status := 200;
                 bodyText := stringify answerDoc; body := None |}
              [(lit "result", JStr (lit "done"))]
              eq_refl ltac:(vm_compute; reflexivity) eq_refl) as [H1 H2].
  split; [apply H1; reflexivity|apply H2; reflexivity].
Defined.

(* ================================================================= *)
(** * Connection tests, the socket call and the factory *)

Section ConnectionTest.

Variable E : Engine.

Lemma includes_nil_nonempty (p : jsstring) : p <> [] -> includes [] p = false.
Proof. destruct p; [congruence|reflexivity]. Qed.

(** X16.  The connection test of Backends A and B never throws.  It
    reports no connection when [generateDoc] throws, and when the content
    that [generateDoc] returns is a string it reports a connection exactly
    when that string is not empty, whatever it says. *)
Theorem testConnection_reply
    (generateDoc : jsstring -> option jsstring -> IO LLMResponse) w :
  match generateDoc XfyunSpark.TEST_PROMPT None w with
  | (w', Ret r) =>
      match response_content r with
      | Some (JStr s) =>
          Adapter.testConnection E generateDoc w = (w', Ret (truthy s))
      | _ => exists b, Adapter.testConnection E generateDoc w = (w', Ret b)
      end
  | (w', Throw _) => Adapter.testConnection E generateDoc w = (w', Ret false)
  | (w', Diverge) => Adapter.testConnection E generateDoc w = (w', Diverge)
  end.
Proof.
  unfold Adapter.testConnection, tryCatch, bindIO.
  destruct (generateDoc XfyunSpark.TEST_PROMPT None w) as [w' [r|e|]];
    try reflexivity.
  destruct (response_content r) as [[| | |s|l|fs]|]; simpl;
    try (eexists; reflexivity).
  unfold positive. simpl. destruct s as [|c s]; [reflexivity|].
  f_equal. f_equal. apply orb_true_r.
Qed.

End ConnectionTest.

Section SocketDoc.

Import XfyunSpark.

Variable E : Engine.
Variable config : LLMConfig.
Variable creds : Credentials.

(** X17.  The non-streaming call of Backend C returns the content that
    the streaming call it makes returns, and never a usage, even when the
    stream carried one; the chunks go to a callback of its own, and the
    callback of a call around it is not called.  It throws what the
    streaming call throws. *)
Theorem xfyun_generateDoc_streams socket prompt systemPrompt w :
  match generateDocStream E config creds socket prompt systemPrompt true
          (aside w) with
  | (w1, Ret r1) =>
      exists w',
        generateDoc E config creds socket prompt systemPrompt w
        = (w', Ret {| response_content := response_content r1;
                      usage := None |})
        /\ emitted w' = emitted w /\ requests w' = requests w1
  | (w1, Throw e) =>
      exists w',
        generateDoc E config creds socket prompt systemPrompt w
        = (w', Throw e) /\ emitted w' = emitted w
  | (w1, Diverge) =>
      exists w',
        generateDoc E config creds socket prompt systemPrompt w
        = (w', Diverge)
  end.
Proof.
  unfold generateDoc, bindIO, collecting. fold (aside w).
  destruct (generateDocStream E config creds socket prompt systemPrompt true
              (aside w)) as [w1 [r1|e|]] eqn:Hs.
  - destruct (@xfyun_stream E config creds socket prompt systemPrompt _ _ _ Hs)
      as (chunks & He & Hc).
    simpl in He. subst chunks.
    eexists.
    split; [unfold ret; simpl; now rewrite Hc|split; reflexivity].
  - eexists. split; reflexivity.
  - eexists. reflexivity.
Qed.

End SocketDoc.

Section Factory.

Variable E : Engine.
Variable env : Env.
Variable socket : list Request -> XfyunSpark.Socket.

(** X18.  The factory of the adapters makes no request: whatever the
    configuration, it leaves the world as it was.  For the provider zhipu
    it always returns, even with an empty key; for a provider that is none
    of the three it throws an error that names the provider. *)
Theorem createLLMAdapter_offline config w :
  fst (Adapter.createLLMAdapter E env socket config w) = w
  /\ (provider config = lit "zhipu" ->
      snd (Adapter.createLLMAdapter E env socket config w)
      = Ret (Adapter.zhipu E env config))
  /\ (eqb (provider config) (lit "zhipu") = false ->
      eqb (provider config) (lit "ernie") = false ->
      eqb (provider config) (lit "xfyun") = false ->
      snd (Adapter.createLLMAdapter E env socket config w)
      = Throw (Error (lit "不支持的 LLM 提供商: " ++ provider config))).
Proof.
  unfold Adapter.createLLMAdapter. split; [|split].
  - destruct (eqb _ (lit "zhipu")); [reflexivity|].
    destruct (eqb _ (lit "ernie")).
    + unfold bindIO, lift, ErnieQianfan.construct.
      now destruct (negb _).
    + destruct (eqb _ (lit "xfyun")); [|reflexivity].
      unfold bindIO, XfyunSpark.construct, lift.
      now destruct (XfyunSpark.parseConfig config).
  - intros ->. reflexivity.
  - intros -> -> ->. reflexivity.
Qed.

End Factory.

(** A provider that is none of the three. *)
Lemma createLLMAdapter_offline_witness :
  let config := {| provider := lit "openai"; apiKey := lit "key";
                   model := None; secretKey := None; appId := None;
                   apiSecret := None |} in
  Adapter.createLLMAdapter (engineOf []) helloEnv idleSocket config world0
  = (world0, Throw (Error (lit "不支持的 LLM 提供商: openai"))).
Proof.
  intros config.
  destruct (@createLLMAdapter_offline (engineOf []) helloEnv idleSocket
              config world0) as (Hw & _ & Ht).
  specialize (Ht eq_refl eq_refl eq_refl).
  destruct (Adapter.createLLMAdapter _ _ _ _ _) as [w o].
  simpl in Hw, Ht. subst w o. reflexivity.
Defined.

(* ================================================================= *)
(** * The generator and the failures of the OAuth2 adapter *)

Section GeneratorFacts.

Import DocGenerator.

Variable parse : jsstring -> bool -> exn + JsParser.File.
Variable E : Engine.
Variable env : Env.
Variable socket : list Request -> XfyunSpark.Socket.

Lemma provider_stream config w0 w1 p :
  Adapter.createLLMAdapter E env socket config w0 = (w1, Ret p) ->
  forall prompt systemPrompt,
    contentIsChunks (Adapter.generateDocStream p prompt systemPrompt true).
Proof.
  unfold Adapter.createLLMAdapter.
  destruct (eqb _ (lit "zhipu")).
  - intros [= _ <-] prompt systemPrompt. apply zhipu_stream.
  - destruct (eqb _ (lit "ernie")).
    + unfold bindIO, lift. destruct (ErnieQianfan.construct config);
        try discriminate.
      intros [= _ <-] prompt systemPrompt. apply qianfan_stream.
    + destruct (eqb _ (lit "xfyun")); [|discriminate].
      unfold bindIO, XfyunSpark.construct, lift.
      destruct (XfyunSpark.parseConfig config) as [creds| |];
        try discriminate.
      intros [= _ <-] prompt systemPrompt w w' r. simpl.
      apply xfyun_stream.
Qed.

(** X19.  For a generator made from any configuration that the factory
    accepts, when a streaming generation with a callback returns, the
    content of the document is the concatenation, in order, of the chunks
    passed to the callback during the call. *)
Theorem generateStream_content_is_chunks llmConfig builder w0 w1 g :
  construct E env socket llmConfig builder w0 = (w1, Ret g) ->
  forall request uuid today date w w' res,
    generateStream parse g request true uuid today date w = (w', Ret res) ->
    exists chunks,
      emitted w' = emitted w ++ chunks
      /\ result_content res = Some (JStr (concat (map toString chunks))).
Proof.
  unfold construct, bindIO.
  destruct (Adapter.createLLMAdapter E env socket llmConfig w0)
    as [wa [p|e|]] eqn:Hp; try discriminate.
  intros [= _ <-] request uuid today date w w' res.
  unfold generateStream, bindIO, lift. cbn [llmAdapter promptBuilder].
  destruct (PromptBuilder.buildFromRequest parse _ request) as [built| |];
    try discriminate.
  destruct (Adapter.generateDocStream p (userPrompt built)
              (Some (systemPrompt built)) true w) as [wb [r|e|]] eqn:Hs;
    try discriminate.
  intros [= <- <-].
  destruct (@provider_stream _ _ _ _ Hp _ _ _ _ _ Hs) as (chunks & He & Hc).
  exists chunks. split; [exact He|exact Hc].
Qed.

(** X20.  The prompt is built before the adapter is called: when the
    analyzer throws on the truncated content of a code request, both
    generation methods throw the same error and make no request, call no
    callback and leave the adapter as it was. *)
Theorem generate_analyzer_failure g request name e :
  req_type request = InputCode ->
  req_fileName request = Some name -> name <> [] ->
  CodeParser.parseCode parse
    (PromptBuilder.truncateCode (promptBuilder g) (req_content request))
    name (req_language request) = Throw e ->
  forall onChunk uuid today date w,
    generate parse g request uuid today date w = (w, Throw e)
    /\ generateStream parse g request onChunk uuid today date w
       = (w, Throw e).
Proof.
  intros Ht Hf Hne Hp onChunk uuid today date w.
  unfold generate, generateStream, bindIO, lift,
    PromptBuilder.buildFromRequest.
  rewrite Ht, Hf. destruct name as [|c f]; [congruence|].
  rewrite Hp. simpl. now split.
Qed.

End GeneratorFacts.

(** A code request whose content is an empty docstring: the analyzer
    throws, and nothing is sent. *)
Lemma generate_analyzer_failure_witness :
  let E := engineOf helloFrames in
  let g := {| DocGenerator.llmAdapter := Adapter.zhipu E helloEnv zhipuConfig;
              DocGenerator.promptBuilder := PromptBuilder.defaultConfig |} in
  DocGenerator.generate noParser g docstringRequest (lit "id")
    (lit "2024/1/1") (lit "2024-01-01T00:00:00.000Z") world0
  = (world0, Throw undefinedAccess).
Proof.
  intros E g.
  refine (proj1 (@generate_analyzer_failure noParser g docstringRequest
                   (lit "a.py") undefinedAccess
                   eq_refl eq_refl _ _ true _ _ _ world0)).
  - discriminate.
  - vm_compute. reflexivity.
Defined.

(** The Hello run, through a generator. *)
Lemma generateStream_content_is_chunks_witness :
  let E := engineOf helloFrames in
  let g := {| DocGenerator.llmAdapter := Adapter.zhipu E helloEnv zhipuConfig;
              DocGenerator.promptBuilder := PromptBuilder.defaultConfig |} in
  exists w' res chunks,
    DocGenerator.generateStream noParser g shopRequest true (lit "id")
      (lit "2024/1/1") (lit "2024-01-01T00:00:00.000Z") world0
    = (w', Ret res)
    /\ emitted w' = chunks
    /\ result_content res = Some (JStr (concat (map toString chunks))).
Proof.
  intros E g.
  assert (Hg : DocGenerator.construct E helloEnv idleSocket zhipuConfig None
                 world0 = (world0, Ret g)) by reflexivity.
  destruct (DocGenerator.generateStream noParser g shopRequest true (lit "id")
              (lit "2024/1/1") (lit "2024-01-01T00:00:00.000Z") world0)
    as [w' [res|e|]] eqn:Hs;
    [|exfalso; vm_compute in Hs; discriminate
     |exfalso; vm_compute in Hs; discriminate].
  destruct (@generateStream_content_is_chunks noParser E helloEnv
              idleSocket zhipuConfig None world0 world0 g Hg
              shopRequest _ _ _ world0 w' res Hs) as (chunks & He & Hc).
  exists w', res, chunks. repeat split; assumption.
Defined.

Section OAuthFailures.

Variable E : Engine.
Variable env : Env.
Variable config : LLMConfig.

(** X21.  With a key that holds no colon, every generation call on an
    OAuth2 adapter that holds no token throws the error that names the
    format of the key, and makes no request. *)
Theorem oauth_key_without_colon call w :
  generation E env config call ->
  truthyV (accessToken (cache w)) = false ->
  count ErnieOAuth.COLON (apiKey config) = 0 ->
  call w = (w, Throw (ErnieOAuth.keyFormatError)).
Proof.
  intros G Ht Hc.
  assert (Hg : ErnieOAuth.getAccessToken E env config w
               = (w, Throw ErnieOAuth.keyFormatError)).
  { unfold ErnieOAuth.getAccessToken, bindIO, readCache. rewrite Ht.
    unfold ret. rewrite split_free by exact Hc. simpl.
    now rewrite orb_true_r. }
  destruct G; unfold ErnieOAuth.generateDoc, ErnieOAuth.generateDocStream,
    bindIO; now rewrite Hg.
Qed.

(** X22.  A token that has expired is not handed out.  When the clock
    has reached the cached expiry and the key is well formed, the call
    for the token makes one exchange, and the token it returns, if it
    returns, is the one of the answer to that exchange. *)
Theorem oauth_expired_token_refreshed w k s more :
  truthyV (accessToken (cache w)) = true ->
  ErnieOAuth.before (clock env (clockReads w)) (tokenExpiry (cache w))
    = false ->
  split (apiKey config) ErnieOAuth.COLON = k :: s :: more ->
  k <> [] -> s <> [] ->
  let run := ErnieOAuth.getAccessToken E env config w in
  requests (fst run) = requests w ++ [TokenRequest k s]
  /\ forall token,
       snd run = Ret token ->
       exists response data,
         net env (requests w) (TokenRequest k s) = inr response
         /\ JSON_parse E (bodyText response) = inr data
         /\ token = prop data (lit "access_token")
         /\ accessToken (cache (fst run)) = token.
Proof.
  intros Ht Hb Hs Hk Hsn. cbv zeta.
  unfold ErnieOAuth.getAccessToken, bindIO, readCache, ret, throw, lift,
    fetch, now, writeCache, parseJson.
  rewrite Ht. simpl. rewrite Hb, Hs. simpl.
  destruct k as [|k0 k']; [congruence|]. destruct s as [|s0 s'];
    [congruence|]. simpl.
  destruct (net env (requests w) _) as [e|response] eqn:Hn; simpl;
    [split; [reflexivity|discriminate]|].
  destruct (negb (ok response)); simpl; [split; [reflexivity|discriminate]|].
  destruct (JSON_parse E (bodyText response)) as [e|data] eqn:Hp; simpl;
    [split; [reflexivity|discriminate]|].
  destruct data; simpl; (split; [reflexivity|]); try discriminate;
    intros token [= <-]; eexists _, _;
    (split; [reflexivity|split; [exact Hp|split; reflexivity]]).
Qed.

End OAuthFailures.

(** The stale token is exchanged for the one that the provider grants. *)
Lemma oauth_expired_token_refreshed_witness :
  let E := engineOf [tokenDoc; answerDoc] in
  let run := ErnieOAuth.getAccessToken E ernieEnv ernieConfig staleWorld in
  requests (fst run) = [TokenRequest (lit "id") (lit "secret")]
  /\ snd run = Ret (Some (JStr (lit "tok")))
  /\ accessToken (cache (fst run)) = Some (JStr (lit "tok")).
Proof.
  intros E run.
  destruct (@oauth_expired_token_refreshed E ernieEnv ernieConfig staleWorld
              (lit "id") (lit "secret") [] eq_refl eq_refl eq_refl
              ltac:(discriminate) ltac:(discriminate)) as [H1 H2].
  fold run in H1, H2.
  assert (Hr : snd run = Ret (Some (JStr (lit "tok"))))
    by (vm_compute; reflexivity).
  split; [exact H1|]. split; [exact Hr|].
  destruct (H2 _ Hr) as (response & data & _ & _ & _ & Hc). exact Hc.
Defined.

(** A key without a colon and an adapter that holds no token. *)
Lemma oauth_key_without_colon_witness :
  let E := engineOf [tokenDoc; answerDoc] in
  ErnieOAuth.generateDoc E ernieEnv zhipuConfig (lit "hi") None world0
  = (world0, Throw ErnieOAuth.keyFormatError).
Proof.
  intros E.
  apply (@oauth_key_without_colon E ernieEnv zhipuConfig);
    [constructor|reflexivity|reflexivity].
Defined.

(* ================================================================= *)
(** * Defaults from the environment *)

Section EnvironmentDefaults.

Import LLMDefaults.

Variable processEnv : jsstring -> option jsstring.

Lemma split_head_empty s c r :
  split s c = [] :: r -> s <> [] -> exists t, s = c :: t.
Proof.
  destruct s as [|x t]; [congruence|]. rewrite split_cons.
  destruct (x =? c)%N eqn:Hx.
  - apply N.eqb_eq in Hx. subst x. intros _ _. now exists t.
  - destruct (split t c); discriminate.
Qed.

(** X23.  The ERNIE configuration read from the environment carries a
    key without a colon: of a key in the old two-part format only the part
    before the first colon is kept.  The Qianfan constructor accepts the
    configuration unless the variable starts with a colon, in which case
    the key kept is empty. *)
Theorem ernie_env_key config :
  getDefaultLLMConfigFromEnv processEnv (Some (lit "ernie")) = Some config ->
  provider config = lit "ernie"
  /\ count COLON (apiKey config) = 0
  /\ (ErnieQianfan.construct config = Ret config
      \/ (apiKey config = []
          /\ exists t, processEnv (lit "ERNIE_API_KEY") = Some (COLON :: t))).
Proof.
  unfold getDefaultLLMConfigFromEnv.
  replace (eqb (lit "ernie") (lit "zhipu")) with false by reflexivity.
  replace (eqb (lit "ernie") (lit "ernie")) with true by reflexivity.
  cbv beta iota. unfold ernieFromEnv.
  destruct (processEnv (lit "ERNIE_API_KEY")) as [[|k0 key]|];
    try discriminate.
  cbn [truthyOpt negb must]. intros [= <-]. cbn [provider apiKey].
  split; [reflexivity|].
  destruct (includes (k0 :: key) [COLON]) eqn:Hi.
  - destruct (split_parts (k0 :: key) COLON) as [Hf _].
    destruct (split (k0 :: key) COLON) as [|h r] eqn:Hs.
    + now apply split_nonempty in Hs.
    + apply Forall_cons_iff in Hf. destruct Hf as [Hh _]. cbn [nth_error must].
      split; [exact Hh|].
      destruct h as [|h0 h'].
      * right. split; [reflexivity|].
        destruct (@split_head_empty _ _ _ Hs) as [t Ht]; [discriminate|].
        injection Ht as -> ->. now exists t.
      * left. reflexivity.
  - rewrite includes_unit in Hi. apply Nat.ltb_ge in Hi.
    split; [lia|]. left. reflexivity.
Qed.

(** X24.  The Backend C configuration read from the environment always
    carries credentials in one of the two forms: the constructor may
    reject it for the format of a joined key, never for missing
    credentials; and when the three variables are set it resolves to
    their values. *)
Theorem xfyun_env_credentials config :
  getDefaultLLMConfigFromEnv processEnv (Some (lit "xfyun")) = Some config ->
  (forall e, XfyunSpark.parseConfig config = Throw e ->
             e = XfyunSpark.formatError)
  /\ (forall a k s,
        processEnv (lit "XFYUN_APP_ID") = Some a -> a <> [] ->
        processEnv (lit "XFYUN_API_KEY") = Some k -> k <> [] ->
        processEnv (lit "XFYUN_API_SECRET") = Some s -> s <> [] ->
        XfyunSpark.parseConfig config
        = Ret {| XfyunSpark.cred_appId := a;
                 XfyunSpark.cred_apiKey := k;
                 XfyunSpark.cred_apiSecret := s |}).
Proof.
  unfold getDefaultLLMConfigFromEnv.
  replace (eqb (lit "xfyun") (lit "zhipu")) with false by reflexivity.
  replace (eqb (lit "xfyun") (lit "ernie")) with false by reflexivity.
  replace (eqb (lit "xfyun") (lit "xfyun")) with true by reflexivity.
  cbv beta iota. unfold xfyunFromEnv.
  set (appId_ := processEnv (lit "XFYUN_APP_ID")).
  set (key_ := processEnv (lit "XFYUN_API_KEY")).
  set (secret_ := processEnv (lit "XFYUN_API_SECRET")).
  assert (Hm : forall o, truthy (must o) = truthyOpt o)
    by (intros [[|c t]|]; reflexivity).
  destruct (truthyOpt appId_ && truthyOpt key_ && truthyOpt secret_) eqn:H3.
  - intros [= <-]. unfold XfyunSpark.parseConfig.
    cbn [appId apiKey apiSecret]. rewrite Hm, H3.
    split; [intros e H; discriminate H|].
    intros a k s Ha _ Hk _ Hs _. now rewrite Ha, Hk, Hs.
  - destruct (truthyOpt key_ && includes (must key_) [COLON]) eqn:H2;
      [|discriminate].
    intros [= <-]. unfold XfyunSpark.parseConfig.
    cbn [appId apiKey apiSecret truthyOpt andb]. rewrite Hm.
    change XfyunSpark.COLON with COLON. rewrite H2.
    split.
    + intros e. destruct (negb _); [now intros [= <-]|discriminate].
    + intros a k s Ha Hane Hk Hkne Hs Hsne. exfalso.
      rewrite Ha, Hk, Hs in H3.
      destruct a, k, s; try congruence; discriminate H3.
Qed.

End EnvironmentDefaults.

(** The three variables set: the configuration resolves to them. *)
Lemma xfyun_env_credentials_witness :
  exists config,
    LLMDefaults.getDefaultLLMConfigFromEnv xfyunVars (Some (lit "xfyun"))
    = Some config
    /\ XfyunSpark.parseConfig config
       = Ret {| XfyunSpark.cred_appId := lit "app";
                XfyunSpark.cred_apiKey := lit "key";
                XfyunSpark.cred_apiSecret := lit "secret" |}.
Proof.
  destruct (LLMDefaults.getDefaultLLMConfigFromEnv xfyunVars
              (Some (lit "xfyun"))) as [config|] eqn:Hc;
    [|exfalso; vm_compute in Hc; discriminate].
  exists config. split; [reflexivity|].
  apply (proj2 (@xfyun_env_credentials xfyunVars config Hc));
    first [reflexivity|discriminate].
Defined.

(** The key in the old format: the part before the colon is kept. *)
Lemma ernie_env_key_witness :
  exists config,
    LLMDefaults.getDefaultLLMConfigFromEnv ernieVars (Some (lit "ernie"))
    = Some config
    /\ apiKey config = lit "id"
    /\ count LLMDefaults.COLON (apiKey config) = 0.
Proof.
  destruct (LLMDefaults.getDefaultLLMConfigFromEnv ernieVars
              (Some (lit "ernie"))) as [config|] eqn:Hc;
    [|exfalso; vm_compute in Hc; discriminate].
  exists config. split; [reflexivity|].
  split; [vm_compute in Hc; injection Hc as <-; reflexivity|].
  exact (proj1 (proj2 (@ernie_env_key ernieVars config Hc))).
Defined.

(* ================================================================= *)
(** * Properties of a class and spans within the file *)

Section PropertyFacts.

Import PythonParser.

Lemma has_false seen name : has seen name = false -> ~ In name seen.
Proof.
  unfold has. intros H Hin.
  assert (Ht : existsb (eqb name) seen = true).
  { apply existsb_exists. exists name. split; [exact Hin|apply eqb_refl]. }
  congruence.
Qed.

Lemma push_distinct st m :
  distinctSoFar st -> has (seenProperties st) (must (group 1 m)) = false ->
  distinctSoFar (push st m).
Proof.
  intros [Hf Hn] Hh. unfold distinctSoFar, push. simpl. split.
  - rewrite map_app, Hf. reflexivity.
  - constructor; [now apply has_false|exact Hn].
Qed.

Lemma initStep_distinct st l :
  distinctSoFar st -> distinctSoFar (initStep st l).
Proof.
  intros H. unfold initStep.
  destruct (matches l initRegex); [exact H|].
  destruct (inInit st); [|exact H].
  destruct (_ || _); [exact H|].
  destruct (match_ l selfPropRegex) as [m|]; [|exact H].
  destruct (has _ _) eqn:Hh; [exact H|]. now apply push_distinct.
Qed.

Lemma classLevelStep_distinct st l :
  distinctSoFar st -> distinctSoFar (classLevelStep st l).
Proof.
  intros H. unfold classLevelStep.
  destruct (match_ l classPropRegex) as [m|]; [|exact H].
  destruct (has _ _) eqn:Hh; simpl; [exact H|].
  destruct (negb _); [|exact H]. now apply push_distinct.
Qed.

Lemma fold_distinct (f : PropState -> jsstring -> PropState) ls :
  (forall st l, distinctSoFar st -> distinctSoFar (f st l)) ->
  forall st, distinctSoFar st -> distinctSoFar (fold_left f ls st).
Proof.
  intros Hf. induction ls as [|l t IH]; intros st H; simpl; [exact H|].
  apply IH, Hf, H.
Qed.

(** X25.  The properties found in a class body have distinct names: an
    attribute assigned several times in the initialiser, or assigned
    there and declared at class level, is listed once. *)
Theorem extractClassProperties_distinct classBody :
  NoDup (map prop_name (extractClassProperties classBody)).
Proof.
  unfold extractClassProperties.
  match goal with
  | |- context [fold_left classLevelStep _ ?s1] =>
      assert (H : distinctSoFar (fold_left classLevelStep classBody s1))
  end.
  { apply fold_distinct; [apply classLevelStep_distinct|].
    apply fold_distinct; [apply initStep_distinct|].
    split; [reflexivity|constructor]. }
  destruct H as [Hf Hn]. rewrite Hf. now apply NoDup_rev.
Qed.

End PropertyFacts.

Section SpansInFile.

Import PythonParser.

Lemma lineOf_range code i :
  1 <= lineOf code i /\ lineOf code i <= length (split code LF).
Proof.
  unfold lineOf, split. rewrite slice_prefix, !length_split_aux.
  pose proof (count_firstn LF i code). lia.
Qed.

Lemma length_scanBlock k ls : length (scanBlock k ls) <= length ls.
Proof.
  rewrite (scanBlock_prefix k ls) at 1. rewrite length_firstn. lia.
Qed.

Lemma block_within lines i b :
  extractPythonBlock lines i = Ret b ->
  1 <= length b /\ i + length b <= length lines.
Proof.
  unfold extractPythonBlock.
  destruct (nth_error lines i) as [l|] eqn:Hl; [|discriminate].
  intros [= <-]. cbn [length].
  pose proof (length_scanBlock (indentOf l) (skipn (S i) lines)) as Hs.
  rewrite length_skipn in Hs.
  assert (i < length lines) by (apply nth_error_Some; congruence).
  change (match lines with [] => [] | _ :: l0 => skipn i l0 end)
    with (skipn (S i) lines).
  lia.
Qed.

Lemma lineComments_within n i ls :
  i + length ls <= n ->
  Forall (fun c => within n (comment_startLine c) (comment_endLine c))
         (lineComments i ls).
Proof.
  revert i; induction ls as [|l t IH]; intros i H; simpl; [constructor|].
  simpl in H.
  destruct (startsWith (trim l) HASH);
    [constructor; [unfold within; simpl; lia|]|]; apply IH; lia.
Qed.

(** X26.  Whatever the indentation analyzer returns, every class, every
    function and every comment in it spans lines of the file: its first
    line is at least 1, its last line at most the number of lines of the
    source, and the first is not after the last. *)
Theorem parsePython_spans_in_file code name md :
  parsePython code name = Ret md ->
  let n := length (split code LF) in
  Forall (fun c => within n (class_startLine c) (class_endLine c))
         (classes md)
  /\ Forall (fun f => within n (fn_startLine f) (fn_endLine f))
            (functions md)
  /\ Forall (fun c => within n (comment_startLine c) (comment_endLine c))
            (comments md).
Proof.
  unfold parsePython.
  destruct (extractPythonImports code) as [im| |]; simpl; try discriminate.
  destruct (extractPythonComments code (split code LF)) as [cm| |] eqn:Hcm;
    simpl; try discriminate.
  destruct (extractPythonClasses code (split code LF)) as [cl| |] eqn:Hcl;
    simpl; try discriminate.
  destruct (extractPythonFunctions code (split code LF)) as [fn| |] eqn:Hfn;
    simpl; try discriminate.
  intros [= <-]. simpl.
  split; [|split].
  - unfold extractPythonClasses in Hcl.
    destruct (loop (exec_all classRegex code)) as [ms| |];
      simpl in Hcl; try discriminate.
    eapply mapM_Forall; [|exact Hcl].
    intros m c. unfold pythonClass.
    destruct (extractPythonBlock _ _) as [b| |] eqn:Hb; simpl;
      try discriminate.
    intros [= <-]. unfold within. simpl.
    apply block_within in Hb.
    pose proof (lineOf_range code (index m)). lia.
  - unfold extractPythonFunctions in Hfn.
    destruct (loop (exec_all funcRegex code)) as [ms| |];
      simpl in Hfn; try discriminate.
    destruct (mapM _ ms) as [fs| |] eqn:Hfs; simpl in Hfn; try discriminate.
    injection Hfn as <-.
    apply Forall_somes. eapply mapM_Forall; [|exact Hfs].
    intros m [f|]; [|trivial]. unfold pythonFunction.
    destruct (_ && _); [discriminate|].
    destruct (extractPythonBlock _ _) as [b| |] eqn:Hb; simpl;
      try discriminate.
    intros [= <-]. unfold within. simpl.
    apply block_within in Hb.
    pose proof (lineOf_range code (index m)). lia.
  - unfold extractPythonComments in Hcm.
    destruct (loop (exec_all docstringRegex code)) as [ms| |];
      simpl in Hcm; try discriminate.
    destruct (mapM _ ms) as [bs| |] eqn:Hbs; simpl in Hcm; try discriminate.
    injection Hcm as <-.
    apply Forall_app. split; [apply lineComments_within; simpl; lia|].
    eapply mapM_Forall; [|exact Hbs].
    intros m c. unfold blockComment.
    destruct (orStr _ _); [|discriminate].
    intros [= <-]. unfold within. simpl.
    pose proof (lineOf_range code (index m)).
    pose proof (lineOf_range code (index m + length (matched m))).
    pose proof (@lineOf_mono code (index m) (index m + length (matched m))).
    lia.
Qed.

End SpansInFile.

(** The scenario of the specification has four lines, the last one
    empty. *)
Lemma parsePython_spans_in_file_witness :
  exists md,
    PythonParser.parsePython fooSource (lit "foo.py") = Ret md
    /\ Forall (fun c => within 4 (class_startLine c) (class_endLine c))
              (classes md).
Proof.
  destruct (PythonParser.parsePython fooSource (lit "foo.py"))
    as [md|e|] eqn:Hp;
    [|exfalso; vm_compute in Hp; discriminate
     |exfalso; vm_compute in Hp; discriminate].
  exists md. split; [reflexivity|].
  exact (proj1 (@parsePython_spans_in_file fooSource (lit "foo.py") md Hp)).
Defined.

(* ================================================================= *)
(** * Truncation at a line boundary *)

Section LineBoundary.

Import PromptBuilder.

Lemma lastIndexOf_last a c b :
  count c b = 0 -> lastIndexOf (a ++ c :: b) c = Z.of_nat (length a).
Proof.
  intros H. unfold lastIndexOf. rewrite lastIndexOf_from_app.
  cbn [lastIndexOf_from]. rewrite N.eqb_refl.
  rewrite lastIndexOf_from_absent by exact H. lia.
Qed.

Lemma count_absent c l :
  (forall j, nth_error l j <> Some c) -> count c l = 0.
Proof.
  induction l as [|x t IH]; intros H; simpl; [reflexivity|].
  destruct (x =? c)%N eqn:Hx.
  - apply N.eqb_eq in Hx. subst x. now destruct (H 0).
  - apply IH. intros j. apply (H (S j)).
Qed.

(** X27.  Over the budget, truncation cuts at a line boundary when it can:
    the text kept ends right before the last line feed that lies within
    the budget and not at the very start, and the marker follows.  When
    there is no such line feed, the text kept is the budget's worth of
    units, cut where it falls. *)
Theorem truncateCode_line_boundary config code :
  (0 <= maxCodeLength config)%Z ->
  (maxCodeLength config < Z.of_nat (length code))%Z ->
  let budget := Z.to_nat (maxCodeLength config) in
  (forall n,
      0 < n < budget -> nth_error code n = Some LF ->
      (forall j, n < j < budget -> nth_error code j <> Some LF) ->
      truncateCode config code = firstn n code ++ truncationMarker)
  /\ ((forall j, 0 < j < budget -> nth_error code j <> Some LF) ->
      truncateCode config code = firstn budget code ++ truncationMarker).
Proof.
  intros Hmax Hgt budget. unfold truncateCode.
  replace (Z.of_nat (length code) <=? maxCodeLength config)%Z with false
    by (symmetry; apply Z.leb_gt; exact Hgt).
  rewrite (slice_firstn code Hmax). fold budget.
  split.
  - intros n [Hn0 Hnb] Hn Hlast.
    assert (Hsplit : firstn budget code
                     = firstn n code
                       ++ LF :: skipn (S n) (firstn budget code)).
    { rewrite <- (firstn_skipn n (firstn budget code)) at 1.
      rewrite firstn_firstn, Nat.min_l by lia. f_equal.
      apply skipn_nth_error_cons. rewrite nth_error_firstn.
      now replace (n <? budget) with true
        by (symmetry; apply Nat.ltb_lt; lia). }
    assert (Hfree : count LF (skipn (S n) (firstn budget code)) = 0).
    { apply count_absent. intros j.
      rewrite nth_error_skipn, nth_error_firstn.
      destruct (S n + j <? budget) eqn:Hj; [|discriminate].
      apply Nat.ltb_lt in Hj. apply Hlast. lia. }
    assert (Hidx : lastIndexOf (firstn budget code) LF = Z.of_nat n).
    { rewrite Hsplit, (@lastIndexOf_last _ _ _ Hfree), length_firstn. lia. }
    rewrite Hidx.
    replace (0 <? Z.of_nat n)%Z with true by (symmetry; apply Z.ltb_lt; lia).
    rewrite slice_prefix, firstn_firstn, Nat.min_l by lia. reflexivity.
  - intros Hnone.
    replace (0 <? lastIndexOf (firstn budget code) LF)%Z with false;
      [reflexivity|].
    symmetry. apply Z.ltb_ge.
    destruct budget as [|b]; [simpl; unfold lastIndexOf; simpl; lia|].
    destruct code as [|x t]; [simpl; unfold lastIndexOf; simpl; lia|].
    cbn [firstn]. unfold lastIndexOf. cbn [lastIndexOf_from].
    rewrite lastIndexOf_from_absent; [destruct (x =? LF)%N; lia|].
    apply count_absent. intros j. rewrite nth_error_firstn.
    destruct (j <? b) eqn:Hj; [|discriminate].
    apply Nat.ltb_lt in Hj. apply (Hnone (S j)). lia.
Qed.

End LineBoundary.

Lemma truncateCode_line_boundary_witness :
  PromptBuilder.truncateCode
    {| PromptBuilder.includeCodeSummary := true;
       PromptBuilder.maxCodeLength := 5;
       PromptBuilder.config_language := None |}
    (lit "ab" ++ [LF] ++ lit "cdefgh" ++ [LF] ++ lit "ij")
  = lit "ab" ++ PromptBuilder.truncationMarker.
Proof.
  refine (proj1 (@truncateCode_line_boundary
                   {| PromptBuilder.includeCodeSummary := true;
                      PromptBuilder.maxCodeLength := 5;
                      PromptBuilder.config_language := None |}
                   (lit "ab" ++ [LF] ++ lit "cdefgh" ++ [LF] ++ lit "ij")
                   _ _) 2 _ _ _).
  - simpl. lia.
  - vm_compute. reflexivity.
  - simpl. lia.
  - reflexivity.
  - intros j Hj. simpl in Hj.
    assert (Hc : j = 3 \/ j = 4) by lia.
    destruct Hc as [-> | ->]; discriminate.
Defined.

(* ================================================================= *)
(** * Symbolic runs and method headers *)

Section SymbolicRuns.

Lemma skipWhile_app p a b : forall pv i,
  forallb p a = true -> stops p b ->
  skipWhile p pv (a ++ b) i = Cursor (lastOf pv a) b (i + length a).
Proof.
  induction a as [|x t IH]; intros pv i Ha Hb; simpl in *.
  - rewrite Nat.add_0_r. destruct b as [|y u]; [reflexivity|].
    simpl in Hb. cbn [skipWhile]. now rewrite Hb.
  - apply andb_true_iff in Ha. destruct Ha as [Hx Ht]. rewrite Hx.
    rewrite IH by assumption. f_equal. lia.
Qed.

Lemma advance_app a b : forall pv i,
  advance (length a) (Cursor pv (a ++ b) i)
  = Cursor (lastOf pv a) b (i + length a).
Proof.
  induction a as [|x t IH]; intros pv i; simpl.
  - now rewrite Nat.add_0_r.
  - rewrite IH. f_equal. lia.
Qed.

(** A literal text at the cursor is consumed. *)
Lemma run_text_app s b pv i cs (k : K) :
  run (text s) (Cursor pv (s ++ b) i) cs k
  = k (Cursor (lastOf pv s) b (i + length s)) cs.
Proof.
  rewrite run_text. cbn [rest]. now rewrite startsWith_app, advance_app.
Qed.

(** A greedy iteration over a class consumes the whole run of the class
    when what follows accepts there. *)
Lemma run_many_class p a b pv i cs (k : K) res :
  forallb p a = true -> stops p b ->
  k (Cursor (lastOf pv a) b (i + length a)) cs = Some res ->
  run (many (Cls p)) (Cursor pv (a ++ b) i) cs k = Some res.
Proof.
  intros Ha Hb Hk. unfold many. rewrite run_Star. cbn [rest].
  apply star_class_longest; [lia|]. now rewrite skipWhile_app.
Qed.

Lemma run_many_none p b pv i cs (k : K) res :
  stops p b ->
  k (Cursor pv b i) cs = Some res ->
  run (many (Cls p)) (Cursor pv b i) cs k = Some res.
Proof.
  intros Hb Hk. apply (@run_many_class p [] b); [reflexivity|exact Hb|].
  simpl. now rewrite Nat.add_0_r.
Qed.

Lemma run_plus_class p a b pv i cs (k : K) res :
  a <> [] -> forallb p a = true -> stops p b ->
  k (Cursor (lastOf pv a) b (i + length a)) cs = Some res ->
  run (plus (Cls p)) (Cursor pv (a ++ b) i) cs k = Some res.
Proof.
  intros Hne Ha Hb Hk. destruct a as [|x t]; [congruence|].
  simpl in Ha. apply andb_true_iff in Ha. destruct Ha as [Hx Ht].
  unfold plus. cbn [run rest pos app]. rewrite Hx.
  change (star_loop (run (Cls p)) true k
            (S (length (rest (Cursor (Some x) (t ++ b) (S i)))))
            (Cursor (Some x) (t ++ b) (S i)) cs)
    with (run (many (Cls p)) (Cursor (Some x) (t ++ b) (S i)) cs k).
  apply run_many_class; try assumption.
  simpl in Hk. now replace (S i + length t) with (i + S (length t)) by lia.
Qed.

Lemma capture_app i (a b : jsstring) :
  firstn (i + length a - i) (a ++ b) = a.
Proof.
  replace (i + length a - i) with (length a) by lia.
  rewrite firstn_app, firstn_all, Nat.sub_diag. simpl. apply app_nil_r.
Qed.

Lemma word_not_space c : isWord c = true -> isSpace c = false.
Proof.
  unfold isWord, isSpace, isWhiteSpace, isLineTerminator. intros H.
  repeat rewrite ?orb_true_iff, ?andb_true_iff, ?N.eqb_eq, ?N.leb_le in H.
  repeat rewrite ?orb_false_iff, ?andb_false_iff, ?N.eqb_neq, ?N.leb_gt.
  repeat split; try lia.
Qed.

Lemma run_opt_skip a c cs (k : K) :
  run a c cs k = None -> run (opt a) c cs k = k c cs.
Proof. intros H. unfold opt. cbn [run]. now rewrite H. Qed.

Lemma run_opt_take a c cs (k : K) res :
  run a c cs k = Some res -> run (opt a) c cs k = Some res.
Proof. intros H. unfold opt. cbn [run]. now rewrite H. Qed.

End SymbolicRuns.

Section MethodHeaders.

Import PythonParser.

(** X28.  A method header -- a non-empty indent of white space, [def], a
    name made of word characters, parameters without a closing
    parenthesis, and a colon -- is recognised, whatever follows the colon:
    the method has that name and the parameters parsed from the text in
    the parentheses, is not async and has no return type; its visibility
    is the one of its name; and it counts as static when the parameters
    start with cls or the header line itself holds the decorator's text. *)
Theorem classMethod_header indent name params tail_ :
  indent <> [] -> forallb isSpace indent = true ->
  name <> [] -> forallb isWord name = true ->
  forallb (fun c => negb (c =? RPAREN)%N) params = true ->
  let line := methodHeader indent name params tail_ in
  classMethod line
  = Some {| method_name := name;
            method_params := parsePythonParams params;
            method_returnType := None;
            method_isAsync := false;
            method_isStatic :=
              startsWith (trim params) (lit "cls")
              || includes line (lit "@staticmethod");
            visibility := methodVisibility name |}.
Proof.
  intros Hi Hsp Hn Hw Hp line.
  assert (Hrun : exists c',
             run methodRegex (Cursor None line 0) [] accept
             = Some (c', [(3, params); (2, name)])).
  { eexists. unfold methodRegex, defTail, s_, w_, notc, ch.
    cbn [seq]. rewrite run_Seq.
    change (run Bos (Cursor None line 0) [] ?k) with (k (Cursor None line 0) []).
    cbv beta. unfold line, methodHeader.
    rewrite run_Seq. apply run_plus_class; try assumption; [reflexivity|].
    rewrite run_Seq, run_opt_skip by reflexivity.
    change (lit "def " ++ name ++ [LPAREN] ++ params ++ [RPAREN]
              ++ lit ":" ++ tail_)
      with (lit "def" ++ [32%N] ++ name ++ [LPAREN] ++ params ++ [RPAREN]
              ++ lit ":" ++ tail_).
    rewrite run_Seq, run_text_app.
    rewrite run_Seq. apply run_plus_class;
      [discriminate|reflexivity| |].
    { destruct name as [|n0 n']; [congruence|]. simpl in Hw |- *.
      apply andb_true_iff in Hw. now apply word_not_space. }
    rewrite run_Seq, run_Grp. cbn [rest pos].
    apply run_plus_class; try assumption; [reflexivity|].
    cbn [pos]. rewrite capture_app.
    rewrite run_Seq.
    apply run_many_none; [reflexivity|].
    change ([LPAREN] ++ params ++ [RPAREN] ++ lit ":" ++ tail_)
      with (lit "(" ++ params ++ [RPAREN] ++ lit ":" ++ tail_).
    rewrite run_Seq, run_text_app. rewrite run_Seq, run_Grp. cbn [rest pos].
    apply run_many_class; try assumption; [reflexivity|].
    cbn [pos]. rewrite capture_app.
    change ([RPAREN] ++ lit ":" ++ tail_)
      with (lit ")" ++ lit ":" ++ tail_).
    rewrite run_Seq, run_text_app. rewrite run_Seq.
    rewrite run_opt_skip by reflexivity.
    rewrite run_Seq, run_text_app. cbn [run]. reflexivity. }
  destruct Hrun as [c' Hrun].
  unfold classMethod, match_, exec, start. cbn [prev rest pos].
  rewrite search_unfold. fold accept. rewrite Hrun.
  unfold group. cbn [groups lookup Nat.eqb must orStr truthyOpt].
  reflexivity.
Qed.

End MethodHeaders.

(** The initialiser of the scenario, with a comment after the colon. *)
Lemma classMethod_header_witness :
  PythonParser.classMethod
    (methodHeader (lit "    ") (lit "__init__") (lit "self, x") (lit "  # set"))
  = Some {| method_name := lit "__init__";
            method_params :=
              [{| param_name := lit "x"; param_type := None;
                  param_isOptional := false;
                  param_defaultValue := None |}];
            method_returnType := None; method_isAsync := false;
            method_isStatic := false; visibility := protected |}.
Proof.
  rewrite (@classMethod_header (lit "    ") (lit "__init__") (lit "self, x")
             (lit "  # set"));
    [vm_compute; reflexivity|discriminate|reflexivity|discriminate
    |reflexivity|reflexivity].
Defined.

(* ================================================================= *)
(** * Parameters *)

Section TrimFacts.

Lemma dropWhile_all p (a b : jsstring) :
  forallb p a = true -> dropWhile p (a ++ b) = dropWhile p b.
Proof.
  induction a as [|x t IH]; simpl; [reflexivity|].
  destruct (p x); [exact IH|discriminate].
Qed.

Lemma dropWhile_stay p (s : jsstring) : stops p s -> dropWhile p s = s.
Proof. destruct s as [|x t]; simpl; [reflexivity|]. now intros ->. Qed.

Lemma forallb_rev {A} (p : A -> bool) l :
  forallb p (rev l) = forallb p l.
Proof.
  induction l as [|x t IH]; [reflexivity|]. simpl.
  rewrite forallb_app, IH. simpl. rewrite andb_true_r. apply andb_comm.
Qed.

(** Trimming takes the white space around a text that neither starts nor
    ends with white space. *)
Lemma trim_around pre s z post :
  forallb isSpace pre = true -> forallb isSpace post = true ->
  stops isSpace (s ++ [z]) -> isSpace z = false ->
  trim (pre ++ (s ++ [z]) ++ post) = s ++ [z].
Proof.
  intros Hpre Hpost Hs Hz. unfold trim.
  rewrite dropWhile_all by exact Hpre.
  rewrite (@dropWhile_stay isSpace ((s ++ [z]) ++ post)).
  - rewrite rev_app_distr.
    rewrite dropWhile_all by now rewrite forallb_rev.
    rewrite rev_app_distr. simpl. rewrite Hz. simpl.
    now rewrite rev_involutive.
  - destruct s as [|x t]; simpl in *; assumption.
Qed.

Lemma trim_solid s pre post :
  s <> [] -> forallb nonSpace s = true ->
  forallb isSpace pre = true -> forallb isSpace post = true ->
  trim (pre ++ s ++ post) = s.
Proof.
  intros Hne Hs Hpre Hpost.
  destruct (exists_last Hne) as (s' & z & ->).
  rewrite forallb_app in Hs. apply andb_true_iff in Hs.
  destruct Hs as [Hs' Hz]. simpl in Hz. rewrite andb_true_r in Hz.
  apply negb_true_iff in Hz.
  apply trim_around; try assumption.
  destruct s' as [|x t]; simpl; [exact Hz|].
  simpl in Hs'. apply andb_true_iff in Hs'. destruct Hs' as [Hx _].
  now apply negb_true_iff in Hx.
Qed.

End TrimFacts.

Section ParameterFacts.

Import PythonParser.

Lemma run_Eps c cs (k : K) : run Eps c cs k = k c cs.
Proof. reflexivity. Qed.

Lemma run_plus_class_end p a pv i cs (k : K) res :
  a <> [] -> forallb p a = true ->
  k (Cursor (lastOf pv a) [] (i + length a)) cs = Some res ->
  run (plus (Cls p)) (Cursor pv a i) cs k = Some res.
Proof.
  intros Hne Ha Hk. rewrite <- (app_nil_r a) at 1.
  now apply run_plus_class.
Qed.

Lemma capture_all i (a : jsstring) : firstn (i + length a - i) a = a.
Proof.
  replace (i + length a - i) with (length a) by lia. apply firstn_all.
Qed.

Lemma word_not_star c : isWord c = true -> (STAR =? c)%N = false.
Proof.
  unfold isWord, STAR. intros H. apply N.eqb_neq.
  repeat rewrite ?orb_true_iff, ?andb_true_iff, ?N.eqb_eq, ?N.leb_le in H.
  lia.
Qed.

Lemma nonSpace_dot s :
  forallb nonSpace s = true ->
  forallb (fun c => negb (isLineTerminator c)) s = true.
Proof.
  intros H. rewrite forallb_forall in *. intros c Hc.
  specialize (H c Hc). unfold nonSpace, isSpace in H.
  apply negb_true_iff in H. apply orb_false_iff in H.
  destruct H as [_ H]. now rewrite H.
Qed.

Lemma count_colon_self :
  count 58%N (lit "self") = 0 /\ count 58%N (lit "cls") = 0.
Proof. split; reflexivity. Qed.

(** X29.  A parameter written as a name, a colon, a type, an equals sign
    and a default value, after any white space -- the name made of word
    characters, the type and the value without white space, the type
    without an equals sign -- is parsed into that name, that type and that
    default, and is optional. *)
Theorem parsePythonParam_typed_default pre name ty dv :
  forallb isSpace pre = true ->
  name <> [] -> forallb isWord name = true ->
  ty <> [] -> forallb inAnnotation ty = true ->
  dv <> [] -> forallb nonSpace dv = true ->
  parsePythonParam (pre ++ name ++ lit ": " ++ ty ++ lit " = " ++ dv)
  = Some {| param_name := name;
            param_type := Some ty;
            param_isOptional := true;
            param_defaultValue := Some dv |}.
Proof.
  intros Hpre Hn Hw Ht Hty Hd Hdv.
  set (part := name ++ lit ": " ++ ty ++ lit " = " ++ dv).
  assert (Htysp : forallb nonSpace ty = true).
  { rewrite forallb_forall in *. intros c Hc. specialize (Hty c Hc).
    unfold inAnnotation in Hty. now apply andb_true_iff in Hty. }
  assert (Htyeq : forallb (fun c => negb (c =? EQUALS)%N) ty = true).
  { rewrite forallb_forall in *. intros c Hc. specialize (Hty c Hc).
    unfold inAnnotation in Hty. now apply andb_true_iff in Hty. }
  assert (Htrim : trim (pre ++ part) = part).
  { destruct (exists_last Hd) as (d' & z & Hdz).
    assert (Hz : isSpace z = false).
    { rewrite Hdz, forallb_app in Hdv. apply andb_true_iff in Hdv.
      destruct Hdv as [_ Hz]. simpl in Hz. rewrite andb_true_r in Hz.
      now apply negb_true_iff in Hz. }
    unfold part. rewrite Hdz.
    replace (pre ++ name ++ lit ": " ++ ty ++ lit " = " ++ d' ++ [z])
      with (pre ++ ((name ++ lit ": " ++ ty ++ lit " = " ++ d') ++ [z])
              ++ [])
      by (rewrite app_nil_r, <- !app_assoc; reflexivity).
    rewrite trim_around; try reflexivity; try assumption.
    - now rewrite <- !app_assoc.
    - destruct name as [|n0 n']; [congruence|]. simpl in Hw |- *.
      apply andb_true_iff in Hw. now apply word_not_space. }
  assert (Hrun : exists c',
             run paramRegex (Cursor None part 0) [] accept
             = Some (c', [(3, dv); (2, ty ++ lit " "); (1, name)])).
  { eexists. unfold paramRegex, s_, w_, notc, ch, dot. cbn [seq].
    rewrite run_Seq.
    change (run Bos (Cursor None part 0) [] ?k) with (k (Cursor None part 0) []).
    cbv beta. unfold part.
    rewrite run_Seq, run_Grp. cbn [rest pos]. rewrite run_Seq.
    rewrite run_opt_skip.
    2:{ destruct name as [|n0 n']; [congruence|]. simpl in Hw.
        apply andb_true_iff in Hw. destruct Hw as [Hw0 _].
        cbn [run rest app]. now rewrite word_not_star. }
    rewrite run_Seq. apply run_plus_class; try assumption; [reflexivity|].
    rewrite run_Eps. cbn [pos]. rewrite capture_app.
    rewrite run_Seq. apply run_opt_take.
    rewrite run_Seq. apply run_many_none; [reflexivity|].
    change (lit ": " ++ ty ++ lit " = " ++ dv)
      with (lit ":" ++ [32%N] ++ ty ++ lit " = " ++ dv).
    rewrite run_Seq, run_text_app.
    rewrite run_Seq. apply run_many_class; [reflexivity| |].
    { destruct ty as [|t0 t']; [congruence|]. simpl in Htysp |- *.
      apply andb_true_iff in Htysp. destruct Htysp as [H0 _].
      now apply negb_true_iff in H0. }
    change (ty ++ lit " = " ++ dv) with (ty ++ [32%N] ++ lit "= " ++ dv).
    rewrite (app_assoc ty).
    rewrite run_Seq, run_Grp. cbn [rest pos].
    apply run_plus_class.
    { now destruct ty. }
    { rewrite forallb_app. apply andb_true_iff. now split. }
    { reflexivity. }
    cbn [pos]. rewrite capture_app. rewrite run_Eps.
    rewrite run_Seq. apply run_opt_take.
    rewrite run_Seq. apply run_many_none; [reflexivity|].
    change (lit "= " ++ dv) with (lit "=" ++ [32%N] ++ dv).
    rewrite run_Seq, run_text_app.
    rewrite run_Seq. apply run_many_class; [reflexivity| |].
    { destruct dv as [|d0 d']; [congruence|]. simpl in Hdv |- *.
      apply andb_true_iff in Hdv. destruct Hdv as [H0 _].
      now apply negb_true_iff in H0. }
    rewrite run_Seq, run_Grp. cbn [rest pos].
    apply run_plus_class_end; try assumption;
      [now apply nonSpace_dot|].
    cbn [pos]. rewrite capture_all. reflexivity. }
  destruct Hrun as [c' Hrun].
  unfold parsePythonParam. fold part. rewrite Htrim.
  replace (truthy part) with true by (unfold part; now destruct name).
  replace (eqb part (lit "self")) with false.
  2:{ symmetry. destruct (eqb part (lit "self")) eqn:He; [|reflexivity].
      apply eqb_eq in He. apply (f_equal (count 58%N)) in He.
      unfold part in He. rewrite !count_app in He.
      rewrite (proj1 count_colon_self) in He. simpl in He. lia. }
  replace (eqb part (lit "cls")) with false.
  2:{ symmetry. destruct (eqb part (lit "cls")) eqn:He; [|reflexivity].
      apply eqb_eq in He. apply (f_equal (count 58%N)) in He.
      unfold part in He. rewrite !count_app in He.
      rewrite (proj2 count_colon_self) in He. simpl in He. lia. }
  cbn [negb orb]. unfold match_, exec, start. cbn [prev rest pos].
  rewrite search_unfold. fold accept. rewrite Hrun.
  unfold group. cbn [groups lookup Nat.eqb must option_map truthyOpt].
  f_equal. f_equal.
  - f_equal. rewrite <- (app_nil_l (ty ++ lit " ")).
    apply trim_solid; try assumption; reflexivity.
  - now destruct dv.
  - f_equal. rewrite <- (app_nil_l dv), <- (app_nil_r dv) at 1. cbn [app].
    rewrite <- (app_nil_l (dv ++ [])).
    apply trim_solid; try assumption; reflexivity.
Qed.

End ParameterFacts.

(** A second parameter, after the space that follows the comma. *)
Lemma parsePythonParam_typed_default_witness :
  PythonParser.parsePythonParam (lit " " ++ lit "n" ++ lit ": " ++ lit "int"
                                   ++ lit " = " ++ lit "3")
  = Some {| param_name := lit "n"; param_type := Some (lit "int");
            param_isOptional := true;
            param_defaultValue := Some (lit "3") |}.
Proof.
  apply parsePythonParam_typed_default;
    first [reflexivity|discriminate].
Defined.

(* ================================================================= *)
(** * Imports *)

Section ImportFacts.

Import PythonParser.

Lemma lastOf_snoc pv (a : jsstring) z : lastOf pv (a ++ [z]) = Some z.
Proof. unfold lastOf. now rewrite fold_left_app. Qed.

Lemma nonSpace_line c : nonSpace c = true -> isLineTerminator c = false.
Proof.
  unfold nonSpace, isSpace. intros H. apply negb_true_iff in H.
  now apply orb_false_iff in H.
Qed.

(** After a text without white space the position is not at the start of
    a line. *)
Lemma atBol_solid pv a r i :
  a <> [] -> forallb nonSpace a = true ->
  atBol (Cursor (lastOf pv a) r i) = false.
Proof.
  intros Hne Ha. destruct (exists_last Hne) as (a' & z & ->).
  rewrite lastOf_snoc. unfold atBol. cbn [prev].
  rewrite forallb_app in Ha. apply andb_true_iff in Ha.
  destruct Ha as [_ Hz]. simpl in Hz. rewrite andb_true_r in Hz.
  now apply nonSpace_line.
Qed.

(** An expression anchored at the start of a line matches nowhere inside
    a line. *)
Lemma search_inside_line r : forall s p i,
  atBol (Cursor p s i) = false ->
  forallb (fun c => negb (isLineTerminator c)) s = true ->
  search (Seq Bol r) p s i = None.
Proof.
  induction s as [|x t IH]; intros p i Hb Hs; rewrite search_unfold;
    cbn [run]; rewrite Hb; [reflexivity|].
  simpl in Hs. apply andb_true_iff in Hs. destruct Hs as [Hx Ht].
  apply IH; [|exact Ht]. unfold atBol. cbn [prev].
  now apply negb_true_iff in Hx.
Qed.

(** On one line, an anchored expression that fails at the start has no
    match. *)
Lemma exec_all_line_none r s :
  run (Seq Bol r) (Cursor None s 0) [] accept = None ->
  forallb (fun c => negb (isLineTerminator c)) s = true ->
  exec_all (Seq Bol r) s = Some [].
Proof.
  intros Hr Hs. unfold exec_all, exec_loop, exec, start. cbn [prev rest pos].
  rewrite search_unfold. fold accept. rewrite Hr.
  destruct s as [|x t]; [reflexivity|].
  simpl in Hs. apply andb_true_iff in Hs. destruct Hs as [Hx Ht].
  rewrite search_inside_line; [reflexivity| |exact Ht].
  unfold atBol. cbn [prev]. now apply negb_true_iff in Hx.
Qed.

(** On one line, an anchored expression that matches the whole line has
    that one match. *)
Lemma exec_all_line_whole r s pv n cs :
  s <> [] -> n = length s ->
  run (Seq Bol r) (Cursor None s 0) [] accept = Some (Cursor pv [] n, cs) ->
  atBol (Cursor pv [] n) = false ->
  exec_all (Seq Bol r) s = Some [Result 0 s cs (Cursor pv [] n)].
Proof.
  intros Hne Hn Hr Hb. unfold exec_all. rewrite <- Hn.
  destruct n as [|n']; [destruct s; [congruence|discriminate Hn]|].
  cbn [exec_loop]. unfold exec at 1, start. cbn [prev rest pos].
  rewrite search_unfold. fold accept. rewrite Hr. cbn [after index pos].
  replace (S n' <=? 0) with false by reflexivity.
  rewrite Nat.sub_0_r, Hn, firstn_all. rewrite <- Hn.
  unfold exec. cbn [prev rest pos]. rewrite search_unfold.
  rewrite run_Seq.
  change (run Bol (Cursor pv [] (S n')) [] ?k)
    with (if atBol (Cursor pv [] (S n')) then k (Cursor pv [] (S n')) []
          else None).
  rewrite Hb. reflexivity.
Qed.

(** The alias expression matches nowhere in a text without white
    space. *)
Lemma star_solid_none (k : K) :
  (forall c cs, forallb nonSpace (rest c) = true -> k c cs = None) ->
  forall fuel c cs,
    forallb nonSpace (rest c) = true ->
    star_loop (run S_) true k fuel c cs = None.
Proof.
  intros Hk. induction fuel as [|n IH]; intros [pv r i] cs Hr;
    cbn [star_loop]; [now apply Hk|].
  rewrite (Hk _ cs Hr). unfold S_. cbn [run rest pos].
  destruct r as [|y t]; [reflexivity|].
  cbn [rest] in Hr. simpl in Hr. apply andb_true_iff in Hr.
  destruct Hr as [Hy Ht]. unfold nonSpace in Hy. rewrite Hy.
  replace (S i =? i) with false by (symmetry; apply Nat.eqb_neq; lia).
  fold S_. rewrite IH; [reflexivity|exact Ht].
Qed.

Lemma run_plus_solid_none (k : K) c cs :
  (forall c' cs', forallb nonSpace (rest c') = true -> k c' cs' = None) ->
  forallb nonSpace (rest c) = true ->
  run (plus S_) c cs k = None.
Proof.
  intros Hk Hr. destruct c as [pv r i]. unfold plus. rewrite run_Seq.
  unfold S_ at 1. cbn [run rest pos].
  destruct r as [|y t]; [reflexivity|].
  cbn [rest] in Hr. simpl in Hr. apply andb_true_iff in Hr.
  destruct Hr as [Hy Ht]. unfold nonSpace in Hy. rewrite Hy.
  now apply star_solid_none.
Qed.

Lemma asRegex_solid s : forall p i,
  forallb nonSpace s = true -> search asRegex p s i = None.
Proof.
  assert (Hrun : forall c, forallb nonSpace (rest c) = true ->
                           run asRegex c [] accept = None).
  { intros c Hr. unfold asRegex. cbn [seq]. rewrite run_Seq, run_Grp.
    apply run_plus_solid_none; [|exact Hr].
    intros [pv' r' i'] cs' Hr'. rewrite run_Seq. unfold plus, s_.
    rewrite run_Seq. cbn [run rest].
    destruct r' as [|z u]; [reflexivity|].
    cbn [rest] in Hr'. simpl in Hr'. apply andb_true_iff in Hr'.
    destruct Hr' as [Hz _]. unfold nonSpace in Hz.
    apply negb_true_iff in Hz. now rewrite Hz. }
  induction s as [|x t IH]; intros p i Hs; rewrite search_unfold;
    fold accept; rewrite Hrun by exact Hs; [reflexivity|].
  simpl in Hs. apply andb_true_iff in Hs. now apply IH.
Qed.

Lemma stops_solid (a b : jsstring) :
  a <> [] -> forallb nonSpace a = true -> stops isSpace (a ++ b).
Proof.
  intros Hne Ha. destruct a as [|x t]; [congruence|]. simpl in Ha |- *.
  apply andb_true_iff in Ha. destruct Ha as [Hx _].
  now apply negb_true_iff in Hx.
Qed.

Lemma stops_solid_end (a : jsstring) :
  a <> [] -> forallb nonSpace a = true -> stops isSpace a.
Proof. intros Hne Ha. rewrite <- (app_nil_r a). now apply stops_solid. Qed.

Lemma line_solid (a : jsstring) :
  forallb nonSpace a = true ->
  forallb (fun c => negb (isLineTerminator c)) a = true.
Proof.
  intros H. rewrite forallb_forall in *. intros c Hc.
  apply negb_true_iff, nonSpace_line, H, Hc.
Qed.

(** X30.  A source that is one import statement, its names without white
    space.  A plain import is listed under its module, a plain import
    with an alias under its module with the alias as specifier, both as
    default imports; a from-import of one name is listed under its
    module with that name as specifier, not as a default import. *)
Theorem extractPythonImports_statement m n :
  m <> [] -> forallb nonSpace m = true ->
  n <> [] -> forallb nonSpace n = true ->
  extractPythonImports (lit "import " ++ m)
  = Ret [{| source := m; specifiers := [m]; isDefault := true |}]
  /\ extractPythonImports (lit "import " ++ m ++ lit " as " ++ n)
     = Ret [{| source := m; specifiers := [n]; isDefault := true |}]
  /\ (count COMMA n = 0 -> startsWith n HASH = false ->
      extractPythonImports (lit "from " ++ m ++ lit " import " ++ n)
      = Ret [{| source := m; specifiers := [n]; isDefault := false |}]).
Proof.
  intros Hm Hsm Hn Hsn.
  pose proof (line_solid _ Hsm) as Hlm. pose proof (line_solid _ Hsn) as Hln.
  split; [|split].
  - unfold extractPythonImports, simpleImportRegex, fromImportRegex.
    cbn [seq].
    rewrite (@exec_all_line_whole _ (lit "import " ++ m)
               (lastOf (lastOf (lastOf None (lit "import")) [32%N]) m)
               (0 + length (lit "import") + length [32%N] + length m)
               [(1, m)]).
    + rewrite exec_all_line_none;
        [|reflexivity|rewrite forallb_app, Hlm; reflexivity].
      cbn [loop bind map app group groups lookup Nat.eqb must orStr].
      now destruct m.
    + discriminate.
    + rewrite length_app. reflexivity.
    + unfold s_, S_, ch. rewrite run_Seq.
      match goal with
      | |- run Bol ?c [] ?k = _ => change (run Bol c [] k) with (k c [])
      end.
      cbv beta.
      change (lit "import " ++ m) with (lit "import" ++ [32%N] ++ m).
      rewrite run_Seq, run_text_app.
      rewrite run_Seq. apply run_plus_class;
        [discriminate|reflexivity|now apply stops_solid_end|].
      rewrite run_Seq, run_Grp. cbn [rest pos].
      apply run_plus_class_end; try assumption.
      cbn [pos]. rewrite capture_all.
      rewrite run_Seq, run_opt_skip by reflexivity.
      reflexivity.
    + now apply atBol_solid.
  - unfold extractPythonImports, simpleImportRegex, fromImportRegex.
    cbn [seq].
    rewrite (@exec_all_line_whole _ (lit "import " ++ m ++ lit " as " ++ n)
               (lastOf (lastOf (lastOf (lastOf (lastOf (lastOf (lastOf None
                  (lit "import")) [32%N]) m) [32%N]) (lit "as")) [32%N])
                  n)
               (0 + length (lit "import") + length [32%N] + length m
                + length [32%N] + length (lit "as") + length [32%N]
                + length n)
               [(2, n); (1, m)]).
    + rewrite exec_all_line_none;
        [|reflexivity
         |rewrite !forallb_app, Hlm, Hln; reflexivity].
      cbn [loop bind map app group groups lookup Nat.eqb must orStr].
      now destruct n.
    + discriminate.
    + rewrite !length_app. simpl. lia.
    + unfold s_, S_, ch. rewrite run_Seq.
      match goal with
      | |- run Bol ?c [] ?k = _ => change (run Bol c [] k) with (k c [])
      end.
      cbv beta.
      change (lit "import " ++ m ++ lit " as " ++ n)
        with (lit "import" ++ [32%N] ++ m ++ [32%N] ++ lit "as" ++ [32%N]
                ++ n).
      rewrite run_Seq, run_text_app.
      rewrite run_Seq. apply run_plus_class;
        [discriminate|reflexivity|now apply stops_solid|].
      rewrite run_Seq, run_Grp. cbn [rest pos].
      apply run_plus_class; try assumption; [reflexivity|].
      cbn [pos]. rewrite capture_app.
      rewrite run_Seq. apply run_opt_take.
      rewrite run_Seq. apply run_plus_class;
        [discriminate|reflexivity|reflexivity|].
      rewrite run_Seq, run_text_app.
      rewrite run_Seq. apply run_plus_class;
        [discriminate|reflexivity|now apply stops_solid_end|].
      rewrite run_Seq, run_Grp. cbn [rest pos].
      apply run_plus_class_end; try assumption.
      cbn [pos]. rewrite capture_all. reflexivity.
    + now apply atBol_solid.
  - intros Hc Hh.
    unfold extractPythonImports, simpleImportRegex, fromImportRegex.
    cbn [seq].
    rewrite exec_all_line_none;
      [|reflexivity|rewrite !forallb_app, Hlm, Hln; reflexivity].
    rewrite (@exec_all_line_whole _ (lit "from " ++ m ++ lit " import " ++ n)
               (lastOf (lastOf (lastOf (lastOf (lastOf (lastOf (lastOf None
                  (lit "from")) [32%N]) m) [32%N]) (lit "import")) [32%N])
                  n)
               (0 + length (lit "from") + length [32%N] + length m
                + length [32%N] + length (lit "import") + length [32%N]
                + length n)
               [(2, n); (1, m)]).
    + cbn [loop bind map app group groups lookup Nat.eqb must].
      unfold fromSpecifiers. rewrite split_free by exact Hc.
      cbn [map]. rewrite <- (app_nil_l n) at 1.
      rewrite <- (app_nil_r n) at 1.
      rewrite trim_solid by first [assumption|reflexivity].
      cbn [filter]. rewrite Hh.
      replace (truthy n) with true by now destruct n.
      cbn [andb negb map]. unfold match_, exec, start. cbn [prev rest pos].
      now rewrite asRegex_solid.
    + discriminate.
    + rewrite !length_app. simpl. lia.
    + unfold s_, S_, ch, dot. rewrite run_Seq.
      match goal with
      | |- run Bol ?c [] ?k = _ => change (run Bol c [] k) with (k c [])
      end.
      cbv beta.
      change (lit "from " ++ m ++ lit " import " ++ n)
        with (lit "from" ++ [32%N] ++ m ++ [32%N] ++ lit "import" ++ [32%N]
                ++ n).
      rewrite run_Seq, run_text_app.
      rewrite run_Seq. apply run_plus_class;
        [discriminate|reflexivity|now apply stops_solid|].
      rewrite run_Seq, run_Grp. cbn [rest pos].
      apply run_plus_class; try assumption; [reflexivity|].
      cbn [pos]. rewrite capture_app.
      rewrite run_Seq. apply run_plus_class;
        [discriminate|reflexivity|reflexivity|].
      rewrite run_Seq, run_text_app.
      rewrite run_Seq. apply run_plus_class;
        [discriminate|reflexivity|now apply stops_solid_end|].
      rewrite run_Seq, run_Grp. cbn [rest pos].
      apply run_plus_class_end; try assumption.
      cbn [pos]. rewrite capture_all. reflexivity.
    + now apply atBol_solid.
Qed.

End ImportFacts.

(** Three statements of everyday sources. *)
Lemma extractPythonImports_statement_witness :
  PythonParser.extractPythonImports
    (lit "import " ++ lit "numpy" ++ lit " as " ++ lit "np")
  = Ret [{| source := lit "numpy"; specifiers := [lit "np"];
            isDefault := true |}]
  /\ PythonParser.extractPythonImports
       (lit "from " ++ lit "os.path" ++ lit " import " ++ lit "join")
     = Ret [{| source := lit "os.path"; specifiers := [lit "join"];
               isDefault := false |}].
Proof.
  destruct (@extractPythonImports_statement (lit "numpy") (lit "np")
              ltac:(discriminate) eq_refl ltac:(discriminate) eq_refl)
    as (_ & H & _).
  destruct (@extractPythonImports_statement (lit "os.path") (lit "join")
              ltac:(discriminate) eq_refl ltac:(discriminate) eq_refl)
    as (_ & _ & H').
  split; [exact H|apply H'; reflexivity].
Defined.
